(** * bioconda_utils.bot.tasks: the bot's task handlers

    A shallow embedding of [src/bioconda_utils/bot/tasks.py]: the two
    artifact regular expressions, the [Checkout] context manager, and
    the handlers [bump], [lint_check] (up to the call of the linter),
    [check_circle_artifacts] and [merge_pr], followed by the properties
    of them that the specification states.

    The handlers are written in a small monad over a [World] (working
    directory, open clones, scratch directories, upload counters and the
    events so far), with the three ways a block of Python statements
    ends: it runs to its end, it returns, or it raises.  What the
    collaborators (GitHub, CircleCI, git, the upload primitives, Celery)
    answer during a run is given by a record per handler. *)

From Stdlib Require Import ZArith Ascii String List Lia Permutation.
From stdpp Require Import base strings pretty list gmap sets.

Open Scope string_scope.
Open Scope list_scope.

(* ===================================================================== *)
(** ** Python's [re], as far as the two patterns need it *)
(* ===================================================================== *)

Module Re.

(** The constructs that occur in [PACKAGE_RE] and [IMAGE_RE].  [AnyStar]
    is [.*], [AnyPlus] is [.+], [Group] a capturing group, [Eos] is [$]. *)
Inductive re : Type :=
| Lit (l : string)
| AnyStar
| AnyPlus
| Alt (a b : re)
| Seq (a b : re)
| Group (a : re)
| Eos.

(** [.] matches every character but the line feed (no DOTALL flag). *)
Definition is_newline (c : ascii) : bool := Ascii.eqb c "010"%char.

Fixpoint strip_prefix (l s : string) : option string :=
  match l, s with
  | EmptyString, _ => Some s
  | String a l', String b s' =>
      if Ascii.eqb a b then strip_prefix l' s' else None
  | String _ _, EmptyString => None
  end.

Fixpoint take (n : nat) (s : string) : string :=
  match n, s with
  | S n', String c s' => String c (take n' s')
  | _, _ => EmptyString
  end.

(** The text between the position where [s] starts and the position
    where its suffix [s'] starts. *)
Definition consumed (s s' : string) : string :=
  take (String.length s - String.length s') s.

(** Greedy repetition of [.]: the longest run is tried first and given
    back one character at a time while the rest fails. *)
Fixpoint any_star {A} (s : string) (k : string -> option A) : option A :=
  match s with
  | EmptyString => k s
  | String c s' =>
      if is_newline c then k s
      else match any_star s' k with
           | Some r => Some r
           | None => k s
           end
  end.

(** [$] without MULTILINE: the end of the string, or just before a line
    feed that ends the string. *)
Definition at_eos (s : string) : bool :=
  match s with
  | EmptyString => true
  | String c EmptyString => is_newline c
  | _ => false
  end.

(** The backtracking matcher, in continuation-passing style: [k] is what
    remains to be matched after [r], [caps] the groups closed so far. *)
Fixpoint rmatch (r : re) (s : string) (caps : list string)
    (k : string -> list string -> option (list string))
    : option (list string) :=
  match r with
  | Lit l =>
      match strip_prefix l s with
      | Some s' => k s' caps
      | None => None
      end
  | AnyStar => any_star s (fun s' => k s' caps)
  | AnyPlus =>
      match s with
      | EmptyString => None
      | String c s' =>
          if is_newline c then None else any_star s' (fun s'' => k s'' caps)
      end
  | Alt a b =>
      match rmatch a s caps k with
      | Some x => Some x
      | None => rmatch b s caps k
      end
  | Seq a b => rmatch a s caps (fun s' caps' => rmatch b s' caps' k)
  | Group a => rmatch a s caps (fun s' caps' => k s' (caps' ++ [consumed s s']))
  | Eos => if at_eos s then k s caps else None
  end.

(** What the matcher computes, as a relation: [matches r s rest g] says
    that [r] matches the text [s] when [rest] follows it, and that the
    groups closed on the way hold [g]. *)
Fixpoint no_newline (s : string) : bool :=
  match s with
  | EmptyString => true
  | String c s' => negb (is_newline c) && no_newline s'
  end.

Inductive matches : re -> string -> string -> list string -> Prop :=
| matches_Lit l rest : matches (Lit l) l rest []
| matches_AnyStar s rest : no_newline s = true -> matches AnyStar s rest []
| matches_AnyPlus s rest :
    s <> "" -> no_newline s = true -> matches AnyPlus s rest []
| matches_Alt_l a b s rest g : matches a s rest g -> matches (Alt a b) s rest g
| matches_Alt_r a b s rest g : matches b s rest g -> matches (Alt a b) s rest g
| matches_Seq a b s1 s2 rest g1 g2 :
    matches a s1 (s2 +:+ rest) g1 -> matches b s2 rest g2 ->
    matches (Seq a b) (s1 +:+ s2) rest (g1 ++ g2)
| matches_Group a s rest g :
    matches a s rest g -> matches (Group a) s rest (g ++ [s])
| matches_Eos rest : at_eos rest = true -> matches Eos "" rest [].

(** [pattern.match(s).groups()]: anchored at the start, no anchor at the
    end but the pattern's own [$]. *)
Definition re_match (r : re) (s : string) : option (list string) :=
  rmatch r s [] (fun _ caps => Some caps).

End Re.

Import Re.

(** [Arch = Enum('Arch', 'osx-64 linux-64 noarch')] *)
Inductive Arch : Type := osx_64 | linux_64 | noarch.

Definition Arch_name (a : Arch) : string :=
  match a with
  | osx_64 => "osx-64"
  | linux_64 => "linux-64"
  | noarch => "noarch"
  end.

Definition Arch_members : list Arch := [osx_64; linux_64; noarch].

(** ['|'.join(a.name for a in Arch)] as an alternation. *)
Fixpoint alternation (names : list string) : re :=
  match names with
  | [] => Lit ""
  | [n] => Lit n
  | n :: rest => Alt (Lit n) (alternation rest)
  end.

(** [r"(.*packages)/({})/(.+\.tar\.bz2)$"] *)
Definition PACKAGE_RE : re :=
  Seq (Group (Seq AnyStar (Lit "packages")))
 (Seq (Lit "/")
 (Seq (Group (alternation (map Arch_name Arch_members)))
 (Seq (Lit "/")
 (Seq (Group (Seq AnyPlus (Lit ".tar.bz2")))
      Eos)))).

(** [r".*images/(.+)(?::|%3A)(.+)\.tar\.gz$"] *)
Definition IMAGE_RE : re :=
  Seq AnyStar
 (Seq (Lit "images/")
 (Seq (Group AnyPlus)
 (Seq (Alt (Lit ":") (Lit "%3A"))
 (Seq (Group AnyPlus)
 (Seq (Lit ".tar.gz")
      Eos))))).

(** [PACKAGE_RE] after its first group. *)
Definition PACKAGE_RE_tail : re :=
  Seq (Lit "/")
 (Seq (Group (alternation (map Arch_name Arch_members)))
 (Seq (Lit "/")
 (Seq (Group (Seq AnyPlus (Lit ".tar.bz2")))
      Eos))).

(** Slashes in a text: whether there is none, how many there are, and
    the text before the first. *)
Fixpoint no_slash (s : string) : bool :=
  match s with
  | EmptyString => true
  | String c s' => negb (Ascii.eqb c "/"%char) && no_slash s'
  end.

Fixpoint count_slash (s : string) : nat :=
  match s with
  | EmptyString => 0
  | String c s' => (if Ascii.eqb c "/"%char then 1 else 0) + count_slash s'
  end.

Fixpoint upto_slash (s : string) : string :=
  match s with
  | EmptyString => EmptyString
  | String c s' =>
      if Ascii.eqb c "/"%char then EmptyString else String c (upto_slash s')
  end.

(** [repo_url, arch, fname = match.groups()] *)
Definition PACKAGE_RE_match (url : string) : option (string * string * string) :=
  match re_match PACKAGE_RE url with
  | Some [repo_url; arch; fname] => Some (repo_url, arch, fname)
  | _ => None
  end.

(** [name, tag = match.groups()] *)
Definition IMAGE_RE_match (url : string) : option (string * string) :=
  match re_match IMAGE_RE url with
  | Some [name; tag] => Some (name, tag)
  | _ => None
  end.


(* ===================================================================== *)
(** ** Effects: exceptions, early return, and the world outside *)
(* ===================================================================== *)

(** The instances of Python's [Exception] that the handlers meet.
    [Exception what] stands for whatever a collaborator (the GitHub
    client, the git handler, the download helper, ...) raises. *)
Inductive exn : Type :=
| Exception (what : string)
| RuntimeError (msg : string)
| NameError (name : string)
| UnboundLocalError (name : string)
| Retry (countdown max_retries : nat)
| MaxRetriesExceededError.

(** [UnboundLocalError] is a subclass of [NameError]. *)
Definition is_NameError (e : exn) : bool :=
  match e with
  | NameError _ | UnboundLocalError _ => true
  | _ => false
  end.

(** [CheckRunStatus] and [CheckRunConclusion] of the GitHub handler. *)
Inductive CheckRunStatus : Type := queued | in_progress | completed.
Inductive CheckRunConclusion : Type :=
  success | failure | neutral | cancelled | timed_out | action_required.

(** What a handler does to the outside, in the order it does it. *)
Inductive event : Type :=
| LogException (msg : string)
| LogError (msg : string)
| UpdateComment (comment_id : Z) (body : string)
| CreateComment (number : Z) (body : string)
| ModifyCheckRun (number : Z) (status : CheckRunStatus)
    (conclusion : option CheckRunConclusion) (output_title : string)
| MkTempDir (path : string)
| RmTempDir (path : string)
| OpenFd (path : string)
| CloseFd (path : string)
| AsyncFetch (urls : list string)
| SkopeoUpload (fpath ndref : string)
| AnacondaUpload (fpath : string)
| Sleep (seconds : nat)
| Reschedule (countdown : nat)
| MergePr (number : Z) (sha : option string) (message : option string)
| ResetBuildnumber (recipe : string) (build_number : Z)
| RecipeSave (recipe : string)
| CommitAndPush (recipes : list string) (msg : string).

(** The part of the process and of the services that the handlers read
    and change: the working directory, the clones that are still open,
    the scratch directories that still exist, how often each upload
    primitive has been called, and the events so far. *)
Record World : Type := mkWorld {
  cwd : string;
  clones : list string;
  scratch : list string;
  skopeo_calls : nat;
  anaconda_calls : nat;
  trace : list event
}.

Definition set_cwd (d : string) (w : World) : World :=
  mkWorld d (clones w) (scratch w) (skopeo_calls w) (anaconda_calls w) (trace w).
Definition set_clones (l : list string) (w : World) : World :=
  mkWorld (cwd w) l (scratch w) (skopeo_calls w) (anaconda_calls w) (trace w).
Definition set_scratch (l : list string) (w : World) : World :=
  mkWorld (cwd w) (clones w) l (skopeo_calls w) (anaconda_calls w) (trace w).
Definition set_skopeo_calls (n : nat) (w : World) : World :=
  mkWorld (cwd w) (clones w) (scratch w) n (anaconda_calls w) (trace w).
Definition set_anaconda_calls (n : nat) (w : World) : World :=
  mkWorld (cwd w) (clones w) (scratch w) (skopeo_calls w) n (trace w).
Definition set_trace (t : list event) (w : World) : World :=
  mkWorld (cwd w) (clones w) (scratch w) (skopeo_calls w) (anaconda_calls w) t.

(** How a block of statements ends: it runs to its end, it executes
    [return r], or it raises. *)
Inductive outcome (R A : Type) : Type :=
| Normal (a : A)
| Return (r : R)
| Raise (e : exn).
Arguments Normal {R A} a.
Arguments Return {R A} r.
Arguments Raise {R A} e.

Definition M (S R A : Type) : Type := S -> outcome R A * S.

Definition ret {S R A} (a : A) : M S R A := fun s => (Normal a, s).
Definition bind {S R A B} (m : M S R A) (f : A -> M S R B) : M S R B :=
  fun s =>
    match m s with
    | (Normal a, s') => f a s'
    | (Return r, s') => (Return r, s')
    | (Raise e, s') => (Raise e, s')
    end.
Definition return_ {S R A} (r : R) : M S R A := fun s => (Return r, s).
Definition raise {S R A} (e : exn) : M S R A := fun s => (Raise e, s).
Definition get_state {S R} : M S R S := fun s => (Normal s, s).
Definition update_state {S R} (f : S -> S) : M S R unit := fun s => (Normal tt, f s).

Declare Scope py_scope.
Delimit Scope py_scope with py.
Notation "x <- c ;; k" := (bind c (fun x => k))
  (at level 100, c at next level, right associativity) : py_scope.
Notation "c ;;; k" := (bind c (fun _ => k))
  (at level 100, right associativity) : py_scope.
Open Scope py_scope.

(** [try: body except Exception: handler] *)
Definition try_except {S R A} (body : M S R A) (handler : exn -> M S R A)
    : M S R A :=
  fun s =>
    match body s with
    | (Raise e, s') => handler e s'
    | other => other
    end.

(** [try: body finally: cleanup]: the cleanup runs however the body
    ends, and the body's outcome stands unless the cleanup itself
    returns or raises. *)
Definition try_finally {S R A} (body : M S R A) (cleanup : M S R unit)
    : M S R A :=
  fun s =>
    match body s with
    | (o, s') =>
        match cleanup s' with
        | (Normal _, s'') => (o, s'')
        | (Return r, s'') => (Return r, s'')
        | (Raise e, s'') => (Raise e, s'')
        end
    end.

(** Calling a function whose body is [body]: a [return r] inside ends
    the call with value [r]; running off the end gives [None]. *)
Definition call {S R' A} (body : M S (option A) unit) : M S R' (option A) :=
  fun s =>
    match body s with
    | (Normal _, s') => (Normal None, s')
    | (Return r, s') => (Normal r, s')
    | (Raise e, s') => (Raise e, s')
    end.

(** An outcome of a collaborator, raised when it is an exception. *)
Definition lift_result {S R A} (r : exn + A) : M S R A :=
  match r with
  | inl e => raise e
  | inr a => ret a
  end.

Definition emit {R} (e : event) : M World R unit :=
  update_state (fun w => set_trace (trace w ++ [e]) w).

(** Python's [str.join]. *)
Fixpoint join (sep : string) (l : list string) : string :=
  match l with
  | [] => ""
  | [x] => x
  | x :: rest => x +:+ sep +:+ join sep rest
  end.

(* ===================================================================== *)
(** ** [class Checkout] *)
(* ===================================================================== *)

(** The fields of the pull request JSON that the handlers read:
    [pr['head']['ref']], [pr['head']['sha']],
    [pr['head']['user']['login']], [pr['head']['repo']['name']],
    [pr['head']['repo']['owner']['login']] and [pr['user']['login']]. *)
Record PullRequest : Type := mkPullRequest {
  head_ref : string;
  head_sha : string;
  head_user_login : string;
  head_repo_name : string;
  head_repo_owner_login : string;
  user_login : string
}.

(** A [TempBiocondaRepo]: the directory of the clone, and how the
    object prints. *)
Record TempBiocondaRepo : Type := mkRepo {
  tempdir : string;
  repo_repr : string
}.

(** The local branch that [create_local_branch] hands back. *)
Inductive Branch : Type := LocalBranch (name : string).

(** What the collaborators of [Checkout] answer: each call either
    raises or gives its value.  [os.getcwd] gives the working directory
    of the world unless it raises. *)
Record CheckoutEnv : Type := mkCheckoutEnv {
  ghapi_repr : string;
  get_prs : Z -> exn + PullRequest;
  new_TempBiocondaRepo : option string -> option string -> exn + TempBiocondaRepo;
  set_user : TempBiocondaRepo -> exn + unit;
  getcwd_raises : option exn;
  chdir_raises : string -> option exn;
  create_local_branch :
    TempBiocondaRepo -> string -> option string -> exn + option Branch;
  branch_checkout : Branch -> exn + unit
}.

(** The object's attributes; [__init__] sets [orig_cwd] and [git] to
    [None]. *)
Record Checkout : Type := mkCheckout {
  orig_cwd : option string;
  git : option TempBiocondaRepo;
  ref : option string;
  issue_number : option Z
}.

Definition Checkout_init (ref : option string) (issue_number : option Z)
    : Checkout :=
  mkCheckout None None ref issue_number.

(** Truth values of [self.issue_number] (an int or [None]) and of
    [self.orig_cwd] (a str or [None]). *)
Definition truthy_int (o : option Z) : bool :=
  match o with
  | Some n => negb (n =? 0)%Z
  | None => false
  end.

Definition truthy_str (o : option string) : bool :=
  match o with
  | Some s => negb (String.eqb s "")
  | None => false
  end.

(** [str(x)] of a str or [None] inside an f-string. *)
Definition str_opt (o : option string) : string :=
  match o with
  | Some s => s
  | None => "None"
  end.

Section CheckoutMethods.
Context {R : Type}.
Variable env : CheckoutEnv.

Definition liftW {A} (m : M World R A) : M (Checkout * World) R A :=
  fun s =>
    match m (snd s) with
    | (o, w') => (o, (fst s, w'))
    end.

Definition get_self : M (Checkout * World) R Checkout :=
  fun s => (Normal (fst s), s).

Definition set_git (g : option TempBiocondaRepo) : M (Checkout * World) R unit :=
  update_state (fun s =>
    (mkCheckout (orig_cwd (fst s)) g (ref (fst s)) (issue_number (fst s)), snd s)).

Definition set_orig_cwd (d : option string) : M (Checkout * World) R unit :=
  update_state (fun s =>
    (mkCheckout d (git (fst s)) (ref (fst s)) (issue_number (fst s)), snd s)).

(** [TempBiocondaRepo(...)]: a clone that exists until it is closed. *)
Definition TempBiocondaRepo_create (fork_user fork_repo : option string)
    : M World R TempBiocondaRepo :=
  g <- lift_result (new_TempBiocondaRepo env fork_user fork_repo);;
  update_state (fun w => set_clones (tempdir g :: clones w) w);;;
  ret g.

(** [git.close()] deletes the clone. *)
Definition git_close (g : TempBiocondaRepo) : M World R unit :=
  update_state (fun w =>
    set_clones (List.filter (fun d => negb (String.eqb d (tempdir g))) (clones w)) w).

Definition os_getcwd : M World R string :=
  match getcwd_raises env with
  | Some e => raise e
  | None => w <- get_state;; ret (cwd w)
  end.

Definition os_chdir (d : string) : M World R unit :=
  match chdir_raises env d with
  | Some e => raise e
  | None => update_state (set_cwd d)
  end.

End CheckoutMethods.

(** The [try] block of [__aenter__]. *)
Definition aenter_try (env : CheckoutEnv)
    : M (Checkout * World) (option TempBiocondaRepo) unit :=
  self <- get_self;;
  x <- (if truthy_int (issue_number self) then
          prs <- lift_result (get_prs env (default 0%Z (issue_number self)));;
          ret (Some (head_user_login prs), Some (head_repo_name prs),
               head_ref prs, None)
        else
          ret (None, None, "unknown", ref self));;
  let '(fork_user, fork_repo, branch_name, ref) := x in
  g <- liftW (TempBiocondaRepo_create env fork_user fork_repo);;
  set_git (Some g);;;
  lift_result (set_user env g);;;
  d <- liftW (os_getcwd env);;
  set_orig_cwd (Some d);;;
  liftW (os_chdir env (tempdir g));;;
  branch <- lift_result (create_local_branch env g branch_name ref);;
  match branch with
  | None =>
      raise (RuntimeError ("Failed to find " +:+ branch_name +:+ ":"
                           +:+ str_opt ref +:+ " in " +:+ repo_repr g))
  | Some b =>
      lift_result (branch_checkout env b);;;
      self' <- get_self;;
      return_ (git self')
  end.

(** [Checkout.__aenter__] *)
Definition aenter {R} (env : CheckoutEnv)
    : M (Checkout * World) R (option TempBiocondaRepo) :=
  call (try_except (aenter_try env)
         (fun _ =>
            liftW (emit (LogException
                     ("Error while checking out with " +:+ ghapi_repr env)));;;
            return_ None)).

(** [Checkout.__aexit__] *)
Definition aexit {R} (env : CheckoutEnv) : M (Checkout * World) R unit :=
  self <- get_self;;
  (if truthy_str (orig_cwd self)
   then liftW (os_chdir env (default "" (orig_cwd self)))
   else ret tt);;;
  match git self with
  | Some g => liftW (git_close g)
  | None => ret tt
  end.

(** [async with Checkout(ghapi, ref, issue_number) as git: body].  When
    [__aenter__] raises, [__aexit__] is not called; otherwise it is
    called however the body ends, and as it returns [None] an exception
    of the body is raised again after it. *)
Definition async_with_Checkout {R A} (env : CheckoutEnv) (self0 : Checkout)
    (body : option TempBiocondaRepo -> M World R A) : M World R A :=
  fun w =>
    match aenter env (self0, w) with
    | (Normal v, (self, w1)) =>
        match body v w1 with
        | (o, w2) =>
            match aexit env (self, w2) with
            | (Normal _, (_, w3)) => (o, w3)
            | (Return r, (_, w3)) => (Return r, w3)
            | (Raise e, (_, w3)) => (Raise e, w3)
            end
        end
    | (Return r, (_, w1)) => (Return r, w1)
    | (Raise e, (_, w1)) => (Raise e, w1)
    end.

(* ===================================================================== *)
(** ** [bump] *)
(* ===================================================================== *)

(** The names bound at the top level of [tasks.py]: its imports, its
    constants, its class and its task functions. *)
Definition module_globals : list string :=
  [ "logging"; "os"; "sys"; "time"; "types"; "namedtuple"; "Enum"; "Tuple";
    "Set"; "tempfile"; "re"; "asyncio"; "celery"; "BOT_NAME"; "BOT_EMAIL";
    "CIRCLE_TOKEN"; "QUAY_LOGIN"; "ANACONDA_TOKEN"; "utils"; "Recipe";
    "TempBiocondaRepo"; "CheckRunStatus"; "CheckRunConclusion";
    "AsyncCircleAPI"; "anaconda_upload"; "skopeo_upload";
    "MaxRetriesExceededError"; "logger"; "PRInfo"; "Image"; "Package";
    "Arch"; "PACKAGE_RE"; "IMAGE_RE"; "Checkout"; "get_latest_pr_commit";
    "create_check_run"; "bump"; "lint_check"; "check_circle_artifacts";
    "trigger_circle_rebuild"; "merge_pr"; "post_result" ].

(** The functions and types of Python's [builtins] module. *)
Definition builtins : list string :=
  [ "abs"; "all"; "any"; "ascii"; "bin"; "bool"; "breakpoint"; "bytearray";
    "bytes"; "callable"; "chr"; "classmethod"; "compile"; "complex";
    "delattr"; "dict"; "dir"; "divmod"; "enumerate"; "eval"; "exec";
    "filter"; "float"; "format"; "frozenset"; "getattr"; "globals";
    "hasattr"; "hash"; "help"; "hex"; "id"; "input"; "int"; "isinstance";
    "issubclass"; "iter"; "len"; "list"; "locals"; "map"; "max";
    "memoryview"; "min"; "next"; "object"; "oct"; "open"; "ord"; "pow";
    "print"; "property"; "range"; "repr"; "reversed"; "round"; "set";
    "setattr"; "slice"; "sorted"; "staticmethod"; "str"; "sum"; "super";
    "tuple"; "type"; "vars"; "zip" ].

(** Reading a local variable of the running function: a slot that no
    assignment has filled yet raises [UnboundLocalError]. *)
Definition load_fast {S R A} (name : string) (slot : option A) : M S R A :=
  match slot with
  | Some v => ret v
  | None => raise (UnboundLocalError name)
  end.

(** Reading a name that the function never assigns: the module's
    globals, then the builtins, else [NameError].  The value read is
    only ever formatted, so it is given as text. *)
Definition load_global {S R} (name : string) : M S R string :=
  if existsb (String.eqb name) module_globals
     || existsb (String.eqb name) builtins
  then ret ("<" +:+ name +:+ ">")
  else raise (NameError name).

(** A [Recipe]: how it prints, and its build number. *)
Record Recipe : Type := mkRecipe {
  recipe_str : string;
  build_number : Z
}.

(** What the git handler and the recipe loader answer to [bump]. *)
Record BumpEnv : Type := mkBumpEnv {
  get_changed_recipes : TempBiocondaRepo -> exn + list string;
  Recipe_from_file : string -> string -> exn + Recipe;
  commit_and_push_changes : list string -> string -> bool
}.

(** [for meta_fn in recipes: ...]; the argument [recipe] is the local
    variable of that name, which the loop assigns. *)
Fixpoint bump_for {R} (benv : BumpEnv) (recipes : list string)
    (recipe : option Recipe) : M World R (option Recipe) :=
  match recipes with
  | [] => ret recipe
  | meta_fn :: rest =>
      r <- lift_result (Recipe_from_file benv "recipes" meta_fn);;
      emit (ResetBuildnumber (recipe_str r) (build_number r + 1));;;
      emit (RecipeSave (recipe_str r));;;
      bump_for benv rest (Some r)
  end.

(** The block under [async with Checkout(...) as git]. *)
Definition bump_body (benv : BumpEnv) (git : option TempBiocondaRepo)
    : M World unit unit :=
  match git with
  | None => emit (LogError "Failed to checkout");;; return_ tt
  | Some g =>
      recipes <- lift_result (get_changed_recipes benv g);;
      recipe <- bump_for benv recipes None;;
      r <- load_fast "recipe" recipe;;
      buildno <- load_global "buildno";;
      let msg := "Bump " +:+ recipe_str r +:+ " buildno to " +:+ buildno in
      emit (CommitAndPush recipes msg);;;
      if commit_and_push_changes benv recipes msg then ret tt
      else emit (LogError "Failed to push?!")
  end.

Definition bump (cenv : CheckoutEnv) (benv : BumpEnv) (issue_number : Z)
    : M World unit unit :=
  async_with_Checkout cenv (Checkout_init None (Some issue_number))
    (bump_body benv).

Definition is_CommitAndPush (e : event) : bool :=
  match e with
  | CommitAndPush _ _ => true
  | _ => false
  end.

Definition no_commit (evs : list event) : bool :=
  forallb (fun e => negb (is_CommitAndPush e)) evs.

(* ===================================================================== *)
(** ** [lint_check], up to the call of the linter *)
(* ===================================================================== *)

(** What the GitHub client and the git handler answer to [lint_check]. *)
Record LintEnv : Type := mkLintEnv {
  l_ghapi_user : string;
  l_ghapi_repo : string;
  get_recipes_to_build : TempBiocondaRepo -> exn + list string
}.

(** [ref_label = ref[:8] if len(ref) >= 40 else ref] *)
Definition ref_label (ref : string) : string :=
  if Nat.leb 40 (String.length ref) then take 8 ref else ref.

Section LintCheck.
Variable lenv : LintEnv.

(** The linter's table [df], the part of the block from
    [utils.load_config] to its end, which binds [df], and the part of
    the handler after the block, which reports on [recipes] and [df]. *)
Variable Report : Type.
Variable run_linter : list string -> M World unit Report.
Variable report : list string -> Report -> M World unit unit.

(** The block under [async with Checkout(ghapi, ref=ref) as git]; its
    value is [(recipes, df)]. *)
Definition lint_check_body (check_run_number : Z) (ref : string)
    (git : option TempBiocondaRepo) : M World unit (list string * Report) :=
  match git with
  | None =>
      emit (ModifyCheckRun check_run_number completed (Some cancelled)
              ("Failed to check out " +:+ l_ghapi_user lenv +:+ "/"
               +:+ l_ghapi_repo lenv +:+ ":" +:+ ref_label ref));;;
      return_ tt
  | Some g =>
      recipes <- lift_result (get_recipes_to_build lenv g);;
      match recipes with
      | [] =>
          emit (ModifyCheckRun check_run_number completed (Some neutral)
                  "No recipes modified");;;
          return_ tt
      | _ :: _ =>
          df <- run_linter recipes;;
          ret (recipes, df)
      end
  end.

Definition lint_check (cenv : CheckoutEnv) (check_run_number : Z)
    (ref : string) : M World unit unit :=
  emit (ModifyCheckRun check_run_number in_progress None "");;;
  linted <- async_with_Checkout cenv (Checkout_init (Some ref) None)
              (lint_check_body check_run_number ref);;
  report (fst linted) (snd linted).

End LintCheck.

(* ===================================================================== *)
(** ** [check_circle_artifacts] *)
(* ===================================================================== *)

(** [Image = namedtuple('Image', "url name tag")] *)
Record Image : Type := mkImage {
  img_url : string;
  img_name : string;
  img_tag : string
}.

(** [Package = namedtuple('Package', "arch fname url repodata_md")] *)
Record Package : Type := mkPackage {
  pkg_arch : string;
  pkg_fname : string;
  pkg_url : string;
  repodata_md : string
}.

(** One entry of [capi.get_artifacts]: [(path, url, buildno)]. *)
Definition artifact : Type := string * string * Z.

Definition artifact_url (a : artifact) : string := snd (fst a).

(** The line feed, as a string. *)
Definition nl : string := String "010"%char "".

(** [branch = head_ref if head_user == ghapi.user else "pull/{}"] *)
Definition circle_branch (ghapi_user : string) (pr : PullRequest)
    (pr_number : Z) : string :=
  if String.eqb (head_repo_owner_login pr) ghapi_user then head_ref pr
  else "pull/" +:+ pretty pr_number.

(** The three accumulators of the loop: [packages], [images], [repos]. *)
Definition classified : Type :=
  (list Package * list Image * gmap string (gset string))%type.

(** The body of [for path, url, buildno in artifacts]. *)
Definition classify_step (artifact_urls : gset string) (acc : classified)
    (a : artifact) : classified :=
  let '(packages, images, repos) := acc in
  let '(path, url, buildno) := a in
  match PACKAGE_RE_match url with
  | Some (repo_url, arch, fname) =>
      let repodata_url := join "/" [repo_url; arch; "repodata.json"] in
      if bool_decide (repodata_url ∈ artifact_urls) then
        (packages ++ [mkPackage arch fname url
                        ("[repodata.json](" +:+ repodata_url +:+ ")")],
         images,
         <[repo_url := default ∅ (repos !! repo_url) ∪ {[arch]}]> repos)
      else
        (packages ++ [mkPackage arch fname url ""], images, repos)
  | None =>
      match IMAGE_RE_match url with
      | Some (name, tag) => (packages, images ++ [mkImage url name tag], repos)
      | None => acc
      end
  end.

(** [artifact_urls = set(a[1] for a in artifacts)], then the loop. *)
Definition classify_artifacts (artifacts : list artifact) : classified :=
  let artifact_urls : gset string := list_to_set (map artifact_url artifacts) in
  fold_left (classify_step artifact_urls) artifacts ([], [], ∅).

(** The same loop, seen one artifact at a time: the package, the image
    and the change to [repos] that an artifact contributes. *)
Definition package_of (artifact_urls : gset string) (a : artifact)
    : option Package :=
  match PACKAGE_RE_match (artifact_url a) with
  | Some (repo_url, arch, fname) =>
      let repodata_url := join "/" [repo_url; arch; "repodata.json"] in
      Some (mkPackage arch fname (artifact_url a)
              (if bool_decide (repodata_url ∈ artifact_urls)
               then "[repodata.json](" +:+ repodata_url +:+ ")" else ""))
  | None => None
  end.

Definition image_of (a : artifact) : option Image :=
  match PACKAGE_RE_match (artifact_url a) with
  | Some _ => None
  | None =>
      match IMAGE_RE_match (artifact_url a) with
      | Some (name, tag) => Some (mkImage (artifact_url a) name tag)
      | None => None
      end
  end.

Definition repos_step (artifact_urls : gset string)
    (repos : gmap string (gset string)) (a : artifact)
    : gmap string (gset string) :=
  match PACKAGE_RE_match (artifact_url a) with
  | Some (repo_url, arch, fname) =>
      if bool_decide (join "/" [repo_url; arch; "repodata.json"] ∈ artifact_urls)
      then <[repo_url := default ∅ (repos !! repo_url) ∪ {[arch]}]> repos
      else repos
  | None => repos
  end.

(** [msg_head, _, _ = msg.partition("\n")] *)
Fixpoint first_line (msg : string) : string :=
  match msg with
  | EmptyString => EmptyString
  | String c rest => if is_newline c then EmptyString else String c (first_line rest)
  end.

(** What the collaborators answer to [check_circle_artifacts]; [render]
    is the [artifacts.md] template. *)
Record ArtifactsEnv : Type := mkArtifactsEnv {
  a_ghapi_user : string;
  a_get_prs : Z -> PullRequest;
  a_get_artifacts : string -> string -> list artifact;
  render : list Package -> gmap string (gset string) -> list Image -> string;
  iter_comments : Z -> list (Z * string)
}.

(** [async for comment in ...: if startswith: update; break / else: create] *)
Fixpoint post_comment {R} (comments : list (Z * string)) (pr_number : Z)
    (msg : string) : M World R unit :=
  match comments with
  | [] => emit (CreateComment pr_number msg)
  | (id, body) :: rest =>
      if String.prefix (first_line msg) body then emit (UpdateComment id msg)
      else post_comment rest pr_number msg
  end.

Definition check_circle_artifacts (env : ArtifactsEnv) (pr_number : Z)
    : M World unit unit :=
  let pr := a_get_prs env pr_number in
  let branch := circle_branch (a_ghapi_user env) pr pr_number in
  let artifacts := a_get_artifacts env branch (head_sha pr) in
  let '(packages, images, repos) := classify_artifacts artifacts in
  let msg := render env packages repos images in
  post_comment (iter_comments env pr_number) pr_number msg.

(* ===================================================================== *)
(** ** [merge_pr] *)
(* ===================================================================== *)

(** The bound task [self]: [self.request.retries] counts the retries
    that led to this execution, [0] for the first one. *)
Record Task : Type := mkTask {
  request_retries : nat
}.

(** Celery's [Task.retry(countdown, max_retries)]: it raises
    [MaxRetriesExceededError] once the retry it is asked for would be
    one more than [max_retries], and otherwise raises [Retry], on which
    the worker sends the task again after [countdown] seconds. *)
Definition retry (self : Task) (countdown max_retries : nat) : exn :=
  if Nat.ltb max_retries (request_retries self + 1) then MaxRetriesExceededError
  else Retry countdown max_retries.

(** [commit['author']], when it is not null. *)
Record Author : Type := mkAuthor {
  login : option string
}.

(** One entry of [ghapi.iter_pr_commits]: [commit['sha']],
    [commit['author']], [commit['commit']['author']['name']] and
    [commit['commit']['author']['email']]. *)
Record Commit : Type := mkCommit {
  sha : string;
  author : option Author;
  commit_author_name : string;
  commit_author_email : string
}.

(** What the collaborators and the runtime answer during one execution
    of [merge_pr].  [tmpdir] is the name that
    [tempfile.TemporaryDirectory] picks; [open_raises] tells what
    [os.makedirs] of a file's directory or [open(fpath, "wb")] raises,
    if anything, in the file system as it is when the loop of the
    download reaches that file; [async_fetch] tells whether the
    download returns or
    raises; the upload primitives answer by the number of calls made
    before; [list_of_set] is the order in which Python iterates over a
    set of strings in this process (it changes with the hash seed), an
    enumeration of the set. *)
Record MergeEnv : Type := mkMergeEnv {
  m_ghapi_user : string;
  m_get_prs : Z -> PullRequest;
  check_protections : Z -> string -> option bool * string;
  m_get_artifacts : string -> string -> list artifact;
  tmpdir : string;
  open_raises : string -> option exn;
  async_fetch : list string -> option exn;
  skopeo_upload : nat -> string -> string -> bool;
  anaconda_upload : nat -> string -> bool;
  iter_pr_commits : Z -> list Commit;
  ghapi_merge_pr : Z -> option string -> option string -> bool * string;
  list_of_set : gset string -> list string;
  list_of_set_perm : forall s, list_of_set s ≡ₚ elements s
}.

(** [os.path.join(a, b)] on POSIX. *)
Definition ends_with_slash (s : string) : bool :=
  match String.get (String.length s - 1) s with
  | Some c => Ascii.eqb c "/"%char
  | None => false
  end.

Definition os_path_join (a b : string) : string :=
  match b with
  | String "/"%char _ => b
  | _ =>
      if String.eqb a "" || ends_with_slash a then a +:+ b
      else a +:+ "/" +:+ b
  end.

(** The three lists that the first loop of [merge_pr] fills: [files],
    [images], [packages]. *)
Definition to_upload : Type :=
  (list (string * string) * list (string * string) * list string)%type.

Definition collect_step (acc : to_upload) (a : artifact) : to_upload :=
  let '(files, images, packages) := acc in
  let '(path, url, buildno) := a in
  match PACKAGE_RE_match url with
  | Some (repo_url, arch, fname) =>
      let fpath := os_path_join arch fname in
      (files ++ [(url, fpath)], images, packages ++ [fpath])
  | None =>
      match IMAGE_RE_match url with
      | Some (name, tag) =>
          let fname := name +:+ "__" +:+ tag +:+ ".tar.gz" in
          (files ++ [(url, fname)],
           images ++ [(fname, name +:+ ":" +:+ tag)],
           packages)
      | None => acc
      end
  end.

Definition collect (artifacts : list artifact) : to_upload :=
  fold_left collect_step artifacts ([], [], []).

Section MergeSteps.
Variable env : MergeEnv.
Local Abbreviation R := (bool * string)%type.

(** [with tempfile.TemporaryDirectory() as tmpdir: body]: the
    directory is removed however the body ends. *)
Definition with_TemporaryDirectory {A} (body : string -> M World R A)
    : M World R A :=
  let d := tmpdir env in
  emit (MkTempDir d);;;
  update_state (fun w => set_scratch (d :: scratch w) w);;;
  try_finally (body d)
    (update_state (fun w =>
       set_scratch (List.filter (fun x => negb (String.eqb x d)) (scratch w)) w);;;
     emit (RmTempDir d)).

(** The download keeps the files it has opened in the local variable
    [fds], which its [finally] clause reads: a statement of the download
    runs on [fds] and the world. *)
Definition with_fds {A} (m : M World R A) : M (list string * World) R A :=
  fun s =>
    match m (snd s) with
    | (o, w') => (o, (fst s, w'))
    end.

Definition set_fds (fds : list string) : M (list string * World) R unit :=
  update_state (fun s => (fds, snd s)).

(** [for url, path in files: ... fds.append(open(fpath, "wb"))]; what
    [os.makedirs] or [open] raises ends the loop with the files opened
    so far in [fds].  The directories that [os.makedirs] adds inside
    the scratch directory are not recorded. *)
Fixpoint open_all (d : string) (files : list (string * string))
    : M (list string * World) R unit :=
  match files with
  | [] => ret tt
  | (url, path) :: rest =>
      let fpath := os_path_join d path in
      match open_raises env fpath with
      | Some e => raise e
      | None =>
          with_fds (emit (OpenFd fpath));;;
          s <- get_state;;
          set_fds (fst s ++ [fpath]);;;
          open_all d rest
      end
  end.

(** [for fd in fds: fd.close()] *)
Fixpoint close_each (fds : list string) : M World R unit :=
  match fds with
  | [] => ret tt
  | fd :: rest => emit (CloseFd fd);;; close_each rest
  end.

Definition close_all : M (list string * World) R unit :=
  s <- get_state;;
  with_fds (close_each (fst s)).

(** The [try ... finally] around the download; its value is [done]. *)
Definition download (d : string) (files : list (string * string))
    : M World R bool :=
  fun w =>
    match
      try_finally
        (set_fds [];;;
         open_all d files;;;
         with_fds (emit (AsyncFetch (map fst files)));;;
         match async_fetch env (map fst files) with
         | Some e => raise e
         | None => with_fds (emit (LogError "Done downloading"));;; ret true
         end)
        close_all ([], w)
    with
    | (o, (_, w')) => (o, w')
    end.

Definition call_skopeo_upload (fpath ndref : string) : M World R bool :=
  w <- get_state;;
  emit (SkopeoUpload fpath ndref);;;
  update_state (set_skopeo_calls (S (skopeo_calls w)));;;
  ret (skopeo_upload env (skopeo_calls w) fpath ndref).

Definition call_anaconda_upload (fpath : string) : M World R bool :=
  w <- get_state;;
  emit (AnacondaUpload fpath);;;
  update_state (set_anaconda_calls (S (anaconda_calls w)));;;
  ret (anaconda_upload env (anaconda_calls w) fpath).

(** [for _ in range(n): if upload(): break; sleep(5)], with the value
    [true] when the loop was left by [break] and [false] when it ran
    out, which is when its [else] clause runs. *)
Fixpoint for_range (n : nat) (upload : M World R bool) : M World R bool :=
  match n with
  | 0 => ret false
  | S n' =>
      ok <- upload;;
      if ok then ret true
      else emit (Sleep 5);;; for_range n' upload
  end.

(** [### Upload Images]; the state is [(uploaded, comment)]. *)
Fixpoint upload_images (d : string) (comment_id : Z)
    (images : list (string * string)) (st : list string * string)
    : M World R (list string * string) :=
  match images with
  | [] => ret st
  | (fname, dref) :: rest =>
      let fpath := os_path_join d fname in
      let ndref := "biocontainers/" +:+ dref in
      broke <- for_range 5 (call_skopeo_upload fpath ndref);;
      if broke then
        let uploaded := fst st ++ [ndref] in
        let comment := snd st +:+ "- [x] Uploaded image " +:+ ndref +:+ nl in
        emit (UpdateComment comment_id comment);;;
        upload_images d comment_id rest (uploaded, comment)
      else return_ (false, "Failed to upload image to Quay.io")
  end.

(** [### Upload Packages] *)
Fixpoint upload_packages (d : string) (comment_id : Z)
    (packages : list string) (st : list string * string)
    : M World R (list string * string) :=
  match packages with
  | [] => ret st
  | fname :: rest =>
      let fpath := os_path_join d fname in
      broke <- for_range 5 (call_anaconda_upload fpath);;
      if broke then
        let uploaded := fst st ++ [fname] in
        let comment := snd st +:+ "- [x] Uploaded package " +:+ fname +:+ nl in
        emit (UpdateComment comment_id comment);;;
        upload_packages d comment_id rest (uploaded, comment)
      else
        emit (LogError "Anaconda upload failed, giving up.");;;
        return_ (false, "Failed to upload package to Anaconda")
  end.

End MergeSteps.

(** [author_login = (commit['author'] or {}).get('login')] *)
Definition author_login (c : Commit) : option string :=
  match author c with
  | Some a => login a
  | None => None
  end.

(** The three variables of the commit loop: [last_sha], [coauthors],
    [coauthor_logins]. *)
Definition authors : Type := (option string * gset string * gset string)%type.

(** The body of [async for commit in ghapi.iter_pr_commits(pr_number)]. *)
Definition collect_author (pr_author : string) (acc : authors) (commit : Commit)
    : authors :=
  let '(_, coauthors, coauthor_logins) := acc in
  let last_sha := Some (sha commit) in
  if bool_decide (author_login commit ≠ Some pr_author) then
    let name := commit_author_name commit in
    let email := commit_author_email commit in
    let coauthors' :=
      coauthors ∪ {[ "Co-authored-by: " +:+ name +:+ " <" +:+ email +:+ ">" ]} in
    if truthy_str (author_login commit) then
      (last_sha, coauthors',
       coauthor_logins ∪ {[ "@" +:+ default "" (author_login commit) ]})
    else
      (last_sha, coauthors', coauthor_logins ∪ {[ name ]})
  else (last_sha, coauthors, coauthor_logins).

Definition collect_authors (pr_author : string) (commits : list Commit)
    : authors :=
  fold_left (collect_author pr_author) commits (None, ∅, ∅).

(** The first lines of the progress comment. *)
Definition comment_started : string :=
  "Upload & Merge started. Reload page to view progress." +:+ nl
  +:+ "- [x] Checks OK" +:+ nl.

Definition comment_fetching (comment : string) (packages : list string)
    (images : list (string * string)) : string :=
  comment +:+ "- [x] Fetching " +:+ pretty (length packages)
  +:+ " packages and " +:+ pretty (length images) +:+ " images" +:+ nl.

(** The [with tempfile.TemporaryDirectory() as tmpdir] block, up to the
    uploads; its value is [(uploaded, comment)]. *)
Definition upload_block (env : MergeEnv) (comment_id : Z)
    (files : list (string * string)) (images : list (string * string))
    (packages : list string) (comment : string)
    : M World (bool * string) (list string * string) :=
  with_TemporaryDirectory env (fun d =>
    done <- download env d files;;
    if negb done then
      return_ (false, "Failed to download archives. Please try again later")
    else
      st <- upload_images env d comment_id images ([], comment);;
      upload_packages env d comment_id packages st).

(** From [lines.append("")] to the end.  Where the source iterates over
    a Python [set], the order is the one of this process,
    [list_of_set]. *)
Definition finish_merge (env : MergeEnv) (pr : PullRequest)
    (pr_number comment_id : Z) (st : list string * string)
    : M World (bool * string) unit :=
  let '(uploaded, comment) := st in
  let lines := [""; "Package uploads complete: [ci skip]"]
               ++ map (fun pkg => " - " +:+ pkg) uploaded ++ [""] in
  let pr_author := user_login pr in
  let '(last_sha, coauthors, coauthor_logins) :=
    collect_authors pr_author (iter_pr_commits env pr_number) in
  let lines := lines ++ list_of_set env coauthors in
  let comment := comment +:+ "- Creating squash merge" in
  let comment :=
    if bool_decide (coauthors ≠ ∅) then
      comment +:+ " (with co-authors "
      +:+ join ", " (list_of_set env coauthor_logins) +:+ ")"
    else comment in
  let comment := comment +:+ nl in
  emit (UpdateComment comment_id comment);;;
  let message :=
    match lines with
    | [] => None
    | _ => Some (join nl lines)
    end in
  emit (MergePr pr_number last_sha message);;;
  return_ (ghapi_merge_pr env pr_number last_sha message).

(** The handler. *)
Definition merge_pr (self : Task) (env : MergeEnv) (pr_number comment_id : Z)
    : M World (bool * string) unit :=
  let pr := m_get_prs env pr_number in
  let '(state, message) := check_protections env pr_number (head_sha pr) in
  match state with
  | None =>
      match retry self 20 15 with
      | MaxRetriesExceededError =>
          return_ (false, "PR cannot be merged at this time. Please try again later")
      | e => raise e
      end
  | Some false => return_ (false, message)
  | Some true =>
      let comment := comment_started in
      emit (UpdateComment comment_id comment);;;
      let branch := circle_branch (m_ghapi_user env) pr pr_number in
      let artifacts := m_get_artifacts env branch (head_sha pr) in
      let '(files, images, packages) := collect artifacts in
      match files with
      | [] => return_ (false, "PR did not build any packages.")
      | _ :: _ =>
          let comment := comment_fetching comment packages images in
          emit (UpdateComment comment_id comment);;;
          st <- upload_block env comment_id files images packages comment;;
          finish_merge env pr pr_number comment_id st
      end
  end.

(** The worker around the task: on [Retry] it sends the task again
    after the countdown, with one more retry on its request; any other
    outcome ends the delivery.  [envs k] is what the collaborators
    answer during the execution that follows [k] retries. *)
Fixpoint deliver (fuel : nat) (retries : nat) (envs : nat -> MergeEnv)
    (pr_number comment_id : Z) (w : World)
    : option (outcome (bool * string) unit * World) :=
  match fuel with
  | 0 => None
  | S fuel' =>
      match merge_pr (mkTask retries) (envs retries) pr_number comment_id w with
      | (Raise (Retry countdown _), w') =>
          deliver fuel' (S retries) envs pr_number comment_id
            (set_trace (trace w' ++ [Reschedule countdown]) w')
      | other => Some other
      end
  end.

(* ===================================================================== *)
(** ** Notions used in the statements *)
(* ===================================================================== *)

(** The protection check of an execution gives no verdict yet. *)
Definition indeterminate (env : MergeEnv) (pr_number : Z) : Prop :=
  fst (check_protections env pr_number (head_sha (m_get_prs env pr_number)))
  = None.

Definition cannot_merge_yet : string :=
  "PR cannot be merged at this time. Please try again later".

(** The events of [n] failed attempts, each followed by its pause. *)
Definition failed_attempts (upload : event) (n : nat) : list event :=
  concat (repeat [upload; Sleep 5] n).

(** The artifact list that an execution of [merge_pr] gets from CircleCI,
    and the verdict it gets from the protection check. *)
Definition merge_artifacts (env : MergeEnv) (pr_number : Z) : list artifact :=
  let pr := m_get_prs env pr_number in
  m_get_artifacts env (circle_branch (m_ghapi_user env) pr pr_number) (head_sha pr).

Definition merge_verdict (env : MergeEnv) (pr_number : Z) : option bool * string :=
  check_protections env pr_number (head_sha (m_get_prs env pr_number)).

(** The commit loop, seen one commit at a time: whether a commit counts
    as a co-author's, the line it adds to [coauthors] and the name it
    adds to [coauthor_logins]. *)
Definition is_coauthor (pr_author : string) (c : Commit) : bool :=
  bool_decide (author_login c ≠ Some pr_author).

Definition coauthor_line (c : Commit) : string :=
  "Co-authored-by: " +:+ commit_author_name c +:+ " <"
  +:+ commit_author_email c +:+ ">".

Definition coauthor_mention (c : Commit) : string :=
  if truthy_str (author_login c) then "@" +:+ default "" (author_login c)
  else commit_author_name c.

Definition coauthors_of (pr_author : string) (commits : list Commit)
    : gset string :=
  (collect_authors pr_author commits).1.2.

Definition coauthor_logins_of (pr_author : string) (commits : list Commit)
    : gset string :=
  (collect_authors pr_author commits).2.

(** Events that move an artifact: opening a scratch directory or a file
    in it, the download, and the two uploads. *)
Definition is_transfer (e : event) : bool :=
  match e with
  | MkTempDir _ | OpenFd _ | AsyncFetch _ | SkopeoUpload _ _
  | AnacondaUpload _ => true
  | _ => false
  end.

(** A computation that leaves the scratch directories as they are. *)
Definition keeps_scratch {R A} (m : M World R A) : Prop :=
  forall w, scratch (snd (m w)) = scratch w.

(** A computation that always runs to its end. *)
Definition always_Normal {R A} (m : M World R A) : Prop :=
  forall w, exists a w', m w = (Normal a, w').

Definition download_failed : bool * string :=
  (false, "Failed to download archives. Please try again later").

(** The files that the loop of the download opens before it ends, and
    the exception that ends it, if one does. *)
Fixpoint opened (env : MergeEnv) (d : string) (files : list (string * string))
    : list string :=
  match files with
  | [] => []
  | (url, path) :: rest =>
      match open_raises env (os_path_join d path) with
      | Some _ => []
      | None => os_path_join d path :: opened env d rest
      end
  end.

Fixpoint open_error (env : MergeEnv) (d : string)
    (files : list (string * string)) : option exn :=
  match files with
  | [] => None
  | (url, path) :: rest =>
      match open_raises env (os_path_join d path) with
      | Some e => Some e
      | None => open_error env d rest
      end
  end.

(** The exception that ends the download, if one does: the one of the
    first file that cannot be opened, else the one of [async_fetch]. *)
Definition download_error (env : MergeEnv) (d : string)
    (files : list (string * string)) : option exn :=
  match open_error env d files with
  | Some e => Some e
  | None => async_fetch env (map fst files)
  end.

(** The events of the download. *)
Definition download_events (env : MergeEnv) (d : string)
    (files : list (string * string)) : list event :=
  map OpenFd (opened env d files)
  ++ match open_error env d files with
     | Some _ => []
     | None =>
         AsyncFetch (map fst files)
         :: match async_fetch env (map fst files) with
            | Some _ => []
            | None => [LogError "Done downloading"]
            end
     end
  ++ map CloseFd (opened env d files).

(** The files that an execution of [merge_pr] downloads. *)
Definition merge_files (env : MergeEnv) (pr_number : Z) : list (string * string) :=
  (collect (merge_artifacts env pr_number)).1.1.

(** The images and the packages that an execution of [merge_pr]
    uploads, and the progress comment with which it enters the [with]
    block. *)
Definition merge_images (env : MergeEnv) (pr_number : Z)
    : list (string * string) :=
  (collect (merge_artifacts env pr_number)).1.2.

Definition merge_packages (env : MergeEnv) (pr_number : Z) : list string :=
  (collect (merge_artifacts env pr_number)).2.

Definition merge_comment (env : MergeEnv) (pr_number : Z) : string :=
  comment_fetching comment_started (merge_packages env pr_number)
    (merge_images env pr_number).

(** The world in which an execution of [merge_pr] that started in [w]
    enters its upload loops: the two progress comments are written, the
    scratch directory exists and the download is over. *)
Definition after_download (env : MergeEnv) (pr_number comment_id : Z)
    (w : World) : World :=
  set_scratch (tmpdir env :: scratch w)
    (set_trace
       (trace w
        ++ [UpdateComment comment_id comment_started;
            UpdateComment comment_id (merge_comment env pr_number);
            MkTempDir (tmpdir env)]
        ++ download_events env (tmpdir env) (merge_files env pr_number)) w).

(** The world after the [with] block was left in [w]: the scratch
    directory is removed. *)
Definition leave_scratch (env : MergeEnv) (w : World) : World :=
  set_trace (trace w ++ [RmTempDir (tmpdir env)])
    (set_scratch
       (List.filter (fun x => negb (String.eqb x (tmpdir env))) (scratch w)) w).

(** The [with] block as [merge_pr] runs it when the checks are passed
    and some artifact is there: after the two progress comments. *)
Definition merge_upload_block (env : MergeEnv) (pr_number comment_id : Z)
    : M World (bool * string) (list string * string) :=
  fun w =>
    let '(files, images, packages) := collect (merge_artifacts env pr_number) in
    let comment := comment_fetching comment_started packages images in
    upload_block env comment_id files images packages comment
      (set_trace (trace w ++ [UpdateComment comment_id comment_started;
                              UpdateComment comment_id comment]) w).

(* ===================================================================== *)
(** ** Sample data *)
(* ===================================================================== *)

Definition alice_commit (sha : string) : Commit :=
  mkCommit sha (Some (mkAuthor (Some "alice"))) "Alice" "alice@example.org".

(** Two commits pushed under one GitHub login from two git
    configurations. *)
Definition bob_commit_home : Commit :=
  mkCommit "b1" (Some (mkAuthor (Some "bob"))) "Bob" "bob@home.example".

Definition bob_commit_work : Commit :=
  mkCommit "b2" (Some (mkAuthor (Some "bob"))) "Bob B." "bob@work.example".


Definition sample_pr : PullRequest :=
  mkPullRequest "add-samtools" "9f2c1e" "alice" "bioconda-recipes" "alice" "alice".

(** Collaborators that answer the same on every call, but for the
    upload primitives, which answer by the number of the call; every
    file can be opened, and sets are iterated in the order of
    [elements]. *)
Definition sample_env (verdict : option bool * string)
    (artifacts : list artifact) (fetch : option exn)
    (skopeo anaconda : nat -> bool) (commits : list Commit) : MergeEnv :=
  mkMergeEnv "bioconda" (fun _ => sample_pr) (fun _ _ => verdict)
    (fun _ _ => artifacts) "/tmp/tmpk3x0" (fun _ => None) (fun _ => fetch)
    (fun k _ _ => skopeo k) (fun k _ => anaconda k) (fun _ => commits)
    (fun _ _ _ => (true, "Pull Request successfully merged"))
    elements (fun s => Permutation_refl (elements s)).

(** The same collaborators, but the package cannot be opened for
    writing (its path runs through a regular file, say) and the
    process iterates over a set in the opposite order. *)
Definition unopenable_env (artifacts : list artifact) (commits : list Commit)
    : MergeEnv :=
  mkMergeEnv "bioconda" (fun _ => sample_pr) (fun _ _ => (Some true, ""))
    (fun _ _ => artifacts) "/tmp/tmpk3x0"
    (fun fpath =>
       if String.eqb fpath "/tmp/tmpk3x0/noarch/x-1.0-0.tar.bz2"
       then Some (Exception "NotADirectoryError") else None)
    (fun _ => None)
    (fun _ _ _ => true) (fun _ _ => true) (fun _ => commits)
    (fun _ _ _ => (true, "Pull Request successfully merged"))
    (fun s => rev (elements s))
    (fun s => Permutation_sym (Permutation_rev (elements s))).

Definition world0 : World := mkWorld "/home/bot" [] [] 0 0 [].

(** The protection check gives no verdict during the first fifteen
    executions and a failing one during the sixteenth. *)
Definition late_verdict (k : nat) : MergeEnv :=
  sample_env (if Nat.ltb k 15 then (None, "")
              else (Some false, "Required status check is failing"))
    [] None (fun _ => true) (fun _ => true) [].

Definition sample_clone : TempBiocondaRepo :=
  mkRepo "/tmp/tmpclone7" "<TempBiocondaRepo /tmp/tmpclone7>".

(** A checkout whose branch cannot be found: every step works until
    [create_local_branch] gives nothing. *)
Definition branch_not_found : CheckoutEnv :=
  mkCheckoutEnv "<GitHubHandler bioconda/bioconda-recipes>"
    (fun _ => inr sample_pr)
    (fun _ _ => inr sample_clone)
    (fun _ => inr tt)
    None
    (fun _ => None)
    (fun _ _ _ => inr None)
    (fun _ => inr tt).

(** A checkout in which every step works. *)
Definition checkout_works : CheckoutEnv :=
  mkCheckoutEnv "<GitHubHandler bioconda/bioconda-recipes>"
    (fun _ => inr sample_pr)
    (fun _ _ => inr sample_clone)
    (fun _ => inr tt)
    None
    (fun _ => None)
    (fun _ name _ => inr (Some (LocalBranch name)))
    (fun _ => inr tt).

(** A checkout in which every step works, but the directory the
    process started in is gone when the scope is left. *)
Definition old_directory_gone : CheckoutEnv :=
  mkCheckoutEnv "<GitHubHandler bioconda/bioconda-recipes>"
    (fun _ => inr sample_pr)
    (fun _ _ => inr sample_clone)
    (fun _ => inr tt)
    None
    (fun d => if String.eqb d "/home/bot"
              then Some (Exception "FileNotFoundError: /home/bot") else None)
    (fun _ name _ => inr (Some (LocalBranch name)))
    (fun _ => inr tt).

Definition one_changed_recipe : BumpEnv :=
  mkBumpEnv (fun _ => inr ["samtools/meta.yaml"])
    (fun _ meta_fn => inr (mkRecipe ("Recipe " +:+ meta_fn) 0))
    (fun _ _ => true).

Definition sample_package : artifact :=
  ("packages/noarch/x-1.0-0.tar.bz2",
   "https://ci/0/packages/noarch/x-1.0-0.tar.bz2", 7%Z).

Definition sample_image : artifact :=
  ("images/x:1.0--0.tar.gz", "https://ci/0/images/x%3A1.0--0.tar.gz", 7%Z).

Definition sample_repodata : artifact :=
  ("packages/noarch/repodata.json",
   "https://ci/0/packages/noarch/repodata.json", 7%Z).

Definition sample_log : artifact :=
  ("build.log", "https://ci/0/build.log", 7%Z).

Definition ex_package_url : string := "https://ci/0/packages/noarch/x-1.0-0.tar.bz2".

(* ===================================================================== *)
(** ** The other handlers, and further notions for the statements *)
(* ===================================================================== *)

(** A text read backwards, as a list of characters. *)
Definition backwards (s : string) : list ascii :=
  rev (list_ascii_of_string s).

(** The first loop of [merge_pr], seen one artifact at a time: the
    entry an artifact adds to [files], to [images] and to [packages]. *)
Definition file_of (a : artifact) : option (string * string) :=
  match PACKAGE_RE_match (artifact_url a) with
  | Some (_, arch, fname) => Some (artifact_url a, os_path_join arch fname)
  | None =>
      match IMAGE_RE_match (artifact_url a) with
      | Some (name, tag) =>
          Some (artifact_url a, name +:+ "__" +:+ tag +:+ ".tar.gz")
      | None => None
      end
  end.

Definition image_entry_of (a : artifact) : option (string * string) :=
  match PACKAGE_RE_match (artifact_url a) with
  | Some _ => None
  | None =>
      match IMAGE_RE_match (artifact_url a) with
      | Some (name, tag) =>
          Some (name +:+ "__" +:+ tag +:+ ".tar.gz", name +:+ ":" +:+ tag)
      | None => None
      end
  end.

Definition package_entry_of (a : artifact) : option string :=
  match PACKAGE_RE_match (artifact_url a) with
  | Some (_, arch, fname) => Some (os_path_join arch fname)
  | None => None
  end.

(** A URL that one of the two patterns matches. *)
Definition recognised (url : string) : bool :=
  match PACKAGE_RE_match url, IMAGE_RE_match url with
  | None, None => false
  | _, _ => true
  end.

(** How [merge_pr] names a package and an image that
    [check_circle_artifacts] lists. *)
Definition package_path (p : Package) : string :=
  os_path_join (pkg_arch p) (pkg_fname p).

Definition image_entry (i : Image) : string * string :=
  (img_name i +:+ "__" +:+ img_tag i +:+ ".tar.gz",
   img_name i +:+ ":" +:+ img_tag i).

Definition starts_with_slash (s : string) : bool :=
  match s with
  | String "/"%char _ => true
  | _ => false
  end.

(** A computation that only adds events, all of them accepted by [P]. *)
Definition emits {R A} (P : event -> bool) (m : M World R A) : Prop :=
  forall w, exists evs,
    trace (snd (m w)) = trace w ++ evs /\ forallb P evs = true.

(** The events of the download and of the upload loops. *)
Definition moves_file (e : event) : bool :=
  match e with
  | OpenFd _ | CloseFd _ | AsyncFetch _ | LogError _ | SkopeoUpload _ _
  | AnacondaUpload _ | Sleep _ => true
  | _ => false
  end.

(** The events of the [with] block of [merge_pr], but for the creation
    and the removal of the scratch directory. *)
Definition inside_event (e : event) : bool :=
  match e with
  | OpenFd _ | CloseFd _ | AsyncFetch _ | LogError _ | SkopeoUpload _ _
  | AnacondaUpload _ | Sleep _ | UpdateComment _ _ => true
  | _ => false
  end.

(** The images and packages of an artifact list as [uploaded] names
    them once all are uploaded. *)
Definition all_uploaded (artifacts : list artifact) : list string :=
  map (fun i => "biocontainers/" +:+ snd i) (collect artifacts).1.2
  ++ (collect artifacts).2.

(** The commit message of the squash merge: the uploads, then the
    co-author lines in the order in which this process iterates over
    their set. *)
Definition merge_message (env : MergeEnv) (uploaded : list string)
    (coauthors : gset string) : string :=
  join nl ([""; "Package uploads complete: [ci skip]"]
           ++ map (fun pkg => " - " +:+ pkg) uploaded ++ [""]
           ++ list_of_set env coauthors).

(** [get_latest_pr_commit]: the variable [commit] starts as
    [{'sha': None}] and is bound to each commit in turn; the value is
    its ['sha']. *)
Definition get_latest_pr_commit (commits : list Commit) : option string :=
  fold_left (fun _ commit => Some (sha commit)) commits None.

(** The last progress comment of [merge_pr]; the names of the
    co-authors come in the order in which this process iterates over
    their set. *)
Definition comment_merging (env : MergeEnv) (comment : string)
    (coauthors coauthor_logins : gset string) : string :=
  let comment := comment +:+ "- Creating squash merge" in
  let comment :=
    if bool_decide (coauthors ≠ ∅) then
      comment +:+ " (with co-authors "
      +:+ join ", " (list_of_set env coauthor_logins) +:+ ")"
    else comment in
  comment +:+ nl.

(** A computation that calls the image upload at most [a] times and the
    package upload at most [b] times, and never forgets a call. *)
Definition calls_within {R A} (a b : nat) (m : M World R A) : Prop :=
  forall w,
    (skopeo_calls w <= skopeo_calls (snd (m w)) <= skopeo_calls w + a)%nat /\
    (anaconda_calls w <= anaconda_calls (snd (m w)) <= anaconda_calls w + b)%nat.

(** Events that touch the scratch directory or send an artifact
    somewhere: the transfers, and closing a file. *)
Definition uses_scratch (e : event) : bool :=
  match e with
  | MkTempDir _ | RmTempDir _ | OpenFd _ | CloseFd _ | AsyncFetch _
  | SkopeoUpload _ _ | AnacondaUpload _ => true
  | _ => false
  end.

(** A pull request with one package and one image, whose checks pass;
    the image upload is refused twice. *)
Definition merging_env : MergeEnv :=
  sample_env (Some true, "") [sample_package; sample_image; sample_log] None
    (fun k => Nat.leb 2 k) (fun _ => true)
    [alice_commit "a1"; bob_commit_home].

(** The updates of progress comments among some events: the comment
    each one targets and the body it writes. *)
Definition comment_updates (evs : list event) : list (Z * string) :=
  omap (fun e => match e with
                 | UpdateComment id body => Some (id, body)
                 | _ => None
                 end) evs.

Definition is_UpdateComment (e : event) : bool :=
  match e with
  | UpdateComment _ _ => true
  | _ => false
  end.

(** [b] is [c] with something appended. *)
Definition extends (c b : string) : Prop := exists s, b = c +:+ s.

(** Each body extends the one before it, the first one extends [c]. *)
Fixpoint each_extends (c : string) (bodies : list string) : Prop :=
  match bodies with
  | [] => True
  | b :: rest => extends c b /\ each_extends b rest
  end.

(** A computation that threads the progress comment: started with the
    comment [c], it only updates the comment [cid], each time with an
    extension of what was written before, and when it runs to its end
    with the value [a] the last body written (or [c]) is [post a]. *)
Definition comment_grows {R A} (cid : Z) (c : string) (m : M World R A)
    (post : A -> string) : Prop :=
  forall w, exists evs,
    trace (snd (m w)) = trace w ++ evs /\
    Forall (fun u => fst u = cid) (comment_updates evs) /\
    each_extends c (map snd (comment_updates evs)) /\
    forall a, fst (m w) = Normal a ->
              post a = List.last (map snd (comment_updates evs)) c.

(** An exception that is Celery's request for a retry. *)
Definition is_Retry (e : exn) : bool :=
  match e with
  | Retry _ _ => true
  | _ => false
  end.

(** The download never raises Celery's [Retry], neither when it opens
    the files nor when it fetches them. *)
Definition fetch_never_retries (env : MergeEnv) : Prop :=
  (forall urls e, async_fetch env urls = Some e -> is_Retry e = false) /\
  (forall fpath e, open_raises env fpath = Some e -> is_Retry e = false).

Definition count_Reschedule (evs : list event) : nat :=
  length (List.filter (fun e => match e with Reschedule _ => true | _ => false end)
            evs).

(** The message that an execution of [check_circle_artifacts] posts. *)
Definition artifacts_message (env : ArtifactsEnv) (pr_number : Z) : string :=
  let pr := a_get_prs env pr_number in
  let branch := circle_branch (a_ghapi_user env) pr pr_number in
  let artifacts := a_get_artifacts env branch (head_sha pr) in
  let '(packages, images, repos) := classify_artifacts artifacts in
  render env packages repos images.

(** [comment['body'].startswith(msg_head)] *)
Definition starts_with_head (msg : string) (comment : Z * string) : bool :=
  String.prefix (first_line msg) (snd comment).

(** A pull request with one package and one image on CircleCI, and a
    template with a fixed first line. *)
Definition sample_artifacts_env (comments : list (Z * string)) : ArtifactsEnv :=
  mkArtifactsEnv "bioconda" (fun _ => sample_pr)
    (fun _ _ => [sample_package; sample_image])
    (fun packages repos images =>
       "Package(s) built on CircleCI are ready for inspection:" +:+ nl
       +:+ pretty (length packages) +:+ " packages, "
       +:+ pretty (length images) +:+ " images")
    (fun _ => comments).

(* ===================================================================== *)
(** ** [create_check_run] *)
(* ===================================================================== *)

(** A check run as [create_check_run] reads it: [check_run.get('name')]. *)
Record CheckRun : Type := mkCheckRun {
  check_run_name : option string
}.

(** GitHub's check runs, each with the sha it belongs to:
    [ghapi.get_check_runs(sha)] lists the runs of a sha, and
    [ghapi.create_check_run(name, sha)] adds a run of that name to
    them and answers its number. *)
Definition CheckRuns : Type := list (string * CheckRun).

Definition ghapi_get_check_runs {R} (head_sha : string)
    : M CheckRuns R (list CheckRun) :=
  s <- get_state;;
  ret (map snd (List.filter (fun p => String.eqb (fst p) head_sha) s)).

Definition ghapi_create_check_run {R} (name head_sha : string)
    : M CheckRuns R nat :=
  update_state (fun s => s ++ [(head_sha, mkCheckRun (Some name))]);;;
  s <- get_state;;
  ret (length s).

Definition LINT_CHECK_NAME : string := "Linting Recipe(s)".

(** [for check_run in ...: if check_run.get('name') == LINT_CHECK_NAME: return] *)
Fixpoint for_check_runs (check_runs : list CheckRun) : M CheckRuns unit unit :=
  match check_runs with
  | [] => ret tt
  | check_run :: rest =>
      if bool_decide (check_run_name check_run = Some LINT_CHECK_NAME)
      then return_ tt
      else for_check_runs rest
  end.

Definition create_check_run (head_sha : option string) (recreate : bool)
    : M CheckRuns unit unit :=
  match head_sha with
  | None => return_ tt
  | Some head_sha =>
      (if negb recreate then
         check_runs <- ghapi_get_check_runs head_sha;;
         for_check_runs check_runs
       else ret tt);;;
      check_run_number <- ghapi_create_check_run LINT_CHECK_NAME head_sha;;
      ret tt
  end.

(** The lint check runs of a sha. *)
Definition lint_runs (head_sha : string) (s : CheckRuns) : list CheckRun :=
  List.filter (fun r => bool_decide (check_run_name r = Some LINT_CHECK_NAME))
    (map snd (List.filter (fun p => String.eqb (fst p) head_sha) s)).

Definition is_ModifyCheckRun (e : event) : bool :=
  match e with
  | ModifyCheckRun _ _ _ _ => true
  | _ => false
  end.

(** A linter that finds nothing, and a report that only completes the
    check run. *)
Definition quiet_linter : list string -> M World unit bool :=
  fun _ => ret true.

Definition short_report (check_run_number : Z)
    : list string -> bool -> M World unit unit :=
  fun _ ok =>
    emit (ModifyCheckRun check_run_number completed
            (Some (if ok then success else failure)) "").

Definition sample_lint_env (recipes : exn + list string) : LintEnv :=
  mkLintEnv "bioconda" "bioconda-recipes" (fun _ => recipes).

(** What [__aenter__] sets out to check out: the fork and the branch of
    the pull request when an issue number is given, else the branch
    [unknown] at [self.ref] in the home repository. *)
Definition checkout_target (env : CheckoutEnv) (self : Checkout)
    : exn + (option string * option string * string * option string) :=
  if truthy_int (issue_number self) then
    match get_prs env (default 0%Z (issue_number self)) with
    | inr prs => inr (Some (head_user_login prs), Some (head_repo_name prs),
                      head_ref prs, None)
    | inl e => inl e
    end
  else inr (None, None, "unknown", ref self).

(** Events that open no file but one of the files listed. *)
Definition opens_only (allowed : list string) (e : event) : bool :=
  match e with
  | OpenFd f => existsb (String.eqb f) allowed
  | _ => true
  end.

(** The paths under which an execution of [merge_pr] opens the files
    of its download list. *)
Definition download_paths (env : MergeEnv) (pr_number : Z) : list string :=
  map (fun file => os_path_join (tmpdir env) (snd file))
    (merge_files env pr_number).

(** A pull request with one image and two co-author lines, in a
    process that iterates over a set in the opposite order. *)
Definition reversed_env : MergeEnv :=
  mkMergeEnv "bioconda" (fun _ => sample_pr) (fun _ _ => (Some true, ""))
    (fun _ _ => [sample_image]) "/tmp/tmpk3x0" (fun _ => None) (fun _ => None)
    (fun _ _ _ => true) (fun _ _ => true)
    (fun _ => [alice_commit "a1"; bob_commit_home; bob_commit_work])
    (fun _ _ _ => (true, "Pull Request successfully merged"))
    (fun s => rev (elements s))
    (fun s => Permutation_sym (Permutation_rev (elements s))).

(** An artifact whose URL has an empty segment after the architecture. *)
Definition slash_package : artifact :=
  ("packages/noarch//etc/cron.d/x.tar.bz2",
   "https://ci/0/packages/noarch//etc/cron.d/x.tar.bz2", 7%Z).

(* ===================================================================== *)
(** * Properties *)
(* ===================================================================== *)

#[local] Set Warnings "-clear-no-such-hyp".

(** ** The two patterns *)

Example PACKAGE_RE_ex1 :
  PACKAGE_RE_match "https://ci/0/tmp/packages/linux-64/samtools-1.9-h1.tar.bz2"
  = Some ("https://ci/0/tmp/packages", "linux-64", "samtools-1.9-h1.tar.bz2").
Proof. reflexivity. Qed.

Example PACKAGE_RE_ex2 :
  PACKAGE_RE_match "a/packages/noarch/b/packages/osx-64/c.tar.bz2"
  = Some ("a/packages/noarch/b/packages", "osx-64", "c.tar.bz2").
Proof. reflexivity. Qed.

Example PACKAGE_RE_ex3 :
  PACKAGE_RE_match "a/packages/win-64/c.tar.bz2" = None.
Proof. reflexivity. Qed.

Example IMAGE_RE_ex1 :
  IMAGE_RE_match "https://ci/0/tmp/images/samtools%3A1.9--h1.tar.gz"
  = Some ("samtools", "1.9--h1").
Proof. reflexivity. Qed.

Example IMAGE_RE_ex2 :
  IMAGE_RE_match "x/images/a:b:c.tar.gz" = Some ("a:b", "c").
Proof. reflexivity. Qed.

Example IMAGE_RE_ex3 :
  IMAGE_RE_match "x/images/abc.tar.gz" = None.
Proof. reflexivity. Qed.

Lemma append_cons c (a b : string) : String c a +:+ b = String c (a +:+ b).
Proof. reflexivity. Qed.

Lemma append_nil_l (a : string) : "" +:+ a = a.
Proof. reflexivity. Qed.

Lemma append_length (a b : string) :
  String.length (a +:+ b) = String.length a + String.length b.
Proof. induction a; [reflexivity|]. rewrite append_cons. simpl. now rewrite IHa. Qed.

Lemma strip_prefix_Some l : forall s s',
  strip_prefix l s = Some s' -> s = l +:+ s'.
Proof.
  induction l as [|a l IH]; intros s s' H; simpl in H.
  - now inversion H.
  - destruct s as [|b s]; [discriminate|].
    destruct (Ascii.eqb a b) eqn:E; [|discriminate].
    apply Ascii.eqb_eq in E. subst b. rewrite append_cons. f_equal. now apply IH.
Qed.

Lemma any_star_Some {A} (k : string -> option A) : forall s r,
  any_star s k = Some r ->
  exists pre rest, s = pre +:+ rest /\ no_newline pre = true /\ k rest = Some r.
Proof.
  induction s as [|c s IH]; intros r H; simpl in H.
  - exists "", "". auto.
  - destruct (is_newline c) eqn:Ec.
    + exists "", (String c s). auto.
    + destruct (any_star s k) as [r'|] eqn:Es.
      * inversion H; subst r'. destruct (IH _ eq_refl) as (pre & rest & -> & Hn & Hk).
        exists (String c pre), rest. rewrite append_cons. simpl. rewrite Ec. auto.
      * exists "", (String c s). auto.
Qed.

Lemma take_append pre : forall rest,
  take (String.length (pre +:+ rest) - String.length rest) (pre +:+ rest) = pre.
Proof.
  induction pre as [|c pre IH]; intros rest.
  - rewrite append_nil_l, Nat.sub_diag. destruct rest; reflexivity.
  - specialize (IH rest). rewrite append_cons.
    replace (String.length (String c (pre +:+ rest)) - String.length rest)
      with (S (String.length (pre +:+ rest) - String.length rest))
      by (simpl; rewrite append_length; lia).
    simpl. now rewrite IH.
Qed.

Lemma append_assoc (a b c : string) : (a +:+ b) +:+ c = a +:+ (b +:+ c).
Proof. induction a; [reflexivity|]. rewrite !append_cons. congruence. Qed.

Lemma rmatch_sound r : forall s caps k res,
  rmatch r s caps k = Some res ->
  exists pre rest g,
    s = pre +:+ rest /\ matches r pre rest g /\ k rest (caps ++ g) = Some res.
Proof.
  induction r as [l| | |a IHa b IHb|a IHa b IHb|a IHa|]; intros s caps k res H; simpl in H.
  - destruct (strip_prefix l s) as [s'|] eqn:E; [|discriminate].
    apply strip_prefix_Some in E. exists l, s', []. rewrite app_nil_r.
    repeat split; auto. constructor.
  - apply any_star_Some in H as (pre & rest & -> & Hn & Hk).
    exists pre, rest, []. rewrite app_nil_r. repeat split; auto. now constructor.
  - destruct s as [|c s]; [discriminate|].
    destruct (is_newline c) eqn:Ec; [discriminate|].
    apply any_star_Some in H as (pre & rest & -> & Hn & Hk).
    exists (String c pre), rest, []. rewrite app_nil_r. repeat split; auto.
    constructor; [discriminate|]. simpl. now rewrite Ec.
  - destruct (rmatch a s caps k) as [x|] eqn:E.
    + inversion H; subst x. destruct (IHa _ _ _ _ E) as (pre & rest & g & ? & ? & ?).
      exists pre, rest, g. repeat split; auto. now apply matches_Alt_l.
    + destruct (IHb _ _ _ _ H) as (pre & rest & g & ? & ? & ?).
      exists pre, rest, g. repeat split; auto. now apply matches_Alt_r.
  - destruct (IHa _ _ _ _ H) as (p1 & r1 & g1 & -> & M1 & H1).
    destruct (IHb _ _ _ _ H1) as (p2 & r2 & g2 & -> & M2 & H2).
    exists (p1 +:+ p2), r2, (g1 ++ g2). rewrite append_assoc, app_assoc.
    repeat split; auto. now constructor.
  - destruct (IHa _ _ _ _ H) as (p1 & r1 & g1 & -> & M1 & H1).
    unfold consumed in H1. rewrite take_append in H1.
    exists p1, r1, (g1 ++ [p1]). rewrite app_assoc. repeat split; auto. now constructor.
  - destruct (at_eos s) eqn:E; [|discriminate].
    exists "", s, []. rewrite app_nil_r. repeat split; auto. now constructor.
Qed.

Ltac invert_matches :=
  repeat match goal with
  | H : matches (Seq _ _) _ _ _ |- _ => inversion H; subst; clear H
  | H : matches (Group _) _ _ _ |- _ => inversion H; subst; clear H
  | H : matches (Alt _ _) _ _ _ |- _ => inversion H; subst; clear H
  | H : matches (Lit _) _ _ _ |- _ => inversion H; subst; clear H
  | H : matches AnyStar _ _ _ |- _ => inversion H; subst; clear H
  | H : matches AnyPlus _ _ _ |- _ => inversion H; subst; clear H
  | H : matches Eos _ _ _ |- _ => inversion H; subst; clear H
  end.

Lemma PACKAGE_RE_match_inv url repo arch fname :
  PACKAGE_RE_match url = Some (repo, arch, fname) ->
  exists base stem tail,
    repo = base +:+ "packages" /\
    In arch (map Arch_name Arch_members) /\
    fname = stem +:+ ".tar.bz2" /\ stem <> "" /\
    at_eos tail = true /\
    url = repo +:+ "/" +:+ arch +:+ "/" +:+ fname +:+ tail.
Proof.
  unfold PACKAGE_RE_match, re_match. intros H.
  destruct (rmatch PACKAGE_RE url [] _) as [caps|] eqn:E; [|discriminate].
  apply rmatch_sound in E as (pre & rest & g & -> & Hm & Hk).
  simpl in Hk. inversion Hk; subst caps; clear Hk.
  cbv [PACKAGE_RE alternation map Arch_name Arch_members] in Hm.
  invert_matches; simpl in H; inversion H; subst;
    (eexists _, _, _; split; [reflexivity|]; split; [simpl; auto|];
     split; [reflexivity|]; split; [assumption|]; split; [eassumption|];
     rewrite ?append_assoc; reflexivity).
Qed.

Lemma IMAGE_RE_match_inv url name tag :
  IMAGE_RE_match url = Some (name, tag) ->
  exists base sep tail,
    name <> "" /\ tag <> "" /\ (sep = ":" \/ sep = "%3A") /\
    at_eos tail = true /\
    url = base +:+ "images/" +:+ name +:+ sep +:+ tag +:+ ".tar.gz" +:+ tail.
Proof.
  unfold IMAGE_RE_match, re_match. intros H.
  destruct (rmatch IMAGE_RE url [] _) as [caps|] eqn:E; [|discriminate].
  apply rmatch_sound in E as (pre & rest & g & -> & Hm & Hk).
  simpl in Hk. inversion Hk; subst caps; clear Hk.
  cbv [IMAGE_RE] in Hm.
  invert_matches; simpl in H; inversion H; subst;
    [exists s1, ":", rest | exists s1, "%3A", rest];
    repeat split; auto; rewrite ?append_assoc; reflexivity.
Qed.

(** ** The package pattern on URLs of the documented form *)

Lemma any_star_app {A} (k : string -> option A) (p s : string) (r : A) :
  no_newline p = true -> any_star s k = Some r -> any_star (p +:+ s) k = Some r.
Proof.
  induction p as [|c p IH]; intros Hp Hs; [exact Hs|].
  rewrite append_cons. cbn in Hp. apply andb_prop in Hp as [Hc Hp].
  cbn [any_star]. destruct (is_newline c); [discriminate|].
  now rewrite (IH Hp Hs).
Qed.

Lemma any_star_None {A} (k : string -> option A) (s : string) :
  (forall p s2, s = p +:+ s2 -> k s2 = None) -> any_star s k = None.
Proof.
  induction s as [|c s IH]; intros H; cbn [any_star].
  - apply (H "" ""). reflexivity.
  - assert (Hk : k (String c s) = None) by (apply (H ""); reflexivity).
    destruct (is_newline c); [exact Hk|].
    rewrite IH; [exact Hk|]. intros p s2 ->. apply (H (String c p)). reflexivity.
Qed.

Lemma count_slash_app (a b : string) :
  count_slash (a +:+ b) = count_slash a + count_slash b.
Proof. induction a as [|c a IH]; [reflexivity|]. rewrite append_cons. cbn. rewrite IH. lia. Qed.

Lemma no_slash_count (s : string) : no_slash s = true -> count_slash s = 0.
Proof.
  induction s as [|c s IH]; [reflexivity|]. cbn. destruct (Ascii.eqb c "/"); [discriminate|].
  cbn. exact IH.
Qed.

Lemma count_no_slash (s : string) : count_slash s = 0 -> no_slash s = true.
Proof.
  induction s as [|c s IH]; [reflexivity|]. cbn. destruct (Ascii.eqb c "/"); [discriminate|].
  cbn. exact IH.
Qed.

Lemma upto_slash_app (p s : string) :
  no_slash p = true -> upto_slash (p +:+ s) = p +:+ upto_slash s.
Proof.
  induction p as [|c p IH]; intros H; [reflexivity|].
  rewrite !append_cons. cbn in *. destruct (Ascii.eqb c "/"); [discriminate|].
  cbn in H. now rewrite (IH H).
Qed.


Lemma no_newline_app (a b : string) :
  no_newline a = true -> no_newline b = true -> no_newline (a +:+ b) = true.
Proof.
  induction a as [|c a IH]; intros Ha Hb; [exact Hb|].
  rewrite append_cons. cbn in *. apply andb_prop in Ha as [-> Ha]. cbn. auto.
Qed.

Lemma strip_prefix_app (l s : string) : strip_prefix l (l +:+ s) = Some s.
Proof.
  induction l as [|c l IH]; [reflexivity|].
  rewrite append_cons. cbn. now rewrite Ascii.eqb_refl.
Qed.

Lemma consumed_app (pre rest : string) : consumed (pre +:+ rest) rest = pre.
Proof. apply take_append. Qed.

Lemma Arch_name_no_slash (a : Arch) : count_slash (Arch_name a) = 0.
Proof. destruct a; reflexivity. Qed.

(** What the tail of the pattern matches starts with two slashes that
    enclose a name. *)
Lemma PACKAGE_RE_tail_inv s caps k r :
  rmatch PACKAGE_RE_tail s caps k = Some r ->
  exists x y, s = "/" +:+ x +:+ "/" +:+ y.
Proof.
  intros H. apply rmatch_sound in H as (pre & rest & g & -> & Hm & _).
  cbv [PACKAGE_RE_tail alternation map Arch_name Arch_members] in Hm.
  invert_matches; rewrite ?append_assoc;
    match goal with
    | |- exists x y, "/" +:+ ?a +:+ "/" +:+ ?b = _ => exists a, b; reflexivity
    end.
Qed.

Lemma strip_prefix_head (c1 c2 : ascii) (l1 l2 s : string) :
  c1 <> c2 -> strip_prefix (String c1 l1) (String c2 l2 +:+ s) = None.
Proof.
  intros H. rewrite append_cons. cbn.
  destruct (Ascii.eqb c1 c2) eqn:E; [|reflexivity].
  apply Ascii.eqb_eq in E. contradiction.
Qed.

Lemma take_all (s : string) : take (String.length s) s = s.
Proof. induction s as [|c s IH]; [reflexivity|]. cbn. now rewrite IH. Qed.

Lemma PACKAGE_RE_tail_match (a : Arch) (name : string) caps :
  no_newline name = true -> name <> "" ->
  rmatch PACKAGE_RE_tail ("/" +:+ Arch_name a +:+ "/" +:+ name +:+ ".tar.bz2") caps
    (fun _ caps' => Some caps')
  = Some (caps ++ [Arch_name a; name +:+ ".tar.bz2"]).
Proof.
  intros Hname Hne. destruct name as [|c name]; [contradiction|].
  cbn in Hname. apply andb_prop in Hname as [Hc Hname].
  apply negb_true_iff in Hc.
  cbv [PACKAGE_RE_tail alternation map Arch_members]. cbn [rmatch].
  rewrite strip_prefix_app.
  destruct a; cbn [Arch_name];
    rewrite strip_prefix_app, ?strip_prefix_head by discriminate;
    rewrite strip_prefix_app, append_cons, Hc;
    (erewrite (any_star_app _ name ".tar.bz2" _ Hname); [|cbn; reflexivity]);
    rewrite consumed_app, take_all, <- app_assoc; reflexivity.
Qed.

Lemma PACKAGE_RE_match_grammar (path : string) (a : Arch) (name : string) :
  no_newline path = true -> no_newline name = true -> no_slash name = true ->
  name <> "" ->
  PACKAGE_RE_match (path +:+ "/packages/" +:+ Arch_name a +:+ "/" +:+ name +:+ ".tar.bz2")
  = Some (path +:+ "/packages", Arch_name a, name +:+ ".tar.bz2").
Proof.
  intros Hpath Hname Hslash Hne.
  unfold PACKAGE_RE_match, re_match.
  set (tail := "/" +:+ Arch_name a +:+ "/" +:+ name +:+ ".tar.bz2").
  set (url := path +:+ _).
  assert (Hurl : url = (path +:+ "/") +:+ "packages" +:+ tail)
    by (unfold url; rewrite append_assoc; reflexivity).
  assert (Hurl' : url = (path +:+ "/packages") +:+ tail)
    by (unfold url; rewrite append_assoc; reflexivity).
  change (rmatch PACKAGE_RE url [] (fun _ caps => Some caps))
    with (any_star url
            (fun s1 => match strip_prefix "packages" s1 with
                       | Some s2 => rmatch PACKAGE_RE_tail s2 ([] ++ [consumed url s2])
                                      (fun _ caps => Some caps)
                       | None => None
                       end)).
  set (k1 := fun s1 : string => _).
  assert (Hk : any_star url k1
               = Some [path +:+ "/packages"; Arch_name a; name +:+ ".tar.bz2"]).
  2: { now rewrite Hk. }
  rewrite Hurl at 1.
  apply any_star_app; [apply no_newline_app; [assumption|reflexivity]|].
  change ("packages" +:+ tail) with (String "p" ("ackages" +:+ tail)).
  cbn [any_star]. change (is_newline "p") with false. cbv iota.
  rewrite any_star_None.
  - change (String "p" ("ackages" +:+ tail)) with ("packages" +:+ tail).
    unfold k1. rewrite strip_prefix_app. unfold tail.
    rewrite PACKAGE_RE_tail_match by assumption.
    fold tail. rewrite Hurl', consumed_app. reflexivity.
  - intros p s2 Heq. destruct (k1 s2) as [r|] eqn:Hk1; [exfalso|reflexivity].
    unfold k1 in Hk1.
    destruct (strip_prefix "packages" s2) as [s3|] eqn:Hs3; [|discriminate].
    apply strip_prefix_Some in Hs3. apply PACKAGE_RE_tail_inv in Hk1 as (x & y & ->).
    subst s2. unfold tail in Heq.
    pose proof (f_equal count_slash Heq) as Hcount.
    rewrite !count_slash_app, Arch_name_no_slash, (no_slash_count name Hslash) in Hcount.
    cbn in Hcount.
    assert (Hp : no_slash p = true) by (apply count_no_slash; lia).
    pose proof (f_equal upto_slash Heq) as Hupto.
    rewrite (upto_slash_app p _ Hp) in Hupto.
    change (upto_slash ("ackages" +:+ _)) with "ackages" in Hupto.
    change (upto_slash ("packages" +:+ _)) with "packages" in Hupto.
    apply (f_equal String.length) in Hupto. rewrite append_length in Hupto.
    cbn in Hupto. lia.
Qed.


(** ** [check_circle_artifacts]: the classification *)

Lemma classify_step_eq (U : gset string) ps imgs rs (a : artifact) :
  classify_step U (ps, imgs, rs) a
  = (ps ++ option_list (package_of U a), imgs ++ option_list (image_of a),
     repos_step U rs a).
Proof.
  destruct a as [[path url] buildno].
  unfold classify_step, package_of, image_of, repos_step, artifact_url.
  cbn [fst snd].
  destruct (PACKAGE_RE_match url) as [[[repo_url arch] fname]|].
  - destruct (bool_decide _); cbn [option_list]; now rewrite ?app_nil_r.
  - destruct (IMAGE_RE_match url) as [[name tag]|];
      cbn [option_list]; now rewrite ?app_nil_r.
Qed.

Lemma omap_cons_list {A B} (f : A -> option B) (a : A) (l : list A) :
  omap f (a :: l) = option_list (f a) ++ omap f l.
Proof. cbn. now destruct (f a). Qed.

Lemma classify_fold (U : gset string) (l : list artifact) :
  forall ps imgs rs,
    fold_left (classify_step U) l (ps, imgs, rs)
    = (ps ++ omap (package_of U) l, imgs ++ omap image_of l,
       fold_left (repos_step U) l rs).
Proof.
  induction l as [|a l IH]; intros ps imgs rs.
  - simpl. now rewrite !app_nil_r.
  - cbn [fold_left]. rewrite classify_step_eq, IH, !omap_cons_list, <- !app_assoc.
    reflexivity.
Qed.

Lemma classify_artifacts_eq (l : list artifact) :
  classify_artifacts l
  = (omap (package_of (list_to_set (map artifact_url l))) l,
     omap image_of l,
     fold_left (repos_step (list_to_set (map artifact_url l))) l ∅).
Proof. unfold classify_artifacts. now rewrite classify_fold. Qed.

Lemma repos_step_comm U rs a b :
  repos_step U (repos_step U rs a) b = repos_step U (repos_step U rs b) a.
Proof.
  unfold repos_step.
  destruct (PACKAGE_RE_match (artifact_url a)) as [[[ra aa] fa]|]; [|reflexivity].
  destruct (PACKAGE_RE_match (artifact_url b)) as [[[rb ab] fb]|]; [|reflexivity].
  destruct (bool_decide _); [|reflexivity].
  destruct (bool_decide _); [|reflexivity].
  apply map_eq. intros k. rewrite !lookup_insert.
  repeat match goal with
         | |- context [decide ?P] => destruct (decide P)
         end; subst; try congruence; try reflexivity; cbn [default];
    f_equal; set_solver.
Qed.

Lemma repos_fold_perm U (l l' : list artifact) :
  l ≡ₚ l' -> forall rs, fold_left (repos_step U) l rs = fold_left (repos_step U) l' rs.
Proof.
  induction 1 as [|a l l' _ IH|a b l|l1 l2 l3 _ IH1 _ IH2]; intros rs; simpl.
  - reflexivity.
  - apply IH.
  - now rewrite repos_step_comm.
  - now rewrite IH1.
Qed.

Lemma package_of_inv U a p :
  package_of U a = Some p ->
  exists repo_url,
    PACKAGE_RE_match (artifact_url a) = Some (repo_url, pkg_arch p, pkg_fname p) /\
    pkg_url p = artifact_url a /\
    repodata_md p =
      (if bool_decide (join "/" [repo_url; pkg_arch p; "repodata.json"] ∈ U)
       then "[repodata.json](" +:+ join "/" [repo_url; pkg_arch p; "repodata.json"] +:+ ")"
       else "").
Proof.
  unfold package_of.
  destruct (PACKAGE_RE_match (artifact_url a)) as [[[repo_url arch] fname]|];
    [|discriminate].
  intros H. inversion H; subst; clear H. cbn [pkg_arch pkg_fname pkg_url repodata_md].
  eauto.
Qed.

(** C5 as stated does not hold.  The batch holds the URL that the
    sentence names, [<path>/<arch>/repodata.json], and the package gets
    no link; and a batch without that URL, holding
    [<path>/packages/<arch>/repodata.json] instead, gets one. *)
Lemma repodata_link_not_at_spec_url :
  let batch1 : list artifact :=
    [("x.tar.bz2", ex_package_url, 7%Z);
     ("repodata.json", "https://ci/0/noarch/repodata.json", 7%Z)] in
  let batch2 : list artifact :=
    [("x.tar.bz2", ex_package_url, 7%Z);
     ("repodata.json", "https://ci/0/packages/noarch/repodata.json", 7%Z)] in
  ex_package_url = "https://ci/0" +:+ "/packages/" +:+ "noarch" +:+ "/" +:+ "x-1.0-0" +:+ ".tar.bz2"
  /\ In ("https://ci/0" +:+ "/" +:+ "noarch" +:+ "/repodata.json") (map artifact_url batch1)
  /\ map repodata_md (classify_artifacts batch1).1.1 = [""]
  /\ ~ In ("https://ci/0" +:+ "/" +:+ "noarch" +:+ "/repodata.json") (map artifact_url batch2)
  /\ map repodata_md (classify_artifacts batch2).1.1
     = ["[repodata.json](https://ci/0/packages/noarch/repodata.json)"].
Proof.
  cbv zeta. split; [reflexivity|]. split; [simpl; auto|].
  split; [vm_compute; reflexivity|]. split; [|vm_compute; reflexivity].
  simpl. intros [H|[H|[]]]; discriminate H.
Qed.

(** C5 (as amended).  A package of the result has the URL
    [<repo>/<arch>/<fname>] of an artifact, where [<repo>] is the text up
    to and including [packages]; it carries a repodata link if and only
    if [<repo>/<arch>/repodata.json] is a URL of the same batch, and the
    link then points there.  In particular an artifact with the URL
    [<path>/packages/<arch>/<name>.tar.bz2] (no slash in [<name>]) gives
    the package of that architecture and file name, linked if and only
    if [<path>/packages/<arch>/repodata.json] is in the batch.  Listing
    the artifacts in another order gives the same packages and the same
    images, in that other order, and the same [repos]. *)
Theorem repodata_link_iff_sibling_in_batch (artifacts artifacts' : list artifact) :
  artifacts ≡ₚ artifacts' ->
  (forall p, p ∈ (classify_artifacts artifacts).1.1 ->
     exists repo_url base tail,
       repo_url = base +:+ "packages" /\
       at_eos tail = true /\
       pkg_url p = repo_url +:+ "/" +:+ pkg_arch p +:+ "/" +:+ pkg_fname p +:+ tail /\
       pkg_url p ∈ map artifact_url artifacts /\
       (repodata_md p <> "" <->
        repo_url +:+ "/" +:+ pkg_arch p +:+ "/" +:+ "repodata.json"
          ∈ map artifact_url artifacts) /\
       (repodata_md p <> "" ->
        repodata_md p = "[repodata.json](" +:+ repo_url +:+ "/" +:+ pkg_arch p
                        +:+ "/" +:+ "repodata.json" +:+ ")"))
  /\ (forall x path a name,
        In x artifacts ->
        artifact_url x = path +:+ "/packages/" +:+ Arch_name a +:+ "/"
                         +:+ name +:+ ".tar.bz2" ->
        no_newline path = true -> no_newline name = true ->
        no_slash name = true -> name <> "" ->
        let repodata_url :=
          path +:+ "/packages/" +:+ Arch_name a +:+ "/repodata.json" in
        mkPackage (Arch_name a) (name +:+ ".tar.bz2") (artifact_url x)
          (if bool_decide (repodata_url ∈ map artifact_url artifacts)
           then "[repodata.json](" +:+ repodata_url +:+ ")" else "")
          ∈ (classify_artifacts artifacts).1.1)
  /\ (classify_artifacts artifacts).1.1 ≡ₚ (classify_artifacts artifacts').1.1
  /\ (classify_artifacts artifacts).1.2 ≡ₚ (classify_artifacts artifacts').1.2
  /\ (classify_artifacts artifacts).2 = (classify_artifacts artifacts').2.
Proof.
  intros Hperm. rewrite !classify_artifacts_eq. cbn [fst snd].
  assert (HU : list_to_set (map artifact_url artifacts)
               =@{gset string} list_to_set (map artifact_url artifacts')).
  { apply list_to_set_perm_L. now apply Permutation_map. }
  rewrite <- HU. set (U := list_to_set (map artifact_url artifacts) : gset string).
  assert (HinU : forall x, x ∈ U <-> x ∈ map artifact_url artifacts)
    by (intros x; unfold U; apply elem_of_list_to_set).
  split; [|split; [|split; [|split]]].
  - intros p Hp. apply list_elem_of_omap in Hp as (a & Ha & Hpa).
    apply package_of_inv in Hpa as (repo_url & Hm & Hurl & Hmd).
    apply PACKAGE_RE_match_inv in Hm
      as (base & stem & tail & Hrepo & _ & _ & _ & Htail & Hdec).
    exists repo_url, base, tail.
    cbn [join] in Hmd.
    repeat split; try assumption.
    + now rewrite Hurl.
    + rewrite Hurl. now apply list_elem_of_fmap_2.
    + rewrite Hmd, <- HinU. case_bool_decide; [tauto|congruence].
    + rewrite Hmd, <- HinU. case_bool_decide; [|tauto].
      intros _ H'. discriminate H'.
    + rewrite Hmd. case_bool_decide; [|congruence]. intros _.
      now rewrite !append_assoc.
  - intros x path a name Hx Hurl Hpath Hname Hslash Hne.
    set (repodata_url := path +:+ "/packages/" +:+ Arch_name a +:+ "/repodata.json").
    apply list_elem_of_omap. exists x. split; [now apply list_elem_of_In|].
    unfold package_of.
    rewrite Hurl, (PACKAGE_RE_match_grammar path a name Hpath Hname Hslash Hne).
    cbn [join].
    assert (Hrd : (path +:+ "/packages") +:+ "/" +:+ Arch_name a +:+ "/" +:+ "repodata.json"
                  = repodata_url)
      by (unfold repodata_url; rewrite append_assoc; reflexivity).
    rewrite Hrd.
    rewrite (bool_decide_ext _ _ (HinU repodata_url)). reflexivity.
  - now rewrite Hperm.
  - now rewrite Hperm.
  - now apply repos_fold_perm.
Qed.

(** ** [Checkout] *)

Ltac destruct_innermost :=
  match goal with
  | |- context [match ?x with _ => _ end] =>
      lazymatch x with
      | context [match _ with _ => _ end] => fail
      | _ => destruct x eqn:?
      end
  end.

Ltac unfold_checkout :=
  cbv [aenter aexit call try_except aenter_try bind ret return_ raise get_state
       update_state lift_result liftW get_self set_git set_orig_cwd
       TempBiocondaRepo_create os_getcwd os_chdir git_close emit fst snd
       orig_cwd git ref issue_number Checkout_init].

(** The [try] block either raises, or returns the clone with the
    directory changed to it and the old one recorded. *)
Lemma aenter_try_outcome (env : CheckoutEnv) (self : Checkout) (w : World) :
  (exists e s, aenter_try env (self, w) = (Raise e, s)) \/
  (exists g s,
      aenter_try env (self, w) = (Return (Some g), s) /\
      git (fst s) = Some g /\
      orig_cwd (fst s) = Some (cwd w) /\
      cwd (snd s) = tempdir g /\
      In (tempdir g) (clones (snd s))).
Proof.
  destruct self as [oc g0 rf inum].
  unfold_checkout.
  repeat (destruct_innermost; try (left; eexists _, _; reflexivity)).
  all: right; eexists _, _; split; [reflexivity|]; cbn; auto.
Qed.

(** What [__aenter__] leaves behind, whatever happened in it: the
    directory was changed only after the old one had been recorded, and
    a recorded directory is the one the process was in. *)
Lemma aenter_state {R} (env : CheckoutEnv) (rf : option string)
    (inum : option Z) (w : World) :
  let s := snd (@aenter R env (Checkout_init rf inum, w)) in
  (orig_cwd (fst s) = None \/ orig_cwd (fst s) = Some (cwd w)) /\
  (orig_cwd (fst s) = None -> cwd (snd s) = cwd w).
Proof.
  unfold_checkout.
  repeat (destruct_innermost; cbn); auto; split; auto; discriminate.
Qed.

Lemma aenter_Normal {R} (env : CheckoutEnv) (self : Checkout) (w : World) :
  exists v s, @aenter R env (self, w) = (Normal v, s).
Proof.
  unfold aenter, call, try_except.
  destruct (aenter_try env (self, w)) as [[u|r|e] s]; cbn; eauto.
Qed.

(** A clone that [__aenter__] gives is open, and the process is in its
    directory. *)
Lemma aenter_Some_state {R} (env : CheckoutEnv) (self : Checkout) (w : World) :
  match @aenter R env (self, w) with
  | (Normal (Some g), s) =>
      In (tempdir g) (clones (snd s)) /\ cwd (snd s) = tempdir g
  | _ => True
  end.
Proof.
  destruct self as [oc g0 rf inum].
  unfold_checkout.
  repeat (destruct_innermost; cbn); auto.
Qed.

Lemma not_In_filter_neq (d : string) (l : list string) :
  ~ In d (List.filter (fun x => negb (String.eqb x d)) l).
Proof.
  intros H. apply filter_In in H as [_ H]. now rewrite String.eqb_refl in H.
Qed.

(** [__aexit__] when the directory to go back to can be entered. *)
Lemma aexit_spec {R} (env : CheckoutEnv) (self : Checkout) (w : World) :
  (forall d, orig_cwd self = Some d -> chdir_raises env d = None) ->
  exists w',
    @aexit R env (self, w) = (Normal tt, (self, w')) /\
    cwd w' = (if truthy_str (orig_cwd self) then default "" (orig_cwd self)
              else cwd w) /\
    (forall g, git self = Some g -> ~ In (tempdir g) (clones w')) /\
    trace w' = trace w.
Proof.
  intros Hdir. destruct self as [oc g rf inum]. cbn [orig_cwd git] in *.
  unfold_checkout.
  destruct oc as [d|]; cbn [truthy_str default].
  - change (id d) with d. rewrite (Hdir d eq_refl).
    destruct (negb (String.eqb d "")), g as [g|]; cbn;
      eexists; (split; [reflexivity|]); cbn; repeat split; auto;
      intros g' Hg; inversion Hg; subst; try apply not_In_filter_neq.
  - destruct g as [g|]; cbn; eexists; (split; [reflexivity|]); cbn;
      repeat split; auto; intros g' Hg; inversion Hg; subst;
      apply not_In_filter_neq.
Qed.

(** [__aexit__] when the directory to go back to cannot be entered:
    [os.chdir] raises, and [self.git.close()] after it is not reached. *)
Lemma aexit_chdir_fails {R} (env : CheckoutEnv) (self : Checkout) (w : World)
    (d : string) (e : exn) :
  orig_cwd self = Some d -> d <> "" -> chdir_raises env d = Some e ->
  @aexit R env (self, w) = (Raise e, (self, w)).
Proof.
  intros Hd Hne He. destruct self as [oc g rf inum]. cbn [orig_cwd] in Hd.
  subst oc. unfold_checkout. cbn [truthy_str default].
  change (id d) with d. rewrite He.
  destruct (String.eqb d "") eqn:E; [apply String.eqb_eq in E; contradiction|].
  reflexivity.
Qed.

Lemma aexit_no_Return {R} (env : CheckoutEnv) (self : Checkout) (w : World) :
  match fst (@aexit R env (self, w)) with
  | Return _ => False
  | _ => True
  end.
Proof.
  destruct self as [oc g0 rf inum].
  unfold_checkout.
  repeat (destruct_innermost; cbn); auto.
Qed.

(** C4 (what the code does).  A scope entered in directory [cwd w]
    (not the empty string, as [os.getcwd] gives an absolute path).
    While that directory can still be entered when the scope is left,
    the claim holds: whatever [__aenter__] met and however the block
    under it ends, if the old directory was recorded the process is
    back in it after the scope, if it was not recorded the directory
    had not been changed on entry, every clone that was created is
    closed, and the block's outcome is the scope's.  But when the old
    directory was recorded and cannot be entered any more, [os.chdir]
    raises in [__aexit__]: the scope ends with that exception whatever
    the block did, [self.git.close()] is not reached, and the world is
    left as the block left it, in the clone's directory and with the
    clone open. *)
Theorem scope_exit_leaks_when_chdir_fails {R A} (env : CheckoutEnv)
    (rf : option string) (inum : option Z)
    (body : option TempBiocondaRepo -> M World R A) (w : World) :
  cwd w <> "" ->
  let entered := @aenter R env (Checkout_init rf inum, w) in
  let self := fst (snd entered) in
  let left := async_with_Checkout env (Checkout_init rf inum) body w in
  (chdir_raises env (cwd w) = None ->
   (orig_cwd self <> None -> cwd (snd left) = cwd w) /\
   (orig_cwd self = None -> cwd (snd (snd entered)) = cwd w) /\
   (forall g, git self = Some g -> ~ In (tempdir g) (clones (snd left))) /\
   (exists v, fst entered = Normal v /\
              fst left = fst (body v (snd (snd entered))))) /\
  (forall e,
     chdir_raises env (cwd w) = Some e ->
     orig_cwd self <> None ->
     exists v,
       fst entered = Normal v /\
       left = (Raise e, snd (body v (snd (snd entered)))) /\
       (forall g,
          v = Some g ->
          In (tempdir g) (clones (snd (snd entered))) /\
          cwd (snd (snd entered)) = tempdir g)).
Proof.
  intros Hcwd. cbv zeta.
  pose proof (@aenter_state R env rf inum w) as [Hrec Hunrec]. cbv zeta in Hrec, Hunrec.
  unfold async_with_Checkout.
  destruct (@aenter_Normal R env (Checkout_init rf inum) w) as (v & [self w1] & Hent).
  pose proof (@aenter_Some_state R env (Checkout_init rf inum) w) as Hsome.
  rewrite Hent in *. cbn [fst snd] in *.
  destruct (body v w1) as [o w2] eqn:Hbody.
  split.
  - intros Hdir.
    destruct (@aexit_spec R env self w2) as (w3 & Hexit & Hcwd3 & Hclones & _).
    { intros d Hd. destruct Hrec as [Hrec|Hrec]; congruence. }
    rewrite Hexit. cbn [fst snd].
    split; [|split; [|split]].
    + intros Hsome'. destruct Hrec as [Hrec|Hrec]; [contradiction|].
      rewrite Hcwd3, Hrec. cbn.
      destruct (String.eqb (cwd w) "") eqn:E; [|reflexivity].
      apply String.eqb_eq in E. contradiction.
    + exact Hunrec.
    + exact Hclones.
    + exists v. split; [reflexivity|]. now rewrite Hbody.
  - intros e He Hsome'. destruct Hrec as [Hrec|Hrec]; [contradiction|].
    rewrite (@aexit_chdir_fails R env self w2 (cwd w) e Hrec Hcwd He).
    exists v. split; [reflexivity|]. split; [now rewrite Hbody|].
    intros g ->. exact Hsome.
Qed.

(** C8.  [__aenter__] never raises and never fails to answer: it ends
    with a value.  When anything in its [try] block raised (the pull
    request lookup, the creation of the clone, [set_user], [os.getcwd],
    [os.chdir], the creation or the checkout of the branch, or the
    [RuntimeError] for a branch that was not found), the exception is
    logged and the value is [None], with the attributes as they were
    when it raised; [None] is given in no other case; and the two
    callers, given [None], stop there: [bump] logs that the checkout
    failed and returns, [lint_check] marks the check run as cancelled
    and returns without running the linter. *)
Theorem aenter_converts_exceptions_to_None {R} (env : CheckoutEnv)
    (self : Checkout) (w : World) :
  (exists v s, @aenter R env (self, w) = (Normal v, s)) /\
  (forall e s, aenter_try env (self, w) = (Raise e, s) ->
     @aenter R env (self, w)
     = (Normal None,
        (fst s,
         set_trace (trace (snd s) ++
                    [LogException ("Error while checking out with "
                                   +:+ ghapi_repr env)]) (snd s)))) /\
  (forall s, @aenter R env (self, w) = (Normal None, s) ->
     exists e s0, aenter_try env (self, w) = (Raise e, s0)) /\
  (forall benv w0,
     bump_body benv None w0
     = (Return tt, set_trace (trace w0 ++ [LogError "Failed to checkout"]) w0)) /\
  (forall lenv Report (run_linter : list string -> M World unit Report) n ref w0,
     lint_check_body lenv Report run_linter n ref None w0
     = (Return tt,
        set_trace (trace w0 ++
                   [ModifyCheckRun n completed (Some cancelled)
                      ("Failed to check out " +:+ l_ghapi_user lenv +:+ "/"
                       +:+ l_ghapi_repo lenv +:+ ":" +:+ ref_label ref)]) w0)).
Proof.
  split; [apply aenter_Normal|]. split; [|split; [|split]].
  - intros e [self' w'] H. unfold aenter, call, try_except. rewrite H.
    reflexivity.
  - intros s H. destruct (aenter_try_outcome env self w)
      as [(e & s0 & He)|(g & s0 & He & _)]; [eauto|].
    unfold aenter, call, try_except in H. rewrite He in H. discriminate H.
  - reflexivity.
  - reflexivity.
Qed.

(** ** [bump] *)

Lemma load_global_buildno {S R} :
  @load_global S R "buildno" = raise (NameError "buildno").
Proof. reflexivity. Qed.

Lemma bump_for_spec {R} (benv : BumpEnv) (recipes : list string) :
  forall (slot : option Recipe) (w : World),
  exists o w' evs,
    @bump_for R benv recipes slot w = (o, w') /\
    trace w' = trace w ++ evs /\ no_commit evs = true /\
    (forall r, o = Normal r ->
       (recipes = [] /\ r = slot) \/ (recipes <> [] /\ r <> None)) /\
    (forall r, o <> Return r) /\
    ((forall fn, In fn recipes ->
        exists r, Recipe_from_file benv "recipes" fn = inr r) ->
     exists r, o = Normal r).
Proof.
  induction recipes as [|fn rest IH]; intros slot w.
  - exists (Normal slot), w, []. cbn. rewrite app_nil_r.
    repeat split; eauto; try discriminate.
    intros r Hr. inversion Hr. auto.
  - cbn [bump_for]. unfold bind at 1, lift_result.
    destruct (Recipe_from_file benv "recipes" fn) as [e|r] eqn:Hfile.
    + exists (Raise e), w, []. cbn. rewrite app_nil_r.
      repeat split; try discriminate.
      intros Hall. destruct (Hall fn (or_introl eq_refl)) as [r Hr]. congruence.
    + cbn. destruct (IH (Some r)
        (set_trace ((trace w ++ [ResetBuildnumber (recipe_str r) (build_number r + 1)])
                    ++ [RecipeSave (recipe_str r)]) w))
        as (o & w' & evs & Hrun & Htr & Hnc & Hres & Hret & Hok).
      unfold bind, emit, update_state, set_trace in *. cbn in *.
      rewrite Hrun.
      exists o, w', ([ResetBuildnumber (recipe_str r) (build_number r + 1);
                      RecipeSave (recipe_str r)] ++ evs).
      split; [reflexivity|]. split; [rewrite Htr, <- !app_assoc; reflexivity|].
      split; [exact Hnc|]. split; [|split].
      * intros r' Hr'. right. split; [discriminate|].
        destruct (Hres r' Hr') as [[-> ->]|[_ ?]]; [discriminate|assumption].
      * assumption.
      * intros Hall. apply Hok. intros fn' Hin. apply Hall. now right.
Qed.

Lemma bump_body_Some (benv : BumpEnv) (g : TempBiocondaRepo) (w : World) :
  exists o w' evs,
    bump_body benv (Some g) w = (o, w') /\
    trace w' = trace w ++ evs /\ no_commit evs = true /\
    (forall recipes,
       get_changed_recipes benv g = inr recipes ->
       (forall fn, In fn recipes ->
          exists r, Recipe_from_file benv "recipes" fn = inr r) ->
       o = Raise (match recipes with
                  | [] => UnboundLocalError "recipe"
                  | _ :: _ => NameError "buildno"
                  end)).
Proof.
  unfold bump_body, bind at 1, lift_result.
  destruct (get_changed_recipes benv g) as [e|recipes] eqn:Hrec.
  - exists (Raise e), w, []. cbn. rewrite app_nil_r. repeat split. discriminate.
  - cbn. unfold bind at 1.
    destruct (@bump_for_spec unit benv recipes None w)
      as (o & w' & evs & Hrun & Htr & Hnc & Hres & Hret & Hok).
    rewrite Hrun. destruct o as [slot|r|e].
    + destruct slot as [r|].
      * exists (Raise (NameError "buildno")), w', evs.
        repeat split; auto.
        intros recipes' Heq _. inversion Heq; subst recipes'.
        destruct (Hres _ eq_refl) as [[_ ?]|[Hne _]]; [discriminate|].
        destruct recipes; [contradiction|reflexivity].
      * exists (Raise (UnboundLocalError "recipe")), w', evs.
        repeat split; auto.
        intros recipes' Heq _. inversion Heq; subst recipes'.
        destruct (Hres _ eq_refl) as [[-> _]|[_ ?]]; [reflexivity|contradiction].
    + destruct (Hret r eq_refl).
    + exists (Raise e), w', evs. repeat split; auto.
      intros recipes' Heq Hall. inversion Heq; subst recipes'.
      destruct (Hok Hall) as [r Hr]. discriminate Hr.
Qed.

Lemma bump_body_trace (benv : BumpEnv) (git : option TempBiocondaRepo) (w : World) :
  exists evs,
    trace (snd (bump_body benv git w)) = trace w ++ evs /\ no_commit evs = true.
Proof.
  destruct git as [g|].
  - destruct (bump_body_Some benv g w) as (o & w' & evs & Hrun & Htr & Hnc & _).
    rewrite Hrun. eauto.
  - exists [LogError "Failed to checkout"]. split; reflexivity.
Qed.

Lemma aenter_trace {R} (env : CheckoutEnv) (self : Checkout) (w : World) :
  exists evs,
    trace (snd (snd (@aenter R env (self, w)))) = trace w ++ evs /\
    no_commit evs = true.
Proof.
  destruct self as [oc g0 rf inum].
  unfold_checkout.
  repeat (destruct_innermost; cbn);
    first [ exists []; split; [now rewrite app_nil_r | reflexivity]
          | eexists [_]; split; reflexivity ].
Qed.

Lemma aexit_trace {R} (env : CheckoutEnv) (self : Checkout) (w : World) :
  trace (snd (snd (@aexit R env (self, w)))) = trace w.
Proof.
  destruct self as [oc g0 rf inum].
  unfold_checkout.
  repeat (destruct_innermost; cbn); reflexivity.
Qed.

Lemma no_commit_app (a b : list event) :
  no_commit a = true -> no_commit b = true -> no_commit (a ++ b) = true.
Proof. unfold no_commit. rewrite forallb_app. now intros -> ->. Qed.

(** C9.  [bump] never calls [commit_and_push_changes], whatever its
    input and whatever the collaborators answer; and once the checkout
    has given a clone and the changed recipes have been listed, loaded,
    bumped and saved, composing the message raises: [NameError] for
    [buildno], which neither the handler nor the module binds, or, when
    no recipe changed, already [UnboundLocalError] (a [NameError]) for
    [recipe].  So an invocation of [bump] whose checkout gave a clone
    ends with an exception; it is that [NameError] when [__aexit__] can
    go back to the old directory, and else what [os.chdir] raised
    there. *)
Theorem bump_raises_NameError (cenv : CheckoutEnv) (benv : BumpEnv)
    (issue_number : Z) (w : World) :
  (exists evs,
     trace (snd (bump cenv benv issue_number w)) = trace w ++ evs /\
     no_commit evs = true) /\
  (forall g recipes,
     get_changed_recipes benv g = inr recipes ->
     (forall fn, In fn recipes ->
        exists r, Recipe_from_file benv "recipes" fn = inr r) ->
     exists e w',
       bump_body benv (Some g) w = (Raise e, w') /\
       is_NameError e = true /\
       e = match recipes with
           | [] => UnboundLocalError "recipe"
           | _ :: _ => NameError "buildno"
           end) /\
  (forall g recipes,
     fst (@aenter unit cenv (Checkout_init None (Some issue_number), w))
     = Normal (Some g) ->
     get_changed_recipes benv g = inr recipes ->
     (forall fn, In fn recipes ->
        exists r, Recipe_from_file benv "recipes" fn = inr r) ->
     (exists e w', bump cenv benv issue_number w = (Raise e, w')) /\
     (chdir_raises cenv (cwd w) = None ->
      exists e w',
        bump cenv benv issue_number w = (Raise e, w') /\
        is_NameError e = true /\
        e = match recipes with
            | [] => UnboundLocalError "recipe"
            | _ :: _ => NameError "buildno"
            end)).
Proof.
  split; [|split].
  - unfold bump, async_with_Checkout.
    destruct (@aenter_trace unit cenv (Checkout_init None (Some issue_number)) w)
      as (evs1 & Htr1 & Hnc1).
    destruct (@aenter_Normal unit cenv (Checkout_init None (Some issue_number)) w)
      as (v & [self w1] & Hent).
    rewrite Hent in *. cbn [fst snd] in Htr1.
    destruct (bump_body_trace benv v w1) as (evs2 & Htr2 & Hnc2).
    destruct (bump_body benv v w1) as [o w2]. cbn [snd] in Htr2.
    pose proof (@aexit_trace unit cenv self w2) as Htr3.
    destruct (aexit cenv (self, w2)) as [[u|r|e] [self3 w3]]; cbn [fst snd] in *;
      exists (evs1 ++ evs2);
      (split; [rewrite Htr3, Htr2, Htr1, app_assoc; reflexivity
              | now apply no_commit_app]).
  - intros g recipes Hrec Hall.
    destruct (bump_body_Some benv g w) as (o & w' & evs & Hrun & _ & _ & Ho).
    rewrite (Ho recipes Hrec Hall) in Hrun.
    eexists _, _. split; [exact Hrun|]. destruct recipes; split; reflexivity.
  - intros g recipes Hent Hrec Hall.
    unfold bump, async_with_Checkout.
    pose proof (@aenter_state unit cenv None (Some issue_number) w) as [Horig _].
    cbv zeta in Horig.
    destruct (aenter cenv (Checkout_init None (Some issue_number), w))
      as [o1 [self w1]]. cbn [fst snd] in Hent, Horig. subst o1.
    destruct (bump_body_Some benv g w1) as (o & w2 & evs & Hrun & _ & _ & Ho).
    rewrite (Ho recipes Hrec Hall) in Hrun. rewrite Hrun.
    pose proof (@aexit_no_Return unit cenv self w2) as Hnr.
    split.
    + destruct (aexit cenv (self, w2)) as [[u|r|e] [self3 w3]];
        cbn [fst] in Hnr; [eauto|contradiction|eauto].
    + intros Hdir.
      destruct (@aexit_spec unit cenv self w2) as (w3 & Hexit & _).
      { intros d Hd. destruct Horig as [Horig|Horig]; congruence. }
      rewrite Hexit. eexists _, _. split; [reflexivity|].
      destruct recipes; split; reflexivity.
Qed.

(** ** [merge_pr]: the protection check and the retries *)

Lemma merge_pr_indeterminate (self : Task) (env : MergeEnv)
    (pr_number comment_id : Z) (w : World) :
  indeterminate env pr_number ->
  merge_pr self env pr_number comment_id w
  = (if Nat.ltb (request_retries self) 15
     then Raise (Retry 20 15)
     else Return (false, cannot_merge_yet), w).
Proof.
  unfold indeterminate, merge_pr. intros H.
  destruct (check_protections env pr_number _) as [state message].
  cbn in H. subst state. unfold retry.
  destruct (Nat.ltb 15 (request_retries self + 1)) eqn:E1;
    destruct (Nat.ltb (request_retries self) 15) eqn:E2; try reflexivity.
  - apply Nat.ltb_lt in E1, E2. lia.
  - apply Nat.ltb_ge in E1, E2. lia.
Qed.

Lemma merge_pr_failed_checks (self : Task) (env : MergeEnv)
    (pr_number comment_id : Z) (w : World) (message : string) :
  check_protections env pr_number (head_sha (m_get_prs env pr_number))
    = (Some false, message) ->
  merge_pr self env pr_number comment_id w = (Return (false, message), w).
Proof. unfold merge_pr. now intros ->. Qed.

Lemma merge_pr_verdict_ignores_retries (self self' : Task) (env : MergeEnv)
    (pr_number comment_id : Z) (w : World) :
  ~ indeterminate env pr_number ->
  merge_pr self env pr_number comment_id w
  = merge_pr self' env pr_number comment_id w.
Proof.
  unfold indeterminate, merge_pr.
  destruct (check_protections env pr_number _) as [[[|]|] message];
    cbn; [reflexivity|reflexivity|tauto].
Qed.

Lemma set_trace_set_trace (t t' : list event) (w : World) :
  set_trace t (set_trace t' w) = set_trace t w.
Proof. reflexivity. Qed.

Lemma deliver_indeterminate (envs : nat -> MergeEnv) (pr_number comment_id : Z) :
  forall (j r fuel : nat) (w : World),
    r + j = 15 -> j < fuel ->
    (forall k, r <= k <= 15 -> indeterminate (envs k) pr_number) ->
    deliver fuel r envs pr_number comment_id w
    = Some (Return (false, cannot_merge_yet),
            set_trace (trace w ++ repeat (Reschedule 20) j) w).
Proof.
  induction j as [|j IH]; intros r fuel w Hsum Hfuel Hind.
  - destruct fuel as [|fuel]; [lia|]. cbn [deliver].
    rewrite merge_pr_indeterminate by (apply Hind; lia). cbn [request_retries].
    replace (Nat.ltb r 15) with false by (symmetry; apply Nat.ltb_ge; lia).
    cbn [repeat]. rewrite app_nil_r. destruct w; reflexivity.
  - destruct fuel as [|fuel]; [lia|]. cbn [deliver].
    rewrite merge_pr_indeterminate by (apply Hind; lia). cbn [request_retries].
    replace (Nat.ltb r 15) with true by (symmetry; apply Nat.ltb_lt; lia).
    rewrite (IH (S r) fuel) by (try lia; intros k Hk; apply Hind; lia).
    cbn [trace set_trace repeat]. rewrite <- app_assoc. reflexivity.
Qed.

Lemma deliver_prefix (envs : nat -> MergeEnv) (pr_number comment_id : Z) :
  forall (j r fuel : nat) (w : World),
    r + j <= 15 ->
    (forall k, r <= k < r + j -> indeterminate (envs k) pr_number) ->
    deliver (j + fuel) r envs pr_number comment_id w
    = deliver fuel (r + j) envs pr_number comment_id
        (set_trace (trace w ++ repeat (Reschedule 20) j) w).
Proof.
  induction j as [|j IH]; intros r fuel w Hsum Hind.
  - cbn [repeat Nat.add]. rewrite Nat.add_0_r, app_nil_r. now destruct w.
  - cbn [Nat.add deliver].
    rewrite merge_pr_indeterminate by (apply Hind; lia). cbn [request_retries].
    replace (Nat.ltb r 15) with true by (symmetry; apply Nat.ltb_lt; lia).
    rewrite (IH (S r) fuel) by (try lia; intros k Hk; apply Hind; lia).
    cbn [trace set_trace repeat]. rewrite <- app_assoc, <- Nat.add_succ_comm.
    reflexivity.
Qed.

(** C2 as stated does not hold in its last part.  Fifteen executions
    without a verdict and a failing verdict in the sixteenth: the
    sixteenth runs, and its verdict is what the delivery returns, not
    the message of the exhausted budget. *)
Lemma verdict_on_attempt_16_is_honoured :
  (forall k, k < 15 -> indeterminate (late_verdict k) 42) /\
  merge_verdict (late_verdict 15) 42
    = (Some false, "Required status check is failing") /\
  deliver 16 0 late_verdict 42 7 world0
    = Some (Return (false, "Required status check is failing"),
            set_trace (repeat (Reschedule 20) 15) world0) /\
  "Required status check is failing" <> cannot_merge_yet.
Proof.
  split; [|split; [|split]].
  - intros k Hk. do 15 (destruct k as [|k]; [reflexivity|]). lia.
  - reflexivity.
  - vm_compute. reflexivity.
  - discriminate.
Qed.

(** C2 (as amended).  An execution whose protection check gives no
    verdict asks for a retry in 20 seconds while fewer than 15 retries
    lie behind it, and otherwise returns the pair with the message that
    the pull request cannot be merged yet, without raising.  A failing
    verdict is returned with the check's own message, and an execution
    with a verdict does not look at the retries at all.  So a verdict
    in the first execution ends the delivery at once; sixteen
    executions without a verdict (the first and fifteen retries) end it
    with the message of the exhausted budget; and after fifteen
    executions without a verdict, a verdict in the sixteenth is still
    the one returned. *)
Theorem protection_retry_budget (envs : nat -> MergeEnv)
    (pr_number comment_id : Z) (w : World) :
  (forall self env,
     indeterminate env pr_number ->
     merge_pr self env pr_number comment_id w
     = (if Nat.ltb (request_retries self) 15 then Raise (Retry 20 15)
        else Return (false, cannot_merge_yet), w)) /\
  (forall self env message,
     merge_verdict env pr_number = (Some false, message) ->
     merge_pr self env pr_number comment_id w = (Return (false, message), w)) /\
  (forall self self' env,
     ~ indeterminate env pr_number ->
     merge_pr self env pr_number comment_id w
     = merge_pr self' env pr_number comment_id w) /\
  (forall message fuel,
     merge_verdict (envs 0) pr_number = (Some false, message) ->
     deliver (S fuel) 0 envs pr_number comment_id w
     = Some (Return (false, message), w)) /\
  ((forall k, k <= 15 -> indeterminate (envs k) pr_number) ->
   deliver 16 0 envs pr_number comment_id w
   = Some (Return (false, cannot_merge_yet),
           set_trace (trace w ++ repeat (Reschedule 20) 15) w)) /\
  (forall message,
     (forall k, k < 15 -> indeterminate (envs k) pr_number) ->
     merge_verdict (envs 15) pr_number = (Some false, message) ->
     deliver 16 0 envs pr_number comment_id w
     = Some (Return (false, message),
             set_trace (trace w ++ repeat (Reschedule 20) 15) w)).
Proof.
  split; [|split; [|split; [|split; [|split]]]].
  - intros self env H. now apply merge_pr_indeterminate.
  - intros self env message H. now apply merge_pr_failed_checks.
  - intros self self' env H. now apply merge_pr_verdict_ignores_retries.
  - intros message fuel H. cbn [deliver].
    now rewrite (merge_pr_failed_checks _ _ _ _ _ message H).
  - intros H. apply (deliver_indeterminate envs pr_number comment_id 15 0 16 w);
      [lia|lia|]. intros k Hk. apply H. lia.
  - intros message Hind Hv.
    change 16 with (15 + 1).
    rewrite (deliver_prefix envs pr_number comment_id 15 0 1 w)
      by (try lia; intros k Hk; apply Hind; lia).
    cbn [Nat.add deliver].
    now rewrite (merge_pr_failed_checks _ _ _ _ _ message Hv).
Qed.

(** ** [merge_pr]: the upload loops *)

Lemma failed_attempts_S (upload : event) (n : nat) :
  failed_attempts upload (S n) = [upload; Sleep 5] ++ failed_attempts upload n.
Proof. reflexivity. Qed.

Lemma mkWorld_eq c cl s n a t c' cl' s' n' a' t' :
  c = c' -> cl = cl' -> s = s' -> n = n' -> a = a' -> t = t' ->
  mkWorld c cl s n a t = mkWorld c' cl' s' n' a' t'.
Proof. now intros -> -> -> -> -> ->. Qed.

Ltac world_eq w :=
  destruct w;
  cbv [set_cwd set_clones set_scratch set_skopeo_calls set_anaconda_calls
       set_trace cwd clones scratch skopeo_calls anaconda_calls trace];
  first [ apply mkWorld_eq
        | apply (f_equal2 pair); [reflexivity | apply mkWorld_eq] ];
  try reflexivity; try lia; rewrite <- ?app_assoc; reflexivity.

Section UploadLoops.
Variable env : MergeEnv.
Local Abbreviation R := (bool * string)%type.

Lemma call_skopeo_upload_run (fpath ndref : string) (w : World) :
  @call_skopeo_upload env fpath ndref w
  = (Normal (skopeo_upload env (skopeo_calls w) fpath ndref),
     set_skopeo_calls (S (skopeo_calls w))
       (set_trace (trace w ++ [SkopeoUpload fpath ndref]) w)).
Proof. reflexivity. Qed.

Lemma for_range_S (n : nat) (upload : M World R bool) (w : World) :
  for_range (S n) upload w
  = match upload w with
    | (Normal true, w') => (Normal true, w')
    | (Normal false, w') =>
        for_range n upload (set_trace (trace w' ++ [Sleep 5]) w')
    | (Return r, w') => (Return r, w')
    | (Raise e, w') => (Raise e, w')
    end.
Proof.
  cbn [for_range]. unfold bind at 1.
  destruct (upload w) as [[[|]|r|e] w']; reflexivity.
Qed.

Lemma for_range_skopeo_break (fpath ndref : string) :
  forall (N n : nat) (w : World),
    N < n ->
    (forall i, i < N -> skopeo_upload env (skopeo_calls w + i) fpath ndref = false) ->
    skopeo_upload env (skopeo_calls w + N) fpath ndref = true ->
    for_range n (call_skopeo_upload env fpath ndref) w
    = (Normal true,
       set_skopeo_calls (skopeo_calls w + S N)
         (set_trace (trace w ++ failed_attempts (SkopeoUpload fpath ndref) N
                     ++ [SkopeoUpload fpath ndref]) w)).
Proof.
  induction N as [|N IH]; intros n w Hn Hfail Hok;
    (destruct n as [|n]; [lia|]);
    rewrite for_range_S, call_skopeo_upload_run.
  - rewrite Nat.add_0_r in Hok. rewrite Hok. world_eq w.
  - pose proof (Hfail 0 ltac:(lia)) as H0. rewrite Nat.add_0_r in H0.
    rewrite H0, (IH n).
    + rewrite failed_attempts_S. world_eq w.
    + lia.
    + intros i Hi. cbn. rewrite <- Nat.add_succ_r. apply Hfail. lia.
    + cbn. rewrite <- Nat.add_succ_r. exact Hok.
Qed.

Lemma for_range_skopeo_exhaust (fpath ndref : string) :
  forall (n : nat) (w : World),
    (forall i, i < n -> skopeo_upload env (skopeo_calls w + i) fpath ndref = false) ->
    for_range n (call_skopeo_upload env fpath ndref) w
    = (Normal false,
       set_skopeo_calls (skopeo_calls w + n)
         (set_trace (trace w ++ failed_attempts (SkopeoUpload fpath ndref) n) w)).
Proof.
  induction n as [|n IH]; intros w Hfail.
  - cbn. unfold ret. rewrite app_nil_r. world_eq w.
  - rewrite for_range_S, call_skopeo_upload_run.
    pose proof (Hfail 0 ltac:(lia)) as H0. rewrite Nat.add_0_r in H0.
    rewrite H0, IH.
    + rewrite failed_attempts_S. world_eq w.
    + intros i Hi. cbn. rewrite <- Nat.add_succ_r. apply Hfail. lia.
Qed.

Lemma call_anaconda_upload_run (fpath : string) (w : World) :
  @call_anaconda_upload env fpath w
  = (Normal (anaconda_upload env (anaconda_calls w) fpath),
     set_anaconda_calls (S (anaconda_calls w))
       (set_trace (trace w ++ [AnacondaUpload fpath]) w)).
Proof. reflexivity. Qed.

Lemma for_range_anaconda_break (fpath : string) :
  forall (N n : nat) (w : World),
    N < n ->
    (forall i, i < N -> anaconda_upload env (anaconda_calls w + i) fpath = false) ->
    anaconda_upload env (anaconda_calls w + N) fpath = true ->
    for_range n (call_anaconda_upload env fpath) w
    = (Normal true,
       set_anaconda_calls (anaconda_calls w + S N)
         (set_trace (trace w ++ failed_attempts (AnacondaUpload fpath) N
                     ++ [AnacondaUpload fpath]) w)).
Proof.
  induction N as [|N IH]; intros n w Hn Hfail Hok;
    (destruct n as [|n]; [lia|]);
    rewrite for_range_S, call_anaconda_upload_run.
  - rewrite Nat.add_0_r in Hok. rewrite Hok. world_eq w.
  - pose proof (Hfail 0 ltac:(lia)) as H0. rewrite Nat.add_0_r in H0.
    rewrite H0, (IH n).
    + rewrite failed_attempts_S. world_eq w.
    + lia.
    + intros i Hi. cbn. rewrite <- Nat.add_succ_r. apply Hfail. lia.
    + cbn. rewrite <- Nat.add_succ_r. exact Hok.
Qed.

Lemma for_range_anaconda_exhaust (fpath : string) :
  forall (n : nat) (w : World),
    (forall i, i < n -> anaconda_upload env (anaconda_calls w + i) fpath = false) ->
    for_range n (call_anaconda_upload env fpath) w
    = (Normal false,
       set_anaconda_calls (anaconda_calls w + n)
         (set_trace (trace w ++ failed_attempts (AnacondaUpload fpath) n) w)).
Proof.
  induction n as [|n IH]; intros w Hfail.
  - cbn. unfold ret. rewrite app_nil_r. world_eq w.
  - rewrite for_range_S, call_anaconda_upload_run.
    pose proof (Hfail 0 ltac:(lia)) as H0. rewrite Nat.add_0_r in H0.
    rewrite H0, IH.
    + rewrite failed_attempts_S. world_eq w.
    + intros i Hi. cbn. rewrite <- Nat.add_succ_r. apply Hfail. lia.
Qed.

End UploadLoops.

(** ** [merge_pr]: the co-authors *)

Lemma collect_author_eq (pr_author : string) (last : option string)
    (co lo : gset string) (c : Commit) :
  collect_author pr_author (last, co, lo) c
  = (Some (sha c),
     if is_coauthor pr_author c then co ∪ {[coauthor_line c]} else co,
     if is_coauthor pr_author c then lo ∪ {[coauthor_mention c]} else lo).
Proof.
  unfold collect_author, is_coauthor, coauthor_line, coauthor_mention.
  destruct (bool_decide _); [|reflexivity].
  destruct (truthy_str _); reflexivity.
Qed.









(** ** [merge_pr]: the scratch directory and the download *)

Section Frames.
Context {R : Type}.

Lemma keeps_ret {A} (a : A) : keeps_scratch (@ret World R A a).
Proof. intros w. reflexivity. Qed.

Lemma keeps_return {A} (r : R) : keeps_scratch (@return_ World R A r).
Proof. intros w. reflexivity. Qed.

Lemma keeps_raise {A} (e : exn) : keeps_scratch (@raise World R A e).
Proof. intros w. reflexivity. Qed.

Lemma keeps_emit (e : event) : keeps_scratch (@emit R e).
Proof. intros w. reflexivity. Qed.

Lemma keeps_bind {A B} (m : M World R A) (f : A -> M World R B) :
  keeps_scratch m -> (forall a, keeps_scratch (f a)) -> keeps_scratch (bind m f).
Proof.
  intros Hm Hf w. unfold bind. specialize (Hm w).
  destruct (m w) as [[a|r|e] w']; cbn [snd] in *; try assumption.
  now rewrite Hf.
Qed.

Lemma keeps_try_finally {A} (m : M World R A) (cleanup : M World R unit) :
  keeps_scratch m -> keeps_scratch cleanup -> keeps_scratch (try_finally m cleanup).
Proof.
  intros Hm Hc w. unfold try_finally. specialize (Hm w).
  destruct (m w) as [o w']. specialize (Hc w').
  destruct (cleanup w') as [[u|r|e] w'']; cbn [snd] in *; congruence.
Qed.

Lemma normal_ret {A} (a : A) : always_Normal (@ret World R A a).
Proof. intros w. eexists _, _. reflexivity. Qed.

Lemma normal_emit (e : event) : always_Normal (@emit R e).
Proof. intros w. eexists _, _. reflexivity. Qed.

Lemma normal_bind {A B} (m : M World R A) (f : A -> M World R B) :
  always_Normal m -> (forall a, always_Normal (f a)) -> always_Normal (bind m f).
Proof.
  intros Hm Hf w. unfold bind. destruct (Hm w) as (a & w' & ->). apply Hf.
Qed.

Lemma fst_bind_Raise {A B} (m : M World R A) (f : A -> M World R B) w e :
  fst (m w) = Raise e -> fst (bind m f w) = Raise e.
Proof. unfold bind. destruct (m w) as [[a|r|e'] w']; cbn; congruence. Qed.

Lemma fst_bind_cases {A B} (m : M World R A) (f : A -> M World R B) w :
  fst (bind m f w)
  = match fst (m w) with
    | Normal a => fst (f a (snd (m w)))
    | Return r => Return r
    | Raise e => Raise e
    end.
Proof. unfold bind. destruct (m w) as [[a|r|e] w']; reflexivity. Qed.

Lemma fst_bind_Normal {A B} (m : M World R A) (f : A -> M World R B) w o :
  always_Normal m -> (forall a w', fst (f a w') = o) -> fst (bind m f w) = o.
Proof.
  intros Hm Hf. unfold bind. destruct (Hm w) as (a & w' & ->). apply Hf.
Qed.

Lemma fst_try_finally {A} (m : M World R A) (cleanup : M World R unit) w :
  always_Normal cleanup -> fst (try_finally m cleanup w) = fst (m w).
Proof.
  intros Hc. unfold try_finally. destruct (m w) as [o w'].
  destruct (Hc w') as (u & w'' & ->). reflexivity.
Qed.

End Frames.

Section Download.
Variable env : MergeEnv.
Local Abbreviation R := (bool * string)%type.

Lemma open_all_run d files :
  forall fds w,
    open_all env d files (fds, w)
    = (match open_error env d files with
       | Some e => Raise e
       | None => Normal tt
       end,
       (fds ++ opened env d files,
        set_trace (trace w ++ map OpenFd (opened env d files)) w)).
Proof.
  induction files as [|[url path] rest IH]; intros fds w;
    cbn [open_all opened open_error].
  - cbn. rewrite !app_nil_r. now destruct w.
  - destruct (open_raises env (os_path_join d path)) as [e|].
    + cbn. rewrite !app_nil_r. now destruct w.
    + cbv [bind with_fds emit update_state get_state set_fds fst snd].
      rewrite IH. cbn [map]. rewrite <- !app_assoc. cbn [app].
      destruct (open_error env d rest); (f_equal; f_equal; world_eq w).
Qed.

Lemma close_each_run fds :
  forall w,
    close_each fds w
    = (Normal tt, set_trace (trace w ++ map CloseFd fds) w) :> outcome R unit * World.
Proof.
  induction fds as [|fd rest IH]; intros w; cbn [close_each map].
  - cbn. rewrite app_nil_r. now destruct w.
  - cbv [bind emit update_state]. rewrite IH. f_equal. world_eq w.
Qed.

(** The download in one step: it raises what ended it, or gives
    [done = True]; in no case does it give [done = False].  Every file
    that was opened is closed, in the order of opening. *)
Lemma download_run d files w :
  download env d files w
  = (match download_error env d files with
     | Some e => Raise e
     | None => Normal true
     end,
     set_trace (trace w ++ download_events env d files) w).
Proof.
  unfold download, download_error, download_events, try_finally, close_all.
  set (urls := map fst files).
  cbv [bind set_fds update_state get_state fst snd].
  rewrite open_all_run. cbn [app].
  destruct (open_error env d files) as [e|].
  - cbv [with_fds fst snd]. rewrite close_each_run. cbn [trace set_trace app].
    f_equal. world_eq w.
  - cbv [with_fds emit update_state bind fst snd].
    destruct (async_fetch env urls) as [e|];
      cbv [raise ret bind fst snd]; rewrite close_each_run;
      cbn [trace set_trace]; (f_equal; world_eq w).
Qed.

Lemma keeps_download d files : keeps_scratch (download env d files).
Proof. intros w. now rewrite download_run. Qed.

Lemma download_outcome d files w :
  fst (download env d files w)
  = match download_error env d files with
    | Some e => Raise e
    | None => Normal true
    end.
Proof. now rewrite download_run. Qed.

Lemma keeps_for_range n (upload : M World R bool) :
  keeps_scratch upload -> keeps_scratch (for_range n upload).
Proof.
  intros Hu. induction n as [|n IH]; cbn [for_range].
  - apply keeps_ret.
  - apply keeps_bind; [exact Hu|]. intros [|]; [apply keeps_ret|].
    apply keeps_bind; [apply keeps_emit | intros _; exact IH].
Qed.

Lemma normal_for_range n (upload : M World R bool) :
  always_Normal upload -> always_Normal (for_range n upload).
Proof.
  intros Hu. induction n as [|n IH]; cbn [for_range].
  - apply normal_ret.
  - apply normal_bind; [exact Hu|]. intros [|]; [apply normal_ret|].
    apply normal_bind; [apply normal_emit | intros _; exact IH].
Qed.

Lemma keeps_call_skopeo fpath ndref :
  keeps_scratch (call_skopeo_upload env fpath ndref).
Proof. intros w. reflexivity. Qed.

Lemma keeps_call_anaconda fpath : keeps_scratch (call_anaconda_upload env fpath).
Proof. intros w. reflexivity. Qed.

Lemma normal_call_skopeo fpath ndref :
  always_Normal (call_skopeo_upload env fpath ndref).
Proof. intros w. eexists _, _. reflexivity. Qed.

Lemma normal_call_anaconda fpath :
  always_Normal (call_anaconda_upload env fpath).
Proof. intros w. eexists _, _. reflexivity. Qed.

Lemma keeps_upload_images d cid images :
  forall st, keeps_scratch (upload_images env d cid images st).
Proof.
  induction images as [|[fname dref] rest IH]; intros st; cbn [upload_images].
  - apply keeps_ret.
  - apply keeps_bind; [apply keeps_for_range, keeps_call_skopeo|].
    intros [|]; [|apply keeps_return].
    apply keeps_bind; [apply keeps_emit | intros _; apply IH].
Qed.

Lemma keeps_upload_packages d cid packages :
  forall st, keeps_scratch (upload_packages env d cid packages st).
Proof.
  induction packages as [|fname rest IH]; intros st; cbn [upload_packages].
  - apply keeps_ret.
  - apply keeps_bind; [apply keeps_for_range, keeps_call_anaconda|].
    intros [|];
      [|apply keeps_bind; [apply keeps_emit | intros _; apply keeps_return]].
    apply keeps_bind; [apply keeps_emit | intros _; apply IH].
Qed.

End Download.

Section UploadBlock.
Variable env : MergeEnv.
Local Abbreviation R := (bool * string)%type.

Lemma upload_images_outcome d cid images :
  forall st w,
    match fst (upload_images env d cid images st w) with
    | Normal _ => True
    | Return r => r = (false, "Failed to upload image to Quay.io")
    | Raise _ => False
    end.
Proof.
  induction images as [|[fname dref] rest IH]; intros st w; cbn [upload_images].
  - exact I.
  - unfold bind at 1.
    destruct (normal_for_range 5 _
                (normal_call_skopeo env (os_path_join d fname)
                   ("biocontainers/" +:+ dref)) w) as (b & w' & ->).
    destruct b; [|reflexivity]. unfold bind at 1, emit, update_state. apply IH.
Qed.

Lemma upload_packages_outcome d cid packages :
  forall st w,
    match fst (upload_packages env d cid packages st w) with
    | Normal _ => True
    | Return r => r = (false, "Failed to upload package to Anaconda")
    | Raise _ => False
    end.
Proof.
  induction packages as [|fname rest IH]; intros st w; cbn [upload_packages].
  - exact I.
  - unfold bind at 1.
    destruct (normal_for_range 5 _
                (normal_call_anaconda env (os_path_join d fname)) w)
      as (b & w' & ->).
    destruct b; [|reflexivity]. unfold bind at 1, emit, update_state. apply IH.
Qed.

Lemma filter_neq_cons (d : string) (l : list string) :
  List.filter (fun x => negb (String.eqb x d)) (d :: l)
  = List.filter (fun x => negb (String.eqb x d)) l.
Proof. cbn. now rewrite String.eqb_refl. Qed.

Lemma filter_neq_fresh (d : string) (l : list string) :
  ~ In d l -> List.filter (fun x => negb (String.eqb x d)) l = l.
Proof.
  induction l as [|x l IH]; intros Hd; [reflexivity|]. cbn.
  destruct (String.eqb x d) eqn:E.
  - apply String.eqb_eq in E. subst x. destruct Hd. now left.
  - cbn. f_equal. apply IH. intros H. apply Hd. now right.
Qed.

(** The scratch directory is gone after the block, however the block
    ends, and the block's outcome is the statement's. *)
Lemma with_TemporaryDirectory_spec {A} (body : string -> M World R A) w :
  keeps_scratch (body (tmpdir env)) ->
  scratch (snd (with_TemporaryDirectory env body w))
    = List.filter (fun x => negb (String.eqb x (tmpdir env))) (scratch w) /\
  fst (with_TemporaryDirectory env body w)
    = fst (body (tmpdir env)
             (set_scratch (tmpdir env :: scratch w)
                (set_trace (trace w ++ [MkTempDir (tmpdir env)]) w))).
Proof.
  intros Hb. unfold with_TemporaryDirectory, try_finally, bind, emit, update_state.
  cbn [fst snd].
  set (w1 := set_scratch _ (set_trace _ w)).
  specialize (Hb w1). destruct (body (tmpdir env) w1) as [o w2].
  cbn [fst snd] in *. rewrite Hb. subst w1. cbn [scratch set_scratch set_trace].
  now rewrite filter_neq_cons.
Qed.

Lemma keeps_upload_block_body cid files images packages comment d :
  keeps_scratch
    (done <- download env d files;;
     if negb done then return_ download_failed
     else st <- upload_images env d cid images ([], comment);;
          upload_packages env d cid packages st).
Proof.
  apply keeps_bind; [apply keeps_download|]. intros [|]; cbn [negb].
  - apply keeps_bind; [apply keeps_upload_images|].
    intros st. apply keeps_upload_packages.
  - apply keeps_return.
Qed.

Lemma upload_block_scratch cid files images packages comment w :
  scratch (snd (upload_block env cid files images packages comment w))
  = List.filter (fun x => negb (String.eqb x (tmpdir env))) (scratch w).
Proof.
  unfold upload_block.
  apply with_TemporaryDirectory_spec, keeps_upload_block_body.
Qed.

(** How the block ends: it raises exactly when the download raises;
    when it returns, it returns one of the two upload failures. *)
Lemma upload_block_outcome cid files images packages comment w :
  match download_error env (tmpdir env) files with
  | Some e =>
      fst (upload_block env cid files images packages comment w) = Raise e
  | None =>
      match fst (upload_block env cid files images packages comment w) with
      | Normal _ => True
      | Return r => r = (false, "Failed to upload image to Quay.io")
                    \/ r = (false, "Failed to upload package to Anaconda")
      | Raise _ => False
      end
  end.
Proof.
  unfold upload_block.
  destruct (with_TemporaryDirectory_spec
              (fun d =>
                 done <- download env d files;;
                 if negb done then return_ download_failed
                 else st <- upload_images env d cid images ([], comment);;
                      upload_packages env d cid packages st) w
              (keeps_upload_block_body cid files images packages comment _))
    as [_ Hfst].
  unfold download_failed in Hfst. rewrite Hfst. clear Hfst.
  set (w1 := set_scratch _ _).
  rewrite fst_bind_cases, download_outcome.
  destruct (download_error env (tmpdir env) files) as [e|]; [reflexivity|].
  cbn [negb]. rewrite fst_bind_cases.
  generalize (snd (download env (tmpdir env) files w1)). intros w2.
  pose proof (upload_images_outcome (tmpdir env) cid images ([], comment) w2) as Hi.
  destruct (fst (upload_images env (tmpdir env) cid images ([], comment) w2))
    as [st|r|e]; cbv beta iota; [|now left|contradiction].
  generalize (snd (upload_images env (tmpdir env) cid images ([], comment) w2)).
  intros w3.
  pose proof (upload_packages_outcome (tmpdir env) cid packages st w3) as Hp.
  destruct (fst (upload_packages env (tmpdir env) cid packages st w3));
    cbv beta iota; auto.
Qed.

End UploadBlock.

Lemma keeps_finish_merge env pr n cid st :
  keeps_scratch (finish_merge env pr n cid st).
Proof.
  unfold finish_merge. destruct st as [uploaded comment].
  destruct (collect_authors _ _) as [[last co] lo].
  apply keeps_bind; [apply keeps_emit|intros _].
  apply keeps_bind; [apply keeps_emit|intros _]. apply keeps_return.
Qed.

(** [merge_pr] once the checks are passed and some artifact is there. *)
Lemma merge_pr_checked self env n cid w message :
  merge_verdict env n = (Some true, message) ->
  merge_files env n <> [] ->
  merge_pr self env n cid w
  = (let '(files, images, packages) := collect (merge_artifacts env n) in
     let comment := comment_fetching comment_started packages images in
     st <- upload_block env cid files images packages comment;;
     finish_merge env (m_get_prs env n) n cid st)
      (set_trace (trace w ++ [UpdateComment cid comment_started;
                              UpdateComment cid
                                (comment_fetching comment_started
                                   (collect (merge_artifacts env n)).2
                                   (collect (merge_artifacts env n)).1.2)]) w).
Proof.
  unfold merge_verdict, merge_files, merge_pr, merge_artifacts.
  intros -> Hfiles.
  destruct (collect _) as [[files images] packages]. cbn [fst snd] in *.
  destruct files as [|f files]; [contradiction|].
  unfold bind at 1, emit at 1, update_state. cbn [fst snd].
  unfold bind at 1, emit at 1, update_state. cbn [fst snd].
  f_equal. world_eq w.
Qed.

Lemma scratch_bind_keeps {R A B} (m : M World R A) (f : A -> M World R B) w :
  (forall a, keeps_scratch (f a)) ->
  scratch (snd (bind m f w)) = scratch (snd (m w)).
Proof.
  intros Hf. unfold bind. destruct (m w) as [[a|r|e] w']; cbn [snd]; auto.
  apply Hf.
Qed.

Lemma merge_pr_scratch self env n cid w :
  scratch (snd (merge_pr self env n cid w)) = scratch w \/
  scratch (snd (merge_pr self env n cid w))
  = List.filter (fun x => negb (String.eqb x (tmpdir env))) (scratch w).
Proof.
  unfold merge_pr.
  destruct (check_protections env n _) as [[[|]|] message].
  - destruct (collect _) as [[files images] packages].
    destruct files as [|f files]; [left; reflexivity|]. right.
    unfold bind at 1, emit at 1, update_state. cbn [fst snd].
    unfold bind at 1, emit at 1, update_state. cbn [fst snd].
    rewrite scratch_bind_keeps by (intros st; apply keeps_finish_merge).
    now rewrite upload_block_scratch.
  - left. reflexivity.
  - left. destruct (retry self 20 15); reflexivity.
Qed.

(** C1 (what the code does).  The scratch directory, given a fresh
    name, is gone after every execution of [merge_pr], however it ends.
    But when the checks are passed, some artifact is there and the
    download raises (the exception of [async_fetch] when every file
    could be opened, else the one of the first file that could not),
    the handler ends with that exception and returns no pair; and the
    [with] block returns the pair of the failed download in no
    execution at all. *)
Theorem download_failure_escapes_merge_pr (self : Task) (env : MergeEnv)
    (pr_number comment_id : Z) (w : World) :
  (~ In (tmpdir env) (scratch w) ->
   scratch (snd (merge_pr self env pr_number comment_id w)) = scratch w) /\
  (forall message e,
     merge_verdict env pr_number = (Some true, message) ->
     merge_files env pr_number <> [] ->
     download_error env (tmpdir env) (merge_files env pr_number) = Some e ->
     fst (merge_pr self env pr_number comment_id w) = Raise e) /\
  (forall e,
     open_error env (tmpdir env) (merge_files env pr_number) = None ->
     async_fetch env (map fst (merge_files env pr_number)) = Some e ->
     download_error env (tmpdir env) (merge_files env pr_number) = Some e) /\
  (forall files images packages comment w',
     fst (upload_block env comment_id files images packages comment w')
     <> Return download_failed).
Proof.
  split; [|split; [|split]].
  - intros Hfresh.
    destruct (merge_pr_scratch self env pr_number comment_id w) as [H|H];
      rewrite H; [reflexivity|]. now apply filter_neq_fresh.
  - intros message e Hv Hfiles Hfetch.
    rewrite (merge_pr_checked self env pr_number comment_id w message Hv Hfiles).
    unfold merge_files in Hfetch.
    destruct (collect (merge_artifacts env pr_number)) as [[files images] packages].
    cbn [fst snd] in *. apply fst_bind_Raise.
    pose proof (upload_block_outcome env comment_id files images packages
                  (comment_fetching comment_started packages images)) as H.
    match goal with |- fst (upload_block _ _ _ _ _ _ ?w0) = _ => specialize (H w0) end.
    now rewrite Hfetch in H.
  - intros e Hopen Hfetch. unfold download_error. now rewrite Hopen.
  - intros files images packages comment w' H.
    pose proof (upload_block_outcome env comment_id files images packages comment w')
      as Ho.
    rewrite H in Ho. destruct (download_error env (tmpdir env) files).
    + discriminate Ho.
    + destruct Ho as [Ho|Ho]; discriminate Ho.
Qed.

Lemma fst_bind_Return {R A B} (m : M World R A) (f : A -> M World R B) w r :
  fst (m w) = Return r -> fst (bind m f w) = Return r.
Proof. unfold bind. destruct (m w) as [[a|r'|e] w']; cbn; congruence. Qed.

Lemma merge_pr_block_Return self env n cid w message r :
  merge_verdict env n = (Some true, message) ->
  merge_files env n <> [] ->
  fst (merge_upload_block env n cid w) = Return r ->
  fst (merge_pr self env n cid w) = Return r.
Proof.
  intros Hv Hfiles. rewrite (merge_pr_checked self env n cid w message Hv Hfiles).
  unfold merge_upload_block.
  destruct (collect (merge_artifacts env n)) as [[files images] packages].
  cbn [fst snd]. apply fst_bind_Return.
Qed.

Section UploadSteps.
Variable env : MergeEnv.
Local Abbreviation R := (bool * string)%type.

Lemma upload_images_ok d cid fname dref rest uploaded comment N w :
  let fpath := os_path_join d fname in
  let ndref := "biocontainers/" +:+ dref in
  N < 5 ->
  (forall i, i < N -> skopeo_upload env (skopeo_calls w + i) fpath ndref = false) ->
  skopeo_upload env (skopeo_calls w + N) fpath ndref = true ->
  upload_images env d cid ((fname, dref) :: rest) (uploaded, comment) w
  = let comment' := comment +:+ "- [x] Uploaded image " +:+ ndref +:+ nl in
    upload_images env d cid rest (uploaded ++ [ndref], comment')
      (set_skopeo_calls (skopeo_calls w + S N)
         (set_trace (trace w ++ failed_attempts (SkopeoUpload fpath ndref) N
                     ++ [SkopeoUpload fpath ndref]
                     ++ [UpdateComment cid comment']) w)).
Proof.
  intros fpath ndref HN Hfail Hok. cbn [upload_images].
  unfold bind at 1. fold fpath ndref.
  rewrite (for_range_skopeo_break env fpath ndref N 5 w HN Hfail Hok).
  cbn [fst snd]. unfold bind at 1, emit, update_state.
  f_equal. world_eq w.
Qed.

Lemma upload_images_gives_up d cid fname dref rest uploaded comment w :
  let fpath := os_path_join d fname in
  let ndref := "biocontainers/" +:+ dref in
  (forall i, i < 5 -> skopeo_upload env (skopeo_calls w + i) fpath ndref = false) ->
  upload_images env d cid ((fname, dref) :: rest) (uploaded, comment) w
  = (Return (false, "Failed to upload image to Quay.io"),
     set_skopeo_calls (skopeo_calls w + 5)
       (set_trace (trace w ++ failed_attempts (SkopeoUpload fpath ndref) 5) w)).
Proof.
  intros fpath ndref Hfail. cbn [upload_images].
  unfold bind at 1. fold fpath ndref.
  rewrite (for_range_skopeo_exhaust env fpath ndref 5 w Hfail). reflexivity.
Qed.

Lemma upload_packages_ok d cid fname rest uploaded comment N w :
  let fpath := os_path_join d fname in
  N < 5 ->
  (forall i, i < N -> anaconda_upload env (anaconda_calls w + i) fpath = false) ->
  anaconda_upload env (anaconda_calls w + N) fpath = true ->
  upload_packages env d cid (fname :: rest) (uploaded, comment) w
  = let comment' := comment +:+ "- [x] Uploaded package " +:+ fname +:+ nl in
    upload_packages env d cid rest (uploaded ++ [fname], comment')
      (set_anaconda_calls (anaconda_calls w + S N)
         (set_trace (trace w ++ failed_attempts (AnacondaUpload fpath) N
                     ++ [AnacondaUpload fpath]
                     ++ [UpdateComment cid comment']) w)).
Proof.
  intros fpath HN Hfail Hok. cbn [upload_packages].
  unfold bind at 1. fold fpath.
  rewrite (for_range_anaconda_break env fpath N 5 w HN Hfail Hok).
  cbn [fst snd]. unfold bind at 1, emit, update_state.
  f_equal. world_eq w.
Qed.

Lemma upload_packages_gives_up d cid fname rest uploaded comment w :
  let fpath := os_path_join d fname in
  (forall i, i < 5 -> anaconda_upload env (anaconda_calls w + i) fpath = false) ->
  upload_packages env d cid (fname :: rest) (uploaded, comment) w
  = (Return (false, "Failed to upload package to Anaconda"),
     set_anaconda_calls (anaconda_calls w + 5)
       (set_trace (trace w ++ failed_attempts (AnacondaUpload fpath) 5
                   ++ [LogError "Anaconda upload failed, giving up."]) w)).
Proof.
  intros fpath Hfail. cbn [upload_packages].
  unfold bind at 1. fold fpath.
  rewrite (for_range_anaconda_exhaust env fpath 5 w Hfail).
  cbv [bind emit update_state return_]. f_equal. world_eq w.
Qed.

(** The loops over a list in two parts: the second part is run when
    the first ran to its end, from where it ended. *)
Lemma upload_images_app d cid pre rest :
  forall st w,
    upload_images env d cid (pre ++ rest) st w
    = match upload_images env d cid pre st w with
      | (Normal st', w') => upload_images env d cid rest st' w'
      | (Return r, w') => (Return r, w')
      | (Raise e, w') => (Raise e, w')
      end.
Proof.
  induction pre as [|[fname dref] pre IH]; intros st w; [reflexivity|].
  cbn [app upload_images]. unfold bind at 1 3.
  destruct (for_range 5 _ w) as [[[|]|r|e] w1]; try reflexivity.
  unfold bind at 1 2, emit, update_state. cbn [fst snd]. apply IH.
Qed.

Lemma upload_packages_app d cid pre rest :
  forall st w,
    upload_packages env d cid (pre ++ rest) st w
    = match upload_packages env d cid pre st w with
      | (Normal st', w') => upload_packages env d cid rest st' w'
      | (Return r, w') => (Return r, w')
      | (Raise e, w') => (Raise e, w')
      end.
Proof.
  induction pre as [|fname pre IH]; intros st w; [reflexivity|].
  cbn [app upload_packages]. unfold bind.
  destruct (for_range 5 _ w) as [[[|]|r|e] w1]; try reflexivity.
  unfold emit, update_state. cbn [fst snd]. apply IH.
Qed.

End UploadSteps.

(** [merge_pr] in terms of its two upload loops, once the checks are
    passed, some artifact is there and the download went through. *)
Lemma merge_pr_uploads self env n cid w message :
  merge_verdict env n = (Some true, message) ->
  merge_files env n <> [] ->
  download_error env (tmpdir env) (merge_files env n) = None ->
  merge_pr self env n cid w
  = match upload_images env (tmpdir env) cid (merge_images env n)
            ([], merge_comment env n) (after_download env n cid w) with
    | (Normal st, w1) =>
        match upload_packages env (tmpdir env) cid (merge_packages env n) st w1 with
        | (Normal st', w2) =>
            finish_merge env (m_get_prs env n) n cid st' (leave_scratch env w2)
        | (Return r, w2) => (Return r, leave_scratch env w2)
        | (Raise e, w2) => (Raise e, leave_scratch env w2)
        end
    | (Return r, w1) => (Return r, leave_scratch env w1)
    | (Raise e, w1) => (Raise e, leave_scratch env w1)
    end.
Proof.
  intros Hv Hfiles Hdl.
  rewrite (merge_pr_checked self env n cid w message Hv Hfiles).
  unfold after_download, merge_comment, merge_images, merge_packages,
    merge_files in *.
  destruct (collect (merge_artifacts env n)) as [[files images] packages].
  cbn [fst snd] in *.
  unfold upload_block, with_TemporaryDirectory.
  cbv [bind emit update_state try_finally].
  rewrite download_run, Hdl. cbn [fst snd negb trace set_trace set_scratch scratch].
  match goal with
  | |- context [upload_images env (tmpdir env) cid images _ ?w0] =>
      match goal with
      | |- _ = match upload_images env (tmpdir env) cid images _ ?w0' with _ => _ end =>
          replace w0 with w0' by world_eq w
      end
  end.
  destruct (upload_images env (tmpdir env) cid images _ _) as [[st|r|e] w1];
    [|reflexivity|reflexivity].
  destruct (upload_packages env (tmpdir env) cid packages st w1) as [[st'|r|e] w2];
    reflexivity.
Qed.

(** C3.  The upload loops of [merge_pr].  Wherever a loop stands, an
    image or a package whose upload fails [N] times and then succeeds,
    with [N < 5], is tried [N + 1] times (each failure followed by a
    pause of five seconds), is appended to [uploaded], the progress
    comment is updated, and the loop goes on with the rest; one whose
    upload fails five times is tried five times and no more, and the
    loop returns the named failure.  These loops are what [merge_pr]
    runs once the checks are passed and the download went through.  So
    when the images before some image were uploaded and that image is
    refused five times, [merge_pr] returns the failure of the image
    upload, and when all images and the packages before some package
    were uploaded and that package is refused five times, it returns
    the failure of the package upload: in both cases after five
    attempts, with nothing else tried, and in a world that still holds
    all that the earlier uploads did, to which only the five attempts
    and the removal of the scratch directory are added. *)
Theorem upload_loop_attempts (env : MergeEnv) (comment_id : Z) :
  let d := tmpdir env in
  (forall d fname dref rest uploaded comment N w,
     let fpath := os_path_join d fname in
     let ndref := "biocontainers/" +:+ dref in
     N < 5 ->
     (forall i, i < N -> skopeo_upload env (skopeo_calls w + i) fpath ndref = false) ->
     skopeo_upload env (skopeo_calls w + N) fpath ndref = true ->
     upload_images env d comment_id ((fname, dref) :: rest) (uploaded, comment) w
     = let comment' := comment +:+ "- [x] Uploaded image " +:+ ndref +:+ nl in
       upload_images env d comment_id rest (uploaded ++ [ndref], comment')
         (set_skopeo_calls (skopeo_calls w + S N)
            (set_trace (trace w ++ failed_attempts (SkopeoUpload fpath ndref) N
                        ++ [SkopeoUpload fpath ndref]
                        ++ [UpdateComment comment_id comment']) w))) /\
  (forall d fname dref rest uploaded comment w,
     let fpath := os_path_join d fname in
     let ndref := "biocontainers/" +:+ dref in
     (forall i, i < 5 -> skopeo_upload env (skopeo_calls w + i) fpath ndref = false) ->
     upload_images env d comment_id ((fname, dref) :: rest) (uploaded, comment) w
     = (Return (false, "Failed to upload image to Quay.io"),
        set_skopeo_calls (skopeo_calls w + 5)
          (set_trace (trace w ++ failed_attempts (SkopeoUpload fpath ndref) 5) w))) /\
  (forall d fname rest uploaded comment N w,
     let fpath := os_path_join d fname in
     N < 5 ->
     (forall i, i < N -> anaconda_upload env (anaconda_calls w + i) fpath = false) ->
     anaconda_upload env (anaconda_calls w + N) fpath = true ->
     upload_packages env d comment_id (fname :: rest) (uploaded, comment) w
     = let comment' := comment +:+ "- [x] Uploaded package " +:+ fname +:+ nl in
       upload_packages env d comment_id rest (uploaded ++ [fname], comment')
         (set_anaconda_calls (anaconda_calls w + S N)
            (set_trace (trace w ++ failed_attempts (AnacondaUpload fpath) N
                        ++ [AnacondaUpload fpath]
                        ++ [UpdateComment comment_id comment']) w))) /\
  (forall d fname rest uploaded comment w,
     let fpath := os_path_join d fname in
     (forall i, i < 5 -> anaconda_upload env (anaconda_calls w + i) fpath = false) ->
     upload_packages env d comment_id (fname :: rest) (uploaded, comment) w
     = (Return (false, "Failed to upload package to Anaconda"),
        set_anaconda_calls (anaconda_calls w + 5)
          (set_trace (trace w ++ failed_attempts (AnacondaUpload fpath) 5
                      ++ [LogError "Anaconda upload failed, giving up."]) w))) /\
  (forall self pr_number message w,
     merge_verdict env pr_number = (Some true, message) ->
     merge_files env pr_number <> [] ->
     download_error env d (merge_files env pr_number) = None ->
     merge_pr self env pr_number comment_id w
     = match upload_images env d comment_id (merge_images env pr_number)
               ([], merge_comment env pr_number)
               (after_download env pr_number comment_id w) with
       | (Normal st, w1) =>
           match upload_packages env d comment_id (merge_packages env pr_number)
                   st w1 with
           | (Normal st', w2) =>
               finish_merge env (m_get_prs env pr_number) pr_number comment_id st'
                 (leave_scratch env w2)
           | (Return r, w2) => (Return r, leave_scratch env w2)
           | (Raise e, w2) => (Raise e, leave_scratch env w2)
           end
       | (Return r, w1) => (Return r, leave_scratch env w1)
       | (Raise e, w1) => (Raise e, leave_scratch env w1)
       end) /\
  (forall self pr_number message w pre fname dref rest st1 w1,
     let fpath := os_path_join d fname in
     let ndref := "biocontainers/" +:+ dref in
     merge_verdict env pr_number = (Some true, message) ->
     merge_files env pr_number <> [] ->
     download_error env d (merge_files env pr_number) = None ->
     merge_images env pr_number = pre ++ (fname, dref) :: rest ->
     upload_images env d comment_id pre ([], merge_comment env pr_number)
       (after_download env pr_number comment_id w) = (Normal st1, w1) ->
     (forall i, i < 5 -> skopeo_upload env (skopeo_calls w1 + i) fpath ndref = false) ->
     merge_pr self env pr_number comment_id w
     = (Return (false, "Failed to upload image to Quay.io"),
        leave_scratch env
          (set_skopeo_calls (skopeo_calls w1 + 5)
             (set_trace (trace w1 ++ failed_attempts (SkopeoUpload fpath ndref) 5)
                w1)))) /\
  (forall self pr_number message w st0 w0 pre fname rest st1 w1,
     let fpath := os_path_join d fname in
     merge_verdict env pr_number = (Some true, message) ->
     merge_files env pr_number <> [] ->
     download_error env d (merge_files env pr_number) = None ->
     upload_images env d comment_id (merge_images env pr_number)
       ([], merge_comment env pr_number)
       (after_download env pr_number comment_id w) = (Normal st0, w0) ->
     merge_packages env pr_number = pre ++ fname :: rest ->
     upload_packages env d comment_id pre st0 w0 = (Normal st1, w1) ->
     (forall i, i < 5 -> anaconda_upload env (anaconda_calls w1 + i) fpath = false) ->
     merge_pr self env pr_number comment_id w
     = (Return (false, "Failed to upload package to Anaconda"),
        leave_scratch env
          (set_anaconda_calls (anaconda_calls w1 + 5)
             (set_trace (trace w1 ++ failed_attempts (AnacondaUpload fpath) 5
                         ++ [LogError "Anaconda upload failed, giving up."])
                w1)))).
Proof.
  cbv zeta. split; [|split; [|split; [|split; [|split; [|split]]]]].
  - intros d fname dref rest uploaded comment N w. apply upload_images_ok.
  - intros d fname dref rest uploaded comment w. apply upload_images_gives_up.
  - intros d fname rest uploaded comment N w. apply upload_packages_ok.
  - intros d fname rest uploaded comment w. apply upload_packages_gives_up.
  - intros self n message w. apply merge_pr_uploads.
  - intros self n message w pre fname dref rest [uploaded comment] w1
      Hv Hfiles Hdl Himages Hpre Hfail.
    rewrite (merge_pr_uploads self env n comment_id w message Hv Hfiles Hdl).
    rewrite Himages, upload_images_app, Hpre.
    now rewrite (upload_images_gives_up env (tmpdir env) comment_id fname dref
                   rest uploaded comment w1 Hfail).
  - intros self n message w st0 w0 pre fname rest [uploaded comment] w1
      Hv Hfiles Hdl Himages Hpackages Hpre Hfail.
    rewrite (merge_pr_uploads self env n comment_id w message Hv Hfiles Hdl).
    rewrite Himages, Hpackages, upload_packages_app, Hpre.
    now rewrite (upload_packages_gives_up env (tmpdir env) comment_id fname
                   rest uploaded comment w1 Hfail).
Qed.

(** ** [merge_pr]: no artifacts *)

Lemma collect_step_lengths acc a :
  length acc.1.1 = length acc.1.2 + length acc.2 ->
  length (collect_step acc a).1.1
  = length (collect_step acc a).1.2 + length (collect_step acc a).2.
Proof.
  destruct acc as [[files images] packages], a as [[path url] buildno].
  unfold collect_step. cbn [fst snd]. intros H.
  destruct (PACKAGE_RE_match url) as [[[repo_url arch] fname]|].
  - cbn [fst snd]. rewrite !length_app. cbn. lia.
  - destruct (IMAGE_RE_match url) as [[name tag]|]; cbn [fst snd].
    + rewrite !length_app. cbn. lia.
    + exact H.
Qed.

Lemma collect_lengths artifacts :
  length (collect artifacts).1.1
  = length (collect artifacts).1.2 + length (collect artifacts).2.
Proof.
  unfold collect.
  assert (H : forall acc,
             length acc.1.1 = length acc.1.2 + length acc.2 ->
             length (fold_left collect_step artifacts acc).1.1
             = length (fold_left collect_step artifacts acc).1.2
               + length (fold_left collect_step artifacts acc).2).
  { induction artifacts as [|a l IH]; intros acc Hacc; cbn [fold_left];
      [exact Hacc|]. apply IH. now apply collect_step_lengths. }
  now apply H.
Qed.

(** C6.  When the artifacts of the pull request give no image and no
    package: an execution whose checks are passed announces that the
    merge started and returns [(False, "PR did not build any
    packages.")], and no execution, whatever the verdict of the checks,
    opens a scratch directory, downloads or uploads anything. *)
Theorem no_artifacts_no_transfer (self : Task) (env : MergeEnv)
    (pr_number comment_id : Z) (w : World) :
  (collect (merge_artifacts env pr_number)).1.2 = [] ->
  (collect (merge_artifacts env pr_number)).2 = [] ->
  (forall message,
     merge_verdict env pr_number = (Some true, message) ->
     merge_pr self env pr_number comment_id w
     = (Return (false, "PR did not build any packages."),
        set_trace (trace w ++ [UpdateComment comment_id comment_started]) w)) /\
  (exists evs,
     trace (snd (merge_pr self env pr_number comment_id w)) = trace w ++ evs /\
     forallb (fun e => negb (is_transfer e)) evs = true).
Proof.
  intros Himg Hpkg.
  assert (Hfiles : (collect (merge_artifacts env pr_number)).1.1 = []).
  { apply length_zero_iff_nil. rewrite collect_lengths, Himg, Hpkg. reflexivity. }
  unfold merge_verdict, merge_pr. unfold merge_artifacts in Hfiles.
  split.
  - intros message ->.
    destruct (collect _) as [[files images] packages]. cbn [fst snd] in Hfiles.
    subst files. reflexivity.
  - destruct (check_protections env pr_number _) as [[[|]|] message].
    + destruct (collect _) as [[files images] packages]. cbn [fst snd] in Hfiles.
      subst files. eexists [_]. split; reflexivity.
    + exists []. split; [now rewrite app_nil_r | reflexivity].
    + exists []. split; [|reflexivity].
      destruct (retry self 20 15); now rewrite app_nil_r.
Qed.

(** ** Sample runs *)

Example merge_pr_all_uploaded :
  fst (merge_pr (mkTask 0)
         (sample_env (Some true, "") [sample_package; sample_image; sample_log] None
            (fun k => Nat.leb 2 k) (fun _ => true)
            [alice_commit "a1"; bob_commit_home])
         42 7 world0)
  = Return (true, "Pull Request successfully merged").
Proof. vm_compute. reflexivity. Qed.

Example merge_pr_package_upload_gives_up :
  merge_pr (mkTask 0)
    (sample_env (Some true, "") [sample_image; sample_package] None
       (fun _ => true) (fun _ => false) [alice_commit "a1"])
    42 7 world0
  = (Return (false, "Failed to upload package to Anaconda"),
     mkWorld "/home/bot" [] [] 1 5
       [UpdateComment 7 comment_started;
        UpdateComment 7 (comment_started +:+ "- [x] Fetching 1 packages and 1 images" +:+ nl);
        MkTempDir "/tmp/tmpk3x0";
        OpenFd "/tmp/tmpk3x0/x__1.0--0.tar.gz";
        OpenFd "/tmp/tmpk3x0/noarch/x-1.0-0.tar.bz2";
        AsyncFetch ["https://ci/0/images/x%3A1.0--0.tar.gz";
                    "https://ci/0/packages/noarch/x-1.0-0.tar.bz2"];
        LogError "Done downloading";
        CloseFd "/tmp/tmpk3x0/x__1.0--0.tar.gz";
        CloseFd "/tmp/tmpk3x0/noarch/x-1.0-0.tar.bz2";
        SkopeoUpload "/tmp/tmpk3x0/x__1.0--0.tar.gz" "biocontainers/x:1.0--0";
        UpdateComment 7
          (comment_started +:+ "- [x] Fetching 1 packages and 1 images" +:+ nl
           +:+ "- [x] Uploaded image biocontainers/x:1.0--0" +:+ nl);
        AnacondaUpload "/tmp/tmpk3x0/noarch/x-1.0-0.tar.bz2"; Sleep 5;
        AnacondaUpload "/tmp/tmpk3x0/noarch/x-1.0-0.tar.bz2"; Sleep 5;
        AnacondaUpload "/tmp/tmpk3x0/noarch/x-1.0-0.tar.bz2"; Sleep 5;
        AnacondaUpload "/tmp/tmpk3x0/noarch/x-1.0-0.tar.bz2"; Sleep 5;
        AnacondaUpload "/tmp/tmpk3x0/noarch/x-1.0-0.tar.bz2"; Sleep 5;
        LogError "Anaconda upload failed, giving up.";
        RmTempDir "/tmp/tmpk3x0"]).
Proof. vm_compute. reflexivity. Qed.

Example merge_pr_package_cannot_be_opened :
  merge_pr (mkTask 0) (unopenable_env [sample_image; sample_package] []) 42 7 world0
  = (Raise (Exception "NotADirectoryError"),
     mkWorld "/home/bot" [] [] 0 0
       [UpdateComment 7 comment_started;
        UpdateComment 7 (comment_started +:+ "- [x] Fetching 1 packages and 1 images" +:+ nl);
        MkTempDir "/tmp/tmpk3x0";
        OpenFd "/tmp/tmpk3x0/x__1.0--0.tar.gz";
        CloseFd "/tmp/tmpk3x0/x__1.0--0.tar.gz";
        RmTempDir "/tmp/tmpk3x0"]).
Proof. vm_compute. reflexivity. Qed.

Example bump_on_a_working_checkout :
  bump checkout_works one_changed_recipe 42 world0
  = (Raise (NameError "buildno"),
     set_trace [ResetBuildnumber "Recipe samtools/meta.yaml" 1;
                RecipeSave "Recipe samtools/meta.yaml"] world0).
Proof. vm_compute. reflexivity. Qed.

(** ** The theorems at sample inputs *)

Lemma download_failure_escapes_merge_pr_witness :
  let env := sample_env (Some true, "") [sample_package] (Some (Exception "ClientResponseError"))
               (fun _ => true) (fun _ => true) [] in
  merge_verdict env 42 = (Some true, "") /\
  merge_files env 42 <> [] /\
  open_error env (tmpdir env) (merge_files env 42) = None /\
  async_fetch env (map fst (merge_files env 42)) = Some (Exception "ClientResponseError") /\
  fst (merge_pr (mkTask 0) env 42 7 world0) = Raise (Exception "ClientResponseError") /\
  scratch (snd (merge_pr (mkTask 0) env 42 7 world0)) = scratch world0.
Proof.
  intros env.
  assert (H1 : merge_verdict env 42 = (Some true, "")) by reflexivity.
  assert (H2 : merge_files env 42 <> []) by (vm_compute; discriminate).
  assert (H3 : open_error env (tmpdir env) (merge_files env 42) = None)
    by reflexivity.
  assert (H4 : async_fetch env (map fst (merge_files env 42))
               = Some (Exception "ClientResponseError")) by reflexivity.
  destruct (download_failure_escapes_merge_pr (mkTask 0) env 42 7 world0)
    as (Hs & Hr & Hd & _).
  split; [exact H1|]. split; [exact H2|]. split; [exact H3|].
  split; [exact H4|]. split.
  - exact (Hr "" _ H1 H2 (Hd _ H3 H4)).
  - apply Hs. simpl. tauto.
Defined.

Lemma protection_retry_budget_witness :
  let envs := fun _ : nat =>
    sample_env (None, "") [] None (fun _ => true) (fun _ => true) [] in
  (forall k, k <= 15 -> indeterminate (envs k) 42) /\
  deliver 16 0 envs 42 7 world0
  = Some (Return (false, cannot_merge_yet),
          set_trace (trace world0 ++ repeat (Reschedule 20) 15) world0).
Proof.
  intros envs.
  assert (H : forall k, k <= 15 -> indeterminate (envs k) 42)
    by (intros k _; reflexivity).
  split; [exact H|].
  exact (proj1 (proj2 (proj2 (proj2 (proj2
           (protection_retry_budget envs 42 7 world0))))) H).
Defined.

Lemma upload_loop_attempts_witness :
  let env := sample_env (Some true, "") [sample_image; sample_package] None
               (fun k => Nat.leb 2 k) (fun _ => false) [alice_commit "a1"] in
  let d := tmpdir env in
  let fpath := os_path_join d "noarch/x-1.0-0.tar.bz2" in
  let images_done :=
    upload_images env d 7 (merge_images env 42) ([], merge_comment env 42)
      (after_download env 42 7 world0) in
  let st0 := (["biocontainers/x:1.0--0"],
              merge_comment env 42
              +:+ "- [x] Uploaded image biocontainers/x:1.0--0" +:+ nl) in
  let w0 := snd images_done in
  merge_verdict env 42 = (Some true, "") /\
  merge_files env 42 <> [] /\
  download_error env d (merge_files env 42) = None /\
  images_done = (Normal st0, w0) /\
  merge_packages env 42 = [] ++ "noarch/x-1.0-0.tar.bz2" :: [] /\
  upload_packages env d 7 [] st0 w0 = (Normal st0, w0) /\
  (forall i, i < 5 -> anaconda_upload env (anaconda_calls w0 + i) fpath = false) /\
  skopeo_calls w0 = 3 /\
  merge_pr (mkTask 0) env 42 7 world0
  = (Return (false, "Failed to upload package to Anaconda"),
     leave_scratch env
       (set_anaconda_calls (anaconda_calls w0 + 5)
          (set_trace (trace w0 ++ failed_attempts (AnacondaUpload fpath) 5
                      ++ [LogError "Anaconda upload failed, giving up."])
             w0))).
Proof.
  intros env d fpath images_done st0 w0.
  assert (H1 : merge_verdict env 42 = (Some true, "")) by reflexivity.
  assert (H2 : merge_files env 42 <> []) by (vm_compute; discriminate).
  assert (H3 : download_error env d (merge_files env 42) = None)
    by (vm_compute; reflexivity).
  assert (H4 : images_done = (Normal st0, w0)) by (vm_compute; reflexivity).
  assert (H5 : merge_packages env 42 = [] ++ "noarch/x-1.0-0.tar.bz2" :: [])
    by (vm_compute; reflexivity).
  assert (H6 : upload_packages env d 7 [] st0 w0 = (Normal st0, w0))
    by reflexivity.
  assert (H7 : forall i, i < 5 ->
            anaconda_upload env (anaconda_calls w0 + i) fpath = false)
    by reflexivity.
  assert (H8 : skopeo_calls w0 = 3) by (vm_compute; reflexivity).
  split; [exact H1|]. split; [exact H2|]. split; [exact H3|].
  split; [exact H4|]. split; [exact H5|]. split; [exact H6|].
  split; [exact H7|]. split; [exact H8|].
  exact (proj2 (proj2 (proj2 (proj2 (proj2 (proj2
           (upload_loop_attempts env 7))))))
           (mkTask 0) 42%Z "" world0 st0 w0 [] "noarch/x-1.0-0.tar.bz2" [] st0 w0
           H1 H2 H3 H4 H5 H6 H7).
Defined.

Lemma scope_exit_leaks_when_chdir_fails_witness :
  let entered := @aenter unit old_directory_gone
                   (Checkout_init None (Some 42%Z), world0) in
  let left := async_with_Checkout old_directory_gone
                (Checkout_init None (Some 42%Z))
                (fun _ => return_ tt : M World unit unit) world0 in
  cwd world0 <> "" /\
  chdir_raises old_directory_gone (cwd world0)
  = Some (Exception "FileNotFoundError: /home/bot") /\
  orig_cwd (fst (snd entered)) <> None /\
  left = (Raise (Exception "FileNotFoundError: /home/bot"),
          mkWorld "/tmp/tmpclone7" ["/tmp/tmpclone7"] [] 0 0 []).
Proof.
  intros entered left.
  assert (H1 : cwd world0 <> "") by (simpl; discriminate).
  assert (H2 : chdir_raises old_directory_gone (cwd world0)
               = Some (Exception "FileNotFoundError: /home/bot")) by reflexivity.
  assert (H3 : orig_cwd (fst (snd entered)) <> None) by (vm_compute; discriminate).
  split; [exact H1|]. split; [exact H2|]. split; [exact H3|].
  destruct (proj2 (@scope_exit_leaks_when_chdir_fails unit unit old_directory_gone
                     None (Some 42%Z) (fun _ => return_ tt) world0 H1) _ H2 H3)
    as (v & _ & Hleft & _).
  exact Hleft.
Defined.

Lemma repodata_link_iff_sibling_in_batch_witness :
  [sample_package; sample_repodata] ≡ₚ [sample_repodata; sample_package] /\
  (classify_artifacts [sample_package; sample_repodata]).1.1
    ≡ₚ (classify_artifacts [sample_repodata; sample_package]).1.1 /\
  (classify_artifacts [sample_package; sample_repodata]).2
    = (classify_artifacts [sample_repodata; sample_package]).2 /\
  mkPackage "noarch" "x-1.0-0.tar.bz2" "https://ci/0/packages/noarch/x-1.0-0.tar.bz2"
    "[repodata.json](https://ci/0/packages/noarch/repodata.json)"
    ∈ (classify_artifacts [sample_package; sample_repodata]).1.1.
Proof.
  assert (H : [sample_package; sample_repodata] ≡ₚ [sample_repodata; sample_package])
    by apply perm_swap.
  destruct (repodata_link_iff_sibling_in_batch _ _ H) as (_ & Hg & Hp & _ & Hr).
  split; [exact H|]. split; [exact Hp|]. split; [exact Hr|].
  exact (Hg sample_package "https://ci/0" noarch "x-1.0-0"
           (or_introl eq_refl) eq_refl eq_refl eq_refl eq_refl
           ltac:(discriminate)).
Defined.

Lemma no_artifacts_no_transfer_witness :
  let env := sample_env (Some true, "") [sample_log] None
               (fun _ => true) (fun _ => true) [] in
  (collect (merge_artifacts env 42)).1.2 = [] /\
  (collect (merge_artifacts env 42)).2 = [] /\
  merge_verdict env 42 = (Some true, "") /\
  merge_pr (mkTask 0) env 42 7 world0
  = (Return (false, "PR did not build any packages."),
     set_trace (trace world0 ++ [UpdateComment 7 comment_started]) world0).
Proof.
  intros env.
  assert (H1 : (collect (merge_artifacts env 42)).1.2 = []) by (vm_compute; reflexivity).
  assert (H2 : (collect (merge_artifacts env 42)).2 = []) by (vm_compute; reflexivity).
  assert (H3 : merge_verdict env 42 = (Some true, "")) by reflexivity.
  split; [exact H1|]. split; [exact H2|]. split; [exact H3|].
  exact (proj1 (no_artifacts_no_transfer (mkTask 0) env 42 7 world0 H1 H2) "" H3).
Defined.


Lemma aenter_converts_exceptions_to_None_witness :
  let s := (mkCheckout (Some "/home/bot") (Some sample_clone) None (Some 42%Z),
            set_clones ["/tmp/tmpclone7"] (set_cwd "/tmp/tmpclone7" world0)) in
  aenter_try branch_not_found (Checkout_init None (Some 42%Z), world0)
  = (Raise (RuntimeError
              "Failed to find add-samtools:None in <TempBiocondaRepo /tmp/tmpclone7>"), s) /\
  @aenter unit branch_not_found (Checkout_init None (Some 42%Z), world0)
  = (Normal None,
     (fst s,
      set_trace [LogException
                   "Error while checking out with <GitHubHandler bioconda/bioconda-recipes>"]
        (snd s))).
Proof.
  intros s.
  assert (H : aenter_try branch_not_found (Checkout_init None (Some 42%Z), world0)
              = (Raise (RuntimeError
                   "Failed to find add-samtools:None in <TempBiocondaRepo /tmp/tmpclone7>"), s))
    by reflexivity.
  split; [exact H|].
  exact (proj1 (proj2 (@aenter_converts_exceptions_to_None unit branch_not_found
                         (Checkout_init None (Some 42%Z)) world0)) _ _ H).
Defined.

Lemma bump_raises_NameError_witness :
  fst (@aenter unit checkout_works (Checkout_init None (Some 42%Z), world0))
  = Normal (Some sample_clone) /\
  get_changed_recipes one_changed_recipe sample_clone = inr ["samtools/meta.yaml"] /\
  (forall fn, In fn ["samtools/meta.yaml"] ->
     exists r, Recipe_from_file one_changed_recipe "recipes" fn = inr r) /\
  chdir_raises checkout_works (cwd world0) = None /\
  exists e w',
    bump checkout_works one_changed_recipe 42 world0 = (Raise e, w') /\
    is_NameError e = true /\ e = NameError "buildno".
Proof.
  assert (H0 : fst (@aenter unit checkout_works
                      (Checkout_init None (Some 42%Z), world0))
               = Normal (Some sample_clone)) by reflexivity.
  assert (H1 : get_changed_recipes one_changed_recipe sample_clone
               = inr ["samtools/meta.yaml"]) by reflexivity.
  assert (H2 : forall fn, In fn ["samtools/meta.yaml"] ->
            exists r, Recipe_from_file one_changed_recipe "recipes" fn = inr r)
    by (intros fn _; eexists; reflexivity).
  assert (H3 : chdir_raises checkout_works (cwd world0) = None) by reflexivity.
  split; [exact H0|]. split; [exact H1|]. split; [exact H2|]. split; [exact H3|].
  exact (proj2 (proj2 (proj2 (bump_raises_NameError checkout_works
                                one_changed_recipe 42 world0))
                  sample_clone ["samtools/meta.yaml"] H0 H1 H2) H3).
Defined.


(* ===================================================================== *)
(** * Further properties *)
(* ===================================================================== *)

(** ** The two patterns *)

Lemma PACKAGE_RE_match_shape (url repo_url arch fname : string) :
  PACKAGE_RE_match url = Some (repo_url, arch, fname) ->
  exists base stem tail,
    repo_url = base +:+ "packages" /\
    (exists a, arch = Arch_name a) /\
    fname = stem +:+ ".tar.bz2" /\ stem <> "" /\
    (tail = "" \/ tail = nl) /\
    url = repo_url +:+ "/" +:+ arch +:+ "/" +:+ fname +:+ tail.
Proof.
  intros H. apply PACKAGE_RE_match_inv in H
    as (base & stem & tail & Hrepo & Harch & Hf & Hstem & Htail & Hurl).
  exists base, stem, tail. repeat split; try assumption.
  - cbn in Harch. destruct Harch as [<-|[<-|[<-|[]]]];
      [exists osx_64|exists linux_64|exists noarch]; reflexivity.
  - destruct tail as [|c [|c' t]]; [now left| |discriminate].
    right. cbn in Htail. apply Ascii.eqb_eq in Htail. now subst c.
Qed.

Lemma IMAGE_RE_match_shape (url name tag : string) :
  IMAGE_RE_match url = Some (name, tag) ->
  exists base sep tail,
    name <> "" /\ tag <> "" /\ (sep = ":" \/ sep = "%3A") /\
    (tail = "" \/ tail = nl) /\
    url = base +:+ "images/" +:+ name +:+ sep +:+ tag +:+ ".tar.gz" +:+ tail.
Proof.
  intros H. apply IMAGE_RE_match_inv in H
    as (base & sep & tail & Hn & Ht & Hsep & Htail & Hurl).
  exists base, sep, tail. repeat split; try assumption.
  destruct tail as [|c [|c' t]]; [now left| |discriminate].
  right. cbn in Htail. apply Ascii.eqb_eq in Htail. now subst c.
Qed.

(** X1.  What [PACKAGE_RE] extracts: the URL is the repository part,
    which ends in [packages], then one of the three architectures, then
    a file name that ends in [.tar.bz2] after at least one character,
    with slashes between them and at most a line feed after. *)
Theorem PACKAGE_RE_groups (url repo_url arch fname : string) :
  PACKAGE_RE_match url = Some (repo_url, arch, fname) ->
  exists base stem tail,
    repo_url = base +:+ "packages" /\
    (exists a, arch = Arch_name a) /\
    fname = stem +:+ ".tar.bz2" /\ stem <> "" /\
    (tail = "" \/ tail = nl) /\
    url = repo_url +:+ "/" +:+ arch +:+ "/" +:+ fname +:+ tail.
Proof. apply PACKAGE_RE_match_shape. Qed.

(** X2.  A URL of the documented form
    [<path>/packages/<arch>/<name>.tar.bz2], with a non-empty [<name>]
    free of slashes, is matched with exactly these parts, whatever
    [<path>] holds (other [packages] segments included). *)
Theorem PACKAGE_RE_matches_documented_form (path : string) (a : Arch)
    (name : string) :
  no_newline path = true -> no_newline name = true -> no_slash name = true ->
  name <> "" ->
  PACKAGE_RE_match
    (path +:+ "/packages/" +:+ Arch_name a +:+ "/" +:+ name +:+ ".tar.bz2")
  = Some (path +:+ "/packages", Arch_name a, name +:+ ".tar.bz2").
Proof. apply PACKAGE_RE_match_grammar. Qed.

Lemma PACKAGE_RE_matches_documented_form_witness :
  no_newline "https://ci/packages/old" = true /\
  no_newline "samtools-1.9-0" = true /\
  no_slash "samtools-1.9-0" = true /\
  PACKAGE_RE_match
    ("https://ci/packages/old" +:+ "/packages/" +:+ Arch_name linux_64 +:+ "/"
     +:+ "samtools-1.9-0" +:+ ".tar.bz2")
  = Some ("https://ci/packages/old" +:+ "/packages", Arch_name linux_64,
          "samtools-1.9-0" +:+ ".tar.bz2").
Proof.
  split; [reflexivity|]. split; [reflexivity|]. split; [reflexivity|].
  exact (PACKAGE_RE_matches_documented_form "https://ci/packages/old" linux_64
           "samtools-1.9-0" eq_refl eq_refl eq_refl ltac:(discriminate)).
Defined.

(** X3.  What [IMAGE_RE] extracts: the URL holds [images/], then a
    non-empty name, a colon or [%3A], a non-empty tag and [.tar.gz],
    with at most a line feed after. *)
Theorem IMAGE_RE_groups (url name tag : string) :
  IMAGE_RE_match url = Some (name, tag) ->
  exists base sep tail,
    name <> "" /\ tag <> "" /\ (sep = ":" \/ sep = "%3A") /\
    (tail = "" \/ tail = nl) /\
    url = base +:+ "images/" +:+ name +:+ sep +:+ tag +:+ ".tar.gz" +:+ tail.
Proof. apply IMAGE_RE_match_shape. Qed.

Lemma backwards_append (a b : string) :
  backwards (a +:+ b) = backwards b ++ backwards a.
Proof.
  unfold backwards. induction a as [|c a IH]; [now rewrite app_nil_r|].
  rewrite append_cons. cbn [list_ascii_of_string rev]. rewrite IH.
  now rewrite app_assoc.
Qed.

(** X4.  No URL is a package and an image: one that [PACKAGE_RE]
    matches is not matched by [IMAGE_RE], so the order in which the
    handlers try the two patterns decides nothing. *)
Theorem package_and_image_exclusive (url : string) :
  PACKAGE_RE_match url <> None -> IMAGE_RE_match url = None.
Proof.
  intros Hp.
  destruct (PACKAGE_RE_match url) as [[[repo arch] fname]|] eqn:Epkg;
    [clear Hp|contradiction].
  destruct (IMAGE_RE_match url) as [[name tag]|] eqn:Eimg; [exfalso|reflexivity].
  apply PACKAGE_RE_match_shape in Epkg
    as (base & stem & t1 & _ & _ & -> & _ & Ht1 & Hurl).
  apply IMAGE_RE_match_shape in Eimg as (b2 & sep & t2 & _ & _ & _ & Ht2 & Hurl2).
  rewrite Hurl in Hurl2. apply (f_equal backwards) in Hurl2.
  rewrite !backwards_append in Hurl2.
  destruct Ht1 as [-> | ->], Ht2 as [-> | ->]; cbn in Hurl2; discriminate Hurl2.
Qed.

Lemma package_and_image_exclusive_witness :
  PACKAGE_RE_match "https://ci/0/images/packages/noarch/x:1.tar.bz2" <> None /\
  IMAGE_RE_match "https://ci/0/images/packages/noarch/x:1.tar.bz2" = None.
Proof.
  assert (H : PACKAGE_RE_match "https://ci/0/images/packages/noarch/x:1.tar.bz2" <> None)
    by (vm_compute; discriminate).
  split; [exact H|]. exact (package_and_image_exclusive _ H).
Defined.

Lemma PACKAGE_RE_groups_witness :
  PACKAGE_RE_match "https://ci/0/packages/osx-64/x-1.0-0.tar.bz2"
    = Some ("https://ci/0/packages", "osx-64", "x-1.0-0.tar.bz2") /\
  exists base stem tail,
    "https://ci/0/packages" = base +:+ "packages" /\
    (exists a, "osx-64" = Arch_name a) /\
    "x-1.0-0.tar.bz2" = stem +:+ ".tar.bz2" /\ stem <> "" /\
    (tail = "" \/ tail = nl) /\
    "https://ci/0/packages/osx-64/x-1.0-0.tar.bz2"
    = "https://ci/0/packages" +:+ "/" +:+ "osx-64" +:+ "/" +:+ "x-1.0-0.tar.bz2" +:+ tail.
Proof.
  assert (H : PACKAGE_RE_match "https://ci/0/packages/osx-64/x-1.0-0.tar.bz2"
              = Some ("https://ci/0/packages", "osx-64", "x-1.0-0.tar.bz2"))
    by reflexivity.
  split; [exact H|]. exact (PACKAGE_RE_groups _ _ _ _ H).
Defined.

Lemma IMAGE_RE_groups_witness :
  IMAGE_RE_match "https://ci/0/images/x%3A1.0--0.tar.gz" = Some ("x", "1.0--0") /\
  exists base sep tail,
    "x" <> "" /\ "1.0--0" <> "" /\ (sep = ":" \/ sep = "%3A") /\
    (tail = "" \/ tail = nl) /\
    "https://ci/0/images/x%3A1.0--0.tar.gz"
    = base +:+ "images/" +:+ "x" +:+ sep +:+ "1.0--0" +:+ ".tar.gz" +:+ tail.
Proof.
  assert (H : IMAGE_RE_match "https://ci/0/images/x%3A1.0--0.tar.gz"
              = Some ("x", "1.0--0")) by reflexivity.
  split; [exact H|]. exact (IMAGE_RE_groups _ _ _ H).
Defined.

(** ** [merge_pr]: what is downloaded *)

Lemma collect_step_eq files images packages (a : artifact) :
  collect_step (files, images, packages) a
  = (files ++ option_list (file_of a),
     images ++ option_list (image_entry_of a),
     packages ++ option_list (package_entry_of a)).
Proof.
  destruct a as [[path url] buildno].
  unfold collect_step, file_of, image_entry_of, package_entry_of, artifact_url.
  cbn [fst snd].
  destruct (PACKAGE_RE_match url) as [[[repo_url arch] fname]|].
  - cbn [option_list]. now rewrite ?app_nil_r.
  - destruct (IMAGE_RE_match url) as [[name tag]|];
      cbn [option_list]; now rewrite ?app_nil_r.
Qed.

Lemma collect_fold (l : list artifact) :
  forall files images packages,
    fold_left collect_step l (files, images, packages)
    = (files ++ omap file_of l, images ++ omap image_entry_of l,
       packages ++ omap package_entry_of l).
Proof.
  induction l as [|a l IH]; intros files images packages.
  - cbn. now rewrite !app_nil_r.
  - cbn [fold_left]. rewrite collect_step_eq, IH, !omap_cons_list, <- !app_assoc.
    reflexivity.
Qed.

Lemma collect_eq (l : list artifact) :
  collect l = (omap file_of l, omap image_entry_of l, omap package_entry_of l).
Proof. unfold collect. now rewrite collect_fold. Qed.

(** X5.  [merge_pr] downloads the URLs of the artifact list that one of
    the two patterns matches, each as often as it is listed and in the
    order of the list, and nothing else. *)
Theorem merge_downloads_recognised_urls (artifacts : list artifact) :
  map fst (collect artifacts).1.1
  = List.filter recognised (map artifact_url artifacts).
Proof.
  rewrite collect_eq. cbn [fst snd].
  induction artifacts as [|a l IH]; [reflexivity|].
  rewrite omap_cons_list, map_app, IH. cbn [map List.filter].
  unfold file_of, recognised.
  destruct (PACKAGE_RE_match (artifact_url a)) as [[[repo arch] fname]|];
    [reflexivity|].
  destruct (IMAGE_RE_match (artifact_url a)) as [[name tag]|]; reflexivity.
Qed.

(** X6.  [merge_pr] and [check_circle_artifacts] agree on an artifact
    list: the packages and images that [merge_pr] uploads are those that
    the artifacts comment lists, in the same order, each package under
    [<arch>/<fname>] and each image as [<name>:<tag>] from the file
    [<name>__<tag>.tar.gz]. *)
Theorem merge_uploads_what_the_comment_lists (artifacts : list artifact) :
  (collect artifacts).2 = map package_path (classify_artifacts artifacts).1.1 /\
  (collect artifacts).1.2 = map image_entry (classify_artifacts artifacts).1.2.
Proof.
  rewrite collect_eq, classify_artifacts_eq. cbn [fst snd].
  generalize (list_to_set (map artifact_url artifacts) : gset string). intros U.
  split; induction artifacts as [|a l IH]; try reflexivity;
    rewrite !omap_cons_list, map_app, IH; f_equal.
  - unfold package_entry_of, package_of.
    destruct (PACKAGE_RE_match (artifact_url a)) as [[[repo arch] fname]|];
      reflexivity.
  - unfold image_entry_of, image_of.
    destruct (PACKAGE_RE_match (artifact_url a)) as [[[repo arch] fname]|];
      [reflexivity|].
    destruct (IMAGE_RE_match (artifact_url a)) as [[name tag]|]; reflexivity.
Qed.

Lemma os_path_join_relative (a b : string) :
  starts_with_slash b = false ->
  os_path_join a b
  = if String.eqb a "" || ends_with_slash a then a +:+ b else a +:+ "/" +:+ b.
Proof.
  destruct b as [|[[] [] [] [] [] [] [] []] b]; intros H;
    try reflexivity; discriminate H.
Qed.

Lemma os_path_join_absolute (a b : string) :
  starts_with_slash b = true -> os_path_join a b = b.
Proof.
  destruct b as [|[[] [] [] [] [] [] [] []] b]; intros H;
    try reflexivity; discriminate H.
Qed.

(** [os.path.join(d, os.path.join(arch, fname))] for what
    [PACKAGE_RE] extracts, in a directory [d] that is not empty and has
    no slash at its end. *)
Lemma nested_path_join (d url repo_url arch fname : string) :
  PACKAGE_RE_match url = Some (repo_url, arch, fname) ->
  d <> "" -> ends_with_slash d = false ->
  os_path_join d (os_path_join arch fname)
  = if starts_with_slash fname then fname
    else d +:+ "/" +:+ arch +:+ "/" +:+ fname.
Proof.
  intros Hm Hd Hslash.
  apply PACKAGE_RE_match_shape in Hm as (_ & _ & _ & _ & [a ->] & _).
  assert (Hd' : String.eqb d "" = false) by now apply String.eqb_neq.
  destruct (starts_with_slash fname) eqn:Hf.
  - rewrite (os_path_join_absolute _ fname Hf). now apply os_path_join_absolute.
  - rewrite (os_path_join_relative _ fname Hf).
    replace (String.eqb (Arch_name a) "" || ends_with_slash (Arch_name a))
      with false by (destruct a; reflexivity).
    rewrite os_path_join_relative by (destruct a; reflexivity).
    now rewrite Hd', Hslash.
Qed.

(** ** [merge_pr]: the events of a run *)

Section Emits.
Context {R : Type}.
Variable P : event -> bool.

Lemma emits_ret {A} (a : A) : emits P (@ret World R A a).
Proof. intros w. exists []. now rewrite app_nil_r. Qed.

Lemma emits_return {A} (r : R) : emits P (@return_ World R A r).
Proof. intros w. exists []. now rewrite app_nil_r. Qed.

Lemma emits_raise {A} (e : exn) : emits P (@raise World R A e).
Proof. intros w. exists []. now rewrite app_nil_r. Qed.

Lemma emits_emit (e : event) : P e = true -> emits P (@emit R e).
Proof. intros He w. exists [e]. cbn. now rewrite He. Qed.

Lemma emits_weaken {A} (Q : event -> bool) (m : M World R A) :
  (forall e, P e = true -> Q e = true) -> emits P m -> emits Q m.
Proof.
  intros HPQ Hm w. destruct (Hm w) as (evs & Ht & Hp). exists evs.
  split; [exact Ht|]. rewrite forallb_forall in *. auto.
Qed.

Lemma emits_bind {A B} (m : M World R A) (f : A -> M World R B) :
  emits P m -> (forall a, emits P (f a)) -> emits P (bind m f).
Proof.
  intros Hm Hf w. unfold bind. destruct (Hm w) as (evs & Ht & Hp).
  destruct (m w) as [[a|r|e] w']; cbn [snd] in *; eauto.
  destruct (Hf a w') as (evs' & Ht' & Hp'). exists (evs ++ evs').
  rewrite Ht', Ht, app_assoc, forallb_app, Hp, Hp'. auto.
Qed.

Lemma emits_try_finally {A} (m : M World R A) (cleanup : M World R unit) :
  emits P m -> emits P cleanup -> emits P (try_finally m cleanup).
Proof.
  intros Hm Hc w. unfold try_finally. destruct (Hm w) as (evs & Ht & Hp).
  destruct (m w) as [o w']. cbn [snd] in *.
  destruct (Hc w') as (evs' & Ht' & Hp').
  destruct (cleanup w') as [[u|r|e] w'']; cbn [snd] in *;
    exists (evs ++ evs'); rewrite Ht', Ht, app_assoc, forallb_app, Hp, Hp'; auto.
Qed.

End Emits.

Section BlockEvents.
Variable env : MergeEnv.
Local Abbreviation R := (bool * string)%type.

Lemma forallb_map_event {A} (P : event -> bool) (f : A -> event) (l : list A) :
  (forall x, In x l -> P (f x) = true) -> forallb P (map f l) = true.
Proof.
  intros H. apply forallb_forall. intros e He.
  apply in_map_iff in He as (x & <- & Hx). now apply H.
Qed.

(** The events of the download are in a class of events as soon as
    opening the files that are opened, closing a file, the fetch and
    its log line are. *)
Lemma download_events_forall (P : event -> bool) d files :
  (forall f, In f (opened env d files) -> P (OpenFd f) = true) ->
  (forall f, P (CloseFd f) = true) ->
  P (AsyncFetch (map fst files)) = true ->
  P (LogError "Done downloading") = true ->
  forallb P (download_events env d files) = true.
Proof.
  intros Ho Hc Hf Hl. unfold download_events.
  rewrite !forallb_app, (forallb_map_event P OpenFd _ Ho),
    (forallb_map_event P CloseFd _ (fun f _ => Hc f)).
  destruct (open_error env d files); [reflexivity|]. cbn [forallb].
  rewrite Hf. destruct (async_fetch env (map fst files)); cbn [forallb];
    now rewrite ?Hl.
Qed.

Lemma emits_download_in (P : event -> bool) d files :
  (forall f, In f (opened env d files) -> P (OpenFd f) = true) ->
  (forall f, P (CloseFd f) = true) ->
  P (AsyncFetch (map fst files)) = true ->
  P (LogError "Done downloading") = true ->
  emits P (download env d files).
Proof.
  intros Ho Hc Hf Hl w. exists (download_events env d files).
  rewrite download_run. split; [reflexivity|].
  now apply download_events_forall.
Qed.

Lemma emits_download d files : emits moves_file (download env d files).
Proof. now apply emits_download_in. Qed.

Lemma emits_for_range n (upload : M World R bool) :
  emits moves_file upload -> emits moves_file (for_range n upload).
Proof.
  intros Hu. induction n as [|n IH]; cbn [for_range].
  - apply emits_ret.
  - apply emits_bind; [exact Hu|]. intros [|]; [apply emits_ret|].
    apply emits_bind; [now apply emits_emit | intros _; exact IH].
Qed.

Lemma emits_call_skopeo fpath ndref :
  emits moves_file (call_skopeo_upload env fpath ndref).
Proof. intros w. exists [SkopeoUpload fpath ndref]. split; reflexivity. Qed.

Lemma emits_call_anaconda fpath :
  emits moves_file (call_anaconda_upload env fpath).
Proof. intros w. exists [AnacondaUpload fpath]. split; reflexivity. Qed.

Lemma emits_upload_images d cid images :
  forall st, emits inside_event (upload_images env d cid images st).
Proof.
  induction images as [|[fname dref] rest IH]; intros st; cbn [upload_images].
  - apply emits_ret.
  - apply emits_bind;
      [apply (emits_weaken moves_file); [now intros []|];
       apply emits_for_range, emits_call_skopeo|].
    intros [|]; [|apply emits_return].
    apply emits_bind; [now apply emits_emit | intros _; apply IH].
Qed.

Lemma emits_upload_packages d cid packages :
  forall st, emits inside_event (upload_packages env d cid packages st).
Proof.
  induction packages as [|fname rest IH]; intros st; cbn [upload_packages].
  - apply emits_ret.
  - apply emits_bind;
      [apply (emits_weaken moves_file); [now intros []|];
       apply emits_for_range, emits_call_anaconda|].
    intros [|];
      [|apply emits_bind; [now apply emits_emit|intros _; apply emits_return]].
    apply emits_bind; [now apply emits_emit | intros _; apply IH].
Qed.

(** The events of the [with] block: the scratch directory is created,
    then come the events inside, then it is removed. *)
Lemma upload_block_trace cid files images packages comment w :
  exists inside,
    trace (snd (upload_block env cid files images packages comment w))
    = trace w ++ MkTempDir (tmpdir env) :: inside ++ [RmTempDir (tmpdir env)] /\
    forallb inside_event inside = true.
Proof.
  unfold upload_block, with_TemporaryDirectory.
  unfold bind at 1, emit at 1, update_state. cbn [fst snd].
  unfold bind at 1, update_state. cbn [fst snd].
  unfold try_finally.
  match goal with
  | |- context [?body ?w1] =>
      lazymatch body with
      | bind (download _ _ _) _ =>
          assert (Hb : emits inside_event body);
          [|destruct (Hb w1) as (inside & Ht & Hp); destruct (body w1) as [o w2]]
      end
  end.
  - apply emits_bind;
      [apply (emits_weaken moves_file); [now intros []|]; apply emits_download|].
    intros [|]; cbn [negb].
    + apply emits_bind; [apply emits_upload_images|].
      intros st. apply emits_upload_packages.
    + apply emits_return.
  - cbn [snd] in Ht. exists inside. split; [|exact Hp].
    unfold bind, emit, update_state. cbn [fst snd trace set_trace set_scratch].
    rewrite Ht. cbn [trace set_trace set_scratch].
    rewrite <- !app_assoc. reflexivity.
Qed.

Lemma upload_images_Normal d cid images :
  forall st w st' w',
    upload_images env d cid images st w = (Normal st', w') ->
    fst st' = fst st ++ map (fun i => "biocontainers/" +:+ snd i) images.
Proof.
  induction images as [|[fname dref] rest IH]; intros st w st' w' H;
    cbn [upload_images] in H.
  - inversion H. cbn. now rewrite app_nil_r.
  - unfold bind at 1 in H.
    destruct (for_range 5 _ w) as [[[|]|r|e] w1]; try discriminate H.
    unfold bind at 1, emit, update_state in H. cbn [fst snd] in H.
    apply IH in H. rewrite H. cbn [fst snd map]. now rewrite <- app_assoc.
Qed.

Lemma upload_packages_Normal d cid packages :
  forall st w st' w',
    upload_packages env d cid packages st w = (Normal st', w') ->
    fst st' = fst st ++ packages.
Proof.
  induction packages as [|fname rest IH]; intros st w st' w' H;
    cbn [upload_packages] in H.
  - inversion H. cbn. now rewrite app_nil_r.
  - unfold bind at 1 in H.
    destruct (for_range 5 _ w) as [[[|]|r|e] w1]; try discriminate H.
    unfold bind at 1, emit, update_state in H. cbn [fst snd] in H.
    apply IH in H. rewrite H. cbn [fst snd]. now rewrite <- app_assoc.
Qed.

End BlockEvents.

(** ** [merge_pr]: the number of upload calls *)

Section Calls.
Context {R : Type}.

Lemma calls_ret {A} (x : A) : calls_within 0 0 (@ret World R A x).
Proof. intros w. cbn. lia. Qed.

Lemma calls_return {A} (r : R) : calls_within 0 0 (@return_ World R A r).
Proof. intros w. cbn. lia. Qed.

Lemma calls_raise {A} (e : exn) : calls_within 0 0 (@raise World R A e).
Proof. intros w. cbn. lia. Qed.

Lemma calls_emit (e : event) : calls_within 0 0 (@emit R e).
Proof. intros w. cbn. lia. Qed.

Lemma calls_weaken {A} a b a' b' (m : M World R A) :
  (a <= a')%nat -> (b <= b')%nat -> calls_within a b m -> calls_within a' b' m.
Proof. intros Ha Hb Hm w. specialize (Hm w). lia. Qed.

Lemma calls_bind {A B} a b a' b' (m : M World R A) (f : A -> M World R B) :
  calls_within a b m -> (forall x, calls_within a' b' (f x)) ->
  calls_within (a + a') (b + b') (bind m f).
Proof.
  intros Hm Hf w. unfold bind. specialize (Hm w).
  destruct (m w) as [[x|r|e] w']; cbn [snd] in *; try lia.
  specialize (Hf x w'). lia.
Qed.

Lemma calls_seq {A B} a b (m : M World R A) (f : A -> M World R B) :
  calls_within 0 0 m -> (forall x, calls_within a b (f x)) ->
  calls_within a b (bind m f).
Proof. intros Hm Hf. exact (calls_bind 0 0 a b m f Hm Hf). Qed.

Lemma calls_zero {A} a b (m : M World R A) :
  calls_within 0 0 m -> calls_within a b m.
Proof. apply calls_weaken; lia. Qed.

Lemma calls_try_finally {A} a b (m : M World R A) (cleanup : M World R unit) :
  calls_within a b m -> calls_within 0 0 cleanup ->
  calls_within a b (try_finally m cleanup).
Proof.
  intros Hm Hc w. unfold try_finally. specialize (Hm w).
  destruct (m w) as [o w']. specialize (Hc w').
  destruct (cleanup w') as [[u|r|e] w'']; cbn [snd] in *; lia.
Qed.

End Calls.

Section BlockCalls.
Variable env : MergeEnv.
Local Abbreviation R := (bool * string)%type.

Lemma calls_download d files : calls_within 0 0 (download env d files).
Proof. intros w. rewrite download_run. cbn. lia. Qed.

Lemma calls_call_skopeo fpath ndref :
  calls_within 1 0 (call_skopeo_upload env fpath ndref).
Proof. intros w. cbn. lia. Qed.

Lemma calls_call_anaconda fpath :
  calls_within 0 1 (call_anaconda_upload env fpath).
Proof. intros w. cbn. lia. Qed.

Lemma calls_for_range n a b (upload : M World R bool) :
  calls_within a b upload -> calls_within (n * a) (n * b) (for_range n upload).
Proof.
  intros Hu. induction n as [|n IH]; cbn [for_range].
  - apply calls_ret.
  - apply (calls_bind a b (n * a) (n * b)); [exact Hu|].
    intros [|]; [apply calls_zero, calls_ret|].
    apply calls_seq; [apply calls_emit | intros _; exact IH].
Qed.

Lemma calls_upload_images d cid images :
  forall st,
    calls_within (5 * length images) 0 (upload_images env d cid images st).
Proof.
  induction images as [|[fname dref] rest IH]; intros st; cbn [upload_images].
  - apply calls_ret.
  - eapply calls_weaken;
      [| |apply (calls_bind 5 0 (5 * length rest) 0);
           [apply (calls_for_range 5 1 0), calls_call_skopeo|]];
      [cbn [length]; lia | lia |].
    intros [|]; [|apply calls_zero, calls_return].
    apply calls_seq; [apply calls_emit | intros _; apply IH].
Qed.

Lemma calls_upload_packages d cid packages :
  forall st,
    calls_within 0 (5 * length packages) (upload_packages env d cid packages st).
Proof.
  induction packages as [|fname rest IH]; intros st; cbn [upload_packages].
  - apply calls_ret.
  - eapply calls_weaken;
      [| |apply (calls_bind 0 5 0 (5 * length rest));
           [apply (calls_for_range 5 0 1), calls_call_anaconda|]];
      [lia | cbn [length]; lia |].
    intros [|];
      [|apply calls_zero, calls_seq;
          [apply calls_emit|intros _; apply calls_return]].
    apply calls_seq; [apply calls_emit | intros _; apply IH].
Qed.

Lemma calls_upload_block cid files images packages comment :
  calls_within (5 * length images) (5 * length packages)
    (upload_block env cid files images packages comment).
Proof.
  unfold upload_block, with_TemporaryDirectory.
  apply calls_seq; [apply calls_emit|intros _].
  apply calls_seq; [intros w; cbn; lia|intros _].
  apply calls_try_finally.
  - apply calls_seq; [apply calls_download|].
    intros [|]; cbn [negb].
    + eapply calls_weaken;
        [| |apply (calls_bind (5 * length images) 0 0 (5 * length packages));
             [apply calls_upload_images|intros st; apply calls_upload_packages]];
        lia.
    + apply calls_zero, calls_return.
  - apply calls_seq; [intros w; cbn; lia|intros _; apply calls_emit].
Qed.

Lemma calls_finish_merge pr n cid st :
  calls_within 0 0 (finish_merge env pr n cid st).
Proof.
  unfold finish_merge. destruct st as [uploaded comment].
  destruct (collect_authors _ _) as [[last co] lo].
  apply calls_seq; [apply calls_emit|intros _].
  apply calls_seq; [apply calls_emit|intros _; apply calls_return].
Qed.

End BlockCalls.

(** X8.  One execution of [merge_pr] calls [skopeo_upload] at most five
    times for each image among the artifacts and [anaconda_upload] at
    most five times for each package, whatever the collaborators
    answer. *)
Theorem merge_pr_upload_calls_bounded self env n cid w :
  let run := merge_pr self env n cid w in
  let images := (collect (merge_artifacts env n)).1.2 in
  let packages := (collect (merge_artifacts env n)).2 in
  (skopeo_calls w <= skopeo_calls (snd run)
   <= skopeo_calls w + 5 * length images)%nat /\
  (anaconda_calls w <= anaconda_calls (snd run)
   <= anaconda_calls w + 5 * length packages)%nat.
Proof.
  cbv zeta. revert w.
  change (calls_within (5 * length (collect (merge_artifacts env n)).1.2)
            (5 * length (collect (merge_artifacts env n)).2)
            (merge_pr self env n cid)).
  unfold merge_pr, merge_artifacts.
  destruct (check_protections env n _) as [[[|]|] message].
  - destruct (collect _) as [[files images] packages]. cbn [fst snd].
    apply calls_seq; [apply calls_emit|intros _].
    destruct files as [|f files].
    + apply calls_zero, calls_return.
    + apply calls_seq; [apply calls_emit|intros _].
      eapply calls_weaken;
        [| |apply (calls_bind (5 * length images) (5 * length packages) 0 0);
             [apply calls_upload_block|intros st; apply calls_finish_merge]];
        lia.
  - apply calls_zero, calls_return.
  - destruct (retry self 20 15);
      (apply calls_zero; first [apply calls_return|apply calls_raise]).
Qed.

(** ** [merge_pr]: what a run that asks for the merge has done *)

Lemma get_latest_pr_commit_fold (pr_author : string) (commits : list Commit) :
  forall last co lo,
    (fold_left (collect_author pr_author) commits (last, co, lo)).1.1
    = fold_left (fun _ commit => Some (sha commit)) commits last.
Proof.
  induction commits as [|c l IH]; intros last co lo; cbn [fold_left].
  - reflexivity.
  - rewrite collect_author_eq. apply IH.
Qed.

Lemma collect_authors_last_sha (pr_author : string) (commits : list Commit) :
  (collect_authors pr_author commits).1.1 = get_latest_pr_commit commits.
Proof. apply get_latest_pr_commit_fold. Qed.

Lemma finish_merge_run env pr n cid uploaded comment w :
  let commits := iter_pr_commits env n in
  let last := get_latest_pr_commit commits in
  let message :=
    Some (merge_message env uploaded (coauthors_of (user_login pr) commits)) in
  finish_merge env pr n cid (uploaded, comment) w
  = (Return (ghapi_merge_pr env n last message),
     set_trace
       (trace w ++
        [UpdateComment cid
           (comment_merging env comment
              (coauthors_of (user_login pr) commits)
              (coauthor_logins_of (user_login pr) commits));
         MergePr n last message]) w).
Proof.
  cbv zeta. unfold finish_merge, coauthors_of, coauthor_logins_of.
  rewrite <- (collect_authors_last_sha (user_login pr)).
  destruct (collect_authors _ _) as [[last co] lo]. cbn [fst snd].
  unfold merge_message, comment_merging.
  unfold bind, emit, update_state, return_. cbn [fst snd app].
  rewrite <- !app_assoc. cbn [app].
  f_equal. world_eq w.
Qed.

Section BlockAccepted.
Variable env : MergeEnv.
Local Abbreviation R := (bool * string)%type.

Lemma for_range_skopeo_accepted n fpath ndref :
  forall w w',
    for_range n (call_skopeo_upload env fpath ndref) w = (Normal true, w') ->
    exists k, (skopeo_calls w <= k < skopeo_calls w')%nat /\
              skopeo_upload env k fpath ndref = true.
Proof.
  induction n as [|n IH]; intros w w' H.
  - discriminate H.
  - rewrite for_range_S, call_skopeo_upload_run in H.
    destruct (skopeo_upload env (skopeo_calls w) fpath ndref) eqn:Hk.
    + inversion H; subst w'. exists (skopeo_calls w). cbn. split; [lia|exact Hk].
    + apply IH in H. destruct H as (k & Hr & Ha). exists k.
      cbn in Hr. split; [lia|exact Ha].
Qed.

Lemma for_range_anaconda_accepted n fpath :
  forall w w',
    for_range n (call_anaconda_upload env fpath) w = (Normal true, w') ->
    exists k, (anaconda_calls w <= k < anaconda_calls w')%nat /\
              anaconda_upload env k fpath = true.
Proof.
  induction n as [|n IH]; intros w w' H.
  - discriminate H.
  - rewrite for_range_S, call_anaconda_upload_run in H.
    destruct (anaconda_upload env (anaconda_calls w) fpath) eqn:Hk.
    + inversion H; subst w'. exists (anaconda_calls w). cbn. split; [lia|exact Hk].
    + apply IH in H. destruct H as (k & Hr & Ha). exists k.
      cbn in Hr. split; [lia|exact Ha].
Qed.

Lemma upload_images_accepted d cid images :
  forall st w st' w',
    upload_images env d cid images st w = (Normal st', w') ->
    forall fname dref, In (fname, dref) images ->
      exists k, (skopeo_calls w <= k < skopeo_calls w')%nat /\
                skopeo_upload env k (os_path_join d fname)
                  ("biocontainers/" +:+ dref) = true.
Proof.
  induction images as [|[fname0 dref0] rest IH]; intros st w st' w' H fname dref Hin.
  - destruct Hin.
  - cbn [upload_images] in H. unfold bind at 1 in H.
    destruct (for_range 5 _ w) as [[[|]|r|e] w1] eqn:Hr; try discriminate H.
    unfold bind at 1, emit, update_state in H. cbn [fst snd] in H.
    pose proof (calls_for_range 5 1 0 _
                  (calls_call_skopeo env (os_path_join d fname0)
                     ("biocontainers/" +:+ dref0)) w) as Hc1.
    rewrite Hr in Hc1. cbn [snd] in Hc1.
    pose proof (calls_upload_images env d cid rest
                  (fst st ++ ["biocontainers/" +:+ dref0],
                   snd st +:+ "- [x] Uploaded image " +:+ ("biocontainers/" +:+ dref0) +:+ nl)
                  (set_trace (trace w1 ++ [UpdateComment cid
                     (snd st +:+ "- [x] Uploaded image " +:+ ("biocontainers/" +:+ dref0) +:+ nl)]) w1))
      as Hc2.
    rewrite H in Hc2. cbn [snd] in Hc2. cbn in Hc2.
    destruct Hin as [Heq|Hin].
    + inversion Heq; subst fname0 dref0.
      apply for_range_skopeo_accepted in Hr. destruct Hr as (k & Hk & Ha).
      exists k. split; [lia|exact Ha].
    + destruct (IH _ _ _ _ H fname dref Hin) as (k & Hk & Ha).
      exists k. cbn in Hk. split; [lia|exact Ha].
Qed.

Lemma upload_packages_accepted d cid packages :
  forall st w st' w',
    upload_packages env d cid packages st w = (Normal st', w') ->
    forall fname, In fname packages ->
      exists k, (anaconda_calls w <= k < anaconda_calls w')%nat /\
                anaconda_upload env k (os_path_join d fname) = true.
Proof.
  induction packages as [|fname0 rest IH]; intros st w st' w' H fname Hin.
  - destruct Hin.
  - cbn [upload_packages] in H. unfold bind at 1 in H.
    destruct (for_range 5 _ w) as [[[|]|r|e] w1] eqn:Hr; try discriminate H.
    unfold bind at 1, emit, update_state in H. cbn [fst snd] in H.
    pose proof (calls_for_range 5 0 1 _
                  (calls_call_anaconda env (os_path_join d fname0)) w) as Hc1.
    rewrite Hr in Hc1. cbn [snd] in Hc1.
    pose proof (calls_upload_packages env d cid rest
                  (fst st ++ [fname0],
                   snd st +:+ "- [x] Uploaded package " +:+ fname0 +:+ nl)
                  (set_trace (trace w1 ++ [UpdateComment cid
                     (snd st +:+ "- [x] Uploaded package " +:+ fname0 +:+ nl)]) w1))
      as Hc2.
    rewrite H in Hc2. cbn [snd] in Hc2. cbn in Hc2.
    destruct Hin as [Heq|Hin].
    + subst fname0.
      apply for_range_anaconda_accepted in Hr. destruct Hr as (k & Hk & Ha).
      exists k. split; [lia|exact Ha].
    + destruct (IH _ _ _ _ H fname Hin) as (k & Hk & Ha).
      exists k. cbn in Hk. split; [lia|exact Ha].
Qed.

(** The block runs to its end only when the download returned and every
    image and every package was accepted by its upload. *)
Lemma download_error_None d files :
  download_error env d files = None ->
  open_error env d files = None /\ async_fetch env (map fst files) = None.
Proof.
  unfold download_error. destruct (open_error env d files); [discriminate|auto].
Qed.

Lemma upload_block_Normal cid files images packages comment w st w' :
  upload_block env cid files images packages comment w = (Normal st, w') ->
  open_error env (tmpdir env) files = None /\
  async_fetch env (map fst files) = None /\
  fst st = map (fun i => "biocontainers/" +:+ snd i) images ++ packages /\
  (forall fname dref, In (fname, dref) images ->
     exists k, (skopeo_calls w <= k < skopeo_calls w')%nat /\
               skopeo_upload env k (os_path_join (tmpdir env) fname)
                 ("biocontainers/" +:+ dref) = true) /\
  (forall fname, In fname packages ->
     exists k, (anaconda_calls w <= k < anaconda_calls w')%nat /\
               anaconda_upload env k (os_path_join (tmpdir env) fname) = true).
Proof.
  unfold upload_block, with_TemporaryDirectory.
  unfold bind at 1, emit at 1, update_state. cbn [fst snd].
  unfold bind at 1, update_state. cbn [fst snd].
  set (w2 := set_scratch _ _).
  assert (Hs : skopeo_calls w2 = skopeo_calls w) by reflexivity.
  assert (Ha : anaconda_calls w2 = anaconda_calls w) by reflexivity.
  clearbody w2. unfold try_finally.
  unfold bind at 1.
  pose proof (download_outcome env (tmpdir env) files w2) as Hd.
  pose proof (calls_download env (tmpdir env) files w2) as Hcd.
  destruct (download env (tmpdir env) files w2) as [od w3]. cbn [fst snd] in *.
  destruct (download_error env (tmpdir env) files) as [e|] eqn:Hde; subst od.
  { unfold bind, emit, update_state. cbn. discriminate. }
  apply download_error_None in Hde. destruct Hde as [Hopen Hfetch].
  cbn [negb]. unfold bind at 1.
  destruct (upload_images env (tmpdir env) cid images ([], comment) w3)
    as [[st1|r|e] w4] eqn:Ei.
  2,3: unfold bind, emit, update_state; cbn; discriminate.
  pose proof (calls_upload_images env (tmpdir env) cid images ([], comment) w3) as Hci.
  rewrite Ei in Hci. cbn [snd] in Hci.
  destruct (upload_packages env (tmpdir env) cid packages st1 w4)
    as [[st2|r|e] w5] eqn:Ep.
  2,3: unfold bind, emit, update_state; cbn; discriminate.
  pose proof (calls_upload_packages env (tmpdir env) cid packages st1 w4) as Hcp.
  rewrite Ep in Hcp. cbn [snd] in Hcp.
  unfold bind, emit, update_state. cbn [fst snd].
  intros H. inversion H; subst st w'. cbn.
  split; [exact Hopen|]. split; [exact Hfetch|]. split; [|split].
  - rewrite (upload_packages_Normal env _ _ _ _ _ _ _ Ep).
    now rewrite (upload_images_Normal env _ _ _ _ _ _ _ Ei).
  - intros fname dref Hin.
    destruct (upload_images_accepted _ _ _ _ _ _ _ Ei fname dref Hin)
      as (k & Hk & Hacc).
    exists k. split; [lia|exact Hacc].
  - intros fname Hin.
    destruct (upload_packages_accepted _ _ _ _ _ _ _ Ep fname Hin)
      as (k & Hk & Hacc).
    exists k. split; [lia|exact Hacc].
Qed.

End BlockAccepted.

(** The three ways an execution of [merge_pr] can go, with the events
    of each. *)
Lemma merge_pr_run self env n cid w :
  let run := merge_pr self env n cid w in
  let d := tmpdir env in
  let artifacts := merge_artifacts env n in
  let commits := iter_pr_commits env n in
  let pr_author := user_login (m_get_prs env n) in
  (fst (merge_verdict env n) <> Some true /\ trace (snd run) = trace w)
  \/ (fst (merge_verdict env n) = Some true /\ merge_files env n = [] /\
      trace (snd run) = trace w ++ [UpdateComment cid comment_started])
  \/ (fst (merge_verdict env n) = Some true /\ merge_files env n <> [] /\
      exists inside after,
        trace (snd run)
        = trace w
          ++ [UpdateComment cid comment_started;
              UpdateComment cid
                (comment_fetching comment_started
                   (collect artifacts).2 (collect artifacts).1.2)]
          ++ MkTempDir d :: inside ++ RmTempDir d :: after /\
        forallb inside_event inside = true /\
        ((after = [] /\
          match fst (merge_upload_block env n cid w) with
          | Normal _ => False
          | Return r => fst run = Return r
          | Raise e => fst run = Raise e
          end)
         \/
         (exists comment,
            let last := get_latest_pr_commit commits in
            let message :=
              Some (merge_message env (all_uploaded artifacts)
                      (coauthors_of pr_author commits)) in
            after = [UpdateComment cid
                       (comment_merging env comment
                          (coauthors_of pr_author commits)
                          (coauthor_logins_of pr_author commits));
                     MergePr n last message] /\
            fst run = Return (ghapi_merge_pr env n last message) /\
            async_fetch env (map fst (merge_files env n)) = None /\
            (forall fname dref, In (fname, dref) (collect artifacts).1.2 ->
               exists k,
                 (skopeo_calls w <= k < skopeo_calls (snd run))%nat /\
                 skopeo_upload env k (os_path_join d fname)
                   ("biocontainers/" +:+ dref) = true) /\
            (forall fname, In fname (collect artifacts).2 ->
               exists k,
                 (anaconda_calls w <= k < anaconda_calls (snd run))%nat /\
                 anaconda_upload env k (os_path_join d fname) = true)))).
Proof.
  cbv zeta.
  destruct (merge_verdict env n) as [[[|]|] message] eqn:Hv; cbn [fst].
  - destruct (merge_files env n) as [|f fs] eqn:Hf.
    + right. left. split; [reflexivity|]. split; [reflexivity|].
      unfold merge_verdict, merge_files, merge_artifacts in *.
      unfold merge_pr. rewrite Hv.
      destruct (collect _) as [[files images] packages]. cbn [fst snd] in Hf.
      subst files. reflexivity.
    + right. right. split; [reflexivity|]. split; [discriminate|].
      assert (Hne : merge_files env n <> []) by (rewrite Hf; discriminate).
      rewrite (merge_pr_checked self env n cid w message Hv Hne).
      unfold merge_upload_block, all_uploaded.
      rewrite <- Hf. unfold merge_files.
      destruct (collect (merge_artifacts env n)) as [[files images] packages].
      cbn [fst snd].
      set (w0 := set_trace _ w).
      assert (Hs : skopeo_calls w0 = skopeo_calls w) by reflexivity.
      assert (Ha : anaconda_calls w0 = anaconda_calls w) by reflexivity.
      assert (Ht0 : trace w0 = trace w ++ [UpdateComment cid comment_started;
                UpdateComment cid (comment_fetching comment_started packages images)])
        by reflexivity.
      clearbody w0. unfold bind.
      destruct (upload_block_trace env cid files images packages
                  (comment_fetching comment_started packages images) w0)
        as (inside & Ht & Hin).
      destruct (upload_block env cid files images packages _ w0)
        as [[[uploaded comment]|r|e] w1] eqn:Eb; cbn [fst snd] in *.
      * apply upload_block_Normal in Eb.
        destruct Eb as (_ & Hfetch & Hup & Hsk & Han). cbn [fst] in Hup.
        rewrite finish_merge_run. cbn [fst snd].
        exists inside,
          [UpdateComment cid
             (comment_merging env comment
                (coauthors_of (user_login (m_get_prs env n)) (iter_pr_commits env n))
                (coauthor_logins_of (user_login (m_get_prs env n)) (iter_pr_commits env n)));
           MergePr n (get_latest_pr_commit (iter_pr_commits env n))
             (Some (merge_message env uploaded
                (coauthors_of (user_login (m_get_prs env n)) (iter_pr_commits env n))))].
        split.
        { cbn [trace set_trace]. rewrite Ht, Ht0. rewrite <- !app_assoc.
          cbn [app]. rewrite <- ?app_assoc. reflexivity. }
        split; [exact Hin|]. right. exists comment. subst uploaded.
        split; [reflexivity|]. split; [reflexivity|]. split; [exact Hfetch|].
        cbn [skopeo_calls anaconda_calls set_trace]. rewrite <- Hs, <- Ha.
        split; assumption.
      * exists inside, []. split.
        { rewrite Ht, Ht0. rewrite <- !app_assoc. cbn [app].
          rewrite <- ?app_assoc. reflexivity. }
        split; [exact Hin|]. left. split; reflexivity.
      * exists inside, []. split.
        { rewrite Ht, Ht0. rewrite <- !app_assoc. cbn [app].
          rewrite <- ?app_assoc. reflexivity. }
        split; [exact Hin|]. left. split; reflexivity.
  - left. split; [discriminate|].
    unfold merge_verdict in Hv. unfold merge_pr. rewrite Hv. reflexivity.
  - left. split; [discriminate|].
    unfold merge_verdict in Hv. unfold merge_pr. rewrite Hv.
    destruct (retry self 20 15); reflexivity.
Qed.

Lemma inside_not_MergePr (inside : list event) n last msg :
  forallb inside_event inside = true -> ~ In (MergePr n last msg) inside.
Proof.
  intros H Hin. rewrite forallb_forall in H. apply H in Hin. discriminate Hin.
Qed.

(** The run of [merge_pr] behind a merge request among its events. *)
Lemma merge_pr_MergePr_inv self env n cid w evs k last msg :
  let run := merge_pr self env n cid w in
  let artifacts := merge_artifacts env n in
  let commits := iter_pr_commits env n in
  let pr_author := user_login (m_get_prs env n) in
  trace (snd run) = trace w ++ evs ->
  In (MergePr k last msg) evs ->
  fst (merge_verdict env n) = Some true /\
  merge_files env n <> [] /\
  async_fetch env (map fst (merge_files env n)) = None /\
  (forall fname dref, In (fname, dref) (collect artifacts).1.2 ->
     exists j, (skopeo_calls w <= j < skopeo_calls (snd run))%nat /\
               skopeo_upload env j (os_path_join (tmpdir env) fname)
                 ("biocontainers/" +:+ dref) = true) /\
  (forall fname, In fname (collect artifacts).2 ->
     exists j, (anaconda_calls w <= j < anaconda_calls (snd run))%nat /\
               anaconda_upload env j (os_path_join (tmpdir env) fname) = true) /\
  k = n /\
  last = get_latest_pr_commit commits /\
  msg = Some (merge_message env (all_uploaded artifacts)
                (coauthors_of pr_author commits)) /\
  fst run = Return (ghapi_merge_pr env n last msg) /\
  exists before, evs = before ++ [MergePr k last msg] /\
                 ~ In (MergePr k last msg) before.
Proof.
  cbv zeta. intros Ht Hin.
  destruct (merge_pr_run self env n cid w)
    as [(_ & Ht')|[(_ & _ & Ht')|(Hv & Hf & inside & after & Ht' & Hi & Hcase)]];
    cbv zeta in *.
  - assert (He : evs = [])
      by (apply (app_inv_head (trace w)); rewrite app_nil_r; congruence).
    subst evs. destruct Hin.
  - rewrite Ht in Ht'. apply app_inv_head in Ht'. subst evs.
    destruct Hin as [Hin|[]]. discriminate Hin.
  - rewrite Ht in Ht'. apply app_inv_head in Ht'. subst evs.
    destruct Hcase as [(-> & _)|(comment & -> & Hrun & Hfetch & Hsk & Han)].
    + exfalso. cbn [app] in Hin.
      destruct Hin as [Hin|[Hin|[Hin|Hin]]]; try discriminate Hin.
      apply in_app_or in Hin. destruct Hin as [Hin|[Hin|[]]].
      * exact (inside_not_MergePr _ _ _ _ Hi Hin).
      * discriminate Hin.
    + assert (Heq : MergePr k last msg
                    = MergePr n (get_latest_pr_commit (iter_pr_commits env n))
                        (Some (merge_message env (all_uploaded (merge_artifacts env n))
                           (coauthors_of (user_login (m_get_prs env n))
                              (iter_pr_commits env n))))).
      { cbn [app] in Hin.
        destruct Hin as [Hin|[Hin|[Hin|Hin]]]; try discriminate Hin.
        apply in_app_or in Hin. destruct Hin as [Hin|Hin].
        - destruct (inside_not_MergePr _ _ _ _ Hi Hin).
        - destruct Hin as [Hin|[Hin|[Hin|[]]]]; try discriminate Hin.
          now symmetry. }
      inversion Heq; subst k last msg. clear Heq.
      repeat (split; [assumption || reflexivity|]).
      eexists (_ :: _ :: _ :: inside ++ [_; _]). split.
      * cbn [app]. rewrite <- app_assoc. reflexivity.
      * intros Hb. cbn [app] in Hb.
        destruct Hb as [Hb|[Hb|[Hb|Hb]]]; try discriminate Hb.
        apply in_app_or in Hb. destruct Hb as [Hb|[Hb|[Hb|[]]]];
          try discriminate Hb.
        exact (inside_not_MergePr _ _ _ _ Hi Hb).
Qed.

(** X9.  [merge_pr] asks GitHub for the merge only after the protection
    check said yes, the download of the artifacts returned, and every
    image and every package among the artifacts was accepted by a call
    of its upload made during this execution, from the scratch
    directory. *)
Theorem merge_requested_only_after_uploads self env n cid w evs k last msg :
  let run := merge_pr self env n cid w in
  let artifacts := merge_artifacts env n in
  trace (snd run) = trace w ++ evs ->
  In (MergePr k last msg) evs ->
  fst (merge_verdict env n) = Some true /\
  async_fetch env (map fst (merge_files env n)) = None /\
  (forall fname dref, In (fname, dref) (collect artifacts).1.2 ->
     exists j, (skopeo_calls w <= j < skopeo_calls (snd run))%nat /\
               skopeo_upload env j (os_path_join (tmpdir env) fname)
                 ("biocontainers/" +:+ dref) = true) /\
  (forall fname, In fname (collect artifacts).2 ->
     exists j, (anaconda_calls w <= j < anaconda_calls (snd run))%nat /\
               anaconda_upload env j (os_path_join (tmpdir env) fname) = true).
Proof.
  cbv zeta. intros Ht Hin.
  destruct (merge_pr_MergePr_inv self env n cid w evs k last msg Ht Hin)
    as (Hv & _ & Hfetch & Hsk & Han & _).
  repeat split; assumption.
Qed.

Lemma merge_requested_only_after_uploads_witness :
  let run := merge_pr (mkTask 0) merging_env 42 7 world0 in
  let last := Some "b1" in
  let msg := Some (merge_message merging_env (all_uploaded (merge_artifacts merging_env 42))
                     (coauthors_of "alice" (iter_pr_commits merging_env 42))) in
  trace (snd run) = trace world0 ++ trace (snd run) /\
  In (MergePr 42 last msg) (trace (snd run)) /\
  fst (merge_verdict merging_env 42) = Some true /\
  async_fetch merging_env (map fst (merge_files merging_env 42)) = None.
Proof.
  intros run last msg.
  assert (H1 : trace (snd run) = trace world0 ++ trace (snd run)) by reflexivity.
  assert (H2 : In (MergePr 42 last msg) (trace (snd run))).
  { vm_compute. repeat (first [left; reflexivity | right]). }
  split; [exact H1|]. split; [exact H2|].
  pose proof (merge_requested_only_after_uploads (mkTask 0) merging_env 42 7
                world0 (trace (snd run)) 42 last msg H1 H2) as H.
  exact (conj (proj1 H) (proj1 (proj2 H))).
Defined.

(** X10.  What is merged: the merge request of [merge_pr] names this
    pull request and the sha of its last commit (what
    [get_latest_pr_commit] answers); its message lists every image and
    package of the artifacts, followed by the co-author lines, each
    once, in the order in which this process iterates over their set
    (an order that changes with the hash seed); it is the last event of
    the execution and the only merge request, and the handler returns
    what GitHub answers to it. *)
Theorem merge_request_content self env n cid w evs k last msg :
  let run := merge_pr self env n cid w in
  let commits := iter_pr_commits env n in
  let coauthors := coauthors_of (user_login (m_get_prs env n)) commits in
  trace (snd run) = trace w ++ evs ->
  In (MergePr k last msg) evs ->
  k = n /\
  last = get_latest_pr_commit commits /\
  msg = Some (join nl ([""; "Package uploads complete: [ci skip]"]
                       ++ map (fun pkg => " - " +:+ pkg)
                            (all_uploaded (merge_artifacts env n))
                       ++ [""] ++ list_of_set env coauthors)) /\
  list_of_set env coauthors ≡ₚ elements coauthors /\
  fst run = Return (ghapi_merge_pr env n last msg) /\
  exists before, evs = before ++ [MergePr k last msg] /\
                 ~ In (MergePr k last msg) before.
Proof.
  cbv zeta. intros Ht Hin.
  destruct (merge_pr_MergePr_inv self env n cid w evs k last msg Ht Hin)
    as (_ & _ & _ & _ & _ & Hk & Hlast & Hmsg & H).
  split; [exact Hk|]. split; [exact Hlast|]. split; [exact Hmsg|].
  split; [apply list_of_set_perm|exact H].
Qed.

Lemma merge_request_content_witness :
  let run := merge_pr (mkTask 0) reversed_env 42 7 world0 in
  let last := Some "b2" in
  let msg :=
    Some (join nl [""; "Package uploads complete: [ci skip]";
                   " - biocontainers/x:1.0--0"; "";
                   "Co-authored-by: Bob <bob@home.example>";
                   "Co-authored-by: Bob B. <bob@work.example>"]) in
  trace (snd run) = trace world0 ++ trace (snd run) /\
  In (MergePr 42 last msg) (trace (snd run)) /\
  last = get_latest_pr_commit (iter_pr_commits reversed_env 42) /\
  fst run = Return (ghapi_merge_pr reversed_env 42 last msg).
Proof.
  intros run last msg.
  assert (H1 : trace (snd run) = trace world0 ++ trace (snd run)) by reflexivity.
  assert (H2 : In (MergePr 42 last msg) (trace (snd run))).
  { vm_compute. repeat (first [left; reflexivity | right]). }
  split; [exact H1|]. split; [exact H2|].
  pose proof (merge_request_content (mkTask 0) reversed_env 42 7
                world0 (trace (snd run)) 42 last msg H1 H2) as H.
  exact (conj (proj1 (proj2 H)) (proj1 (proj2 (proj2 (proj2 (proj2 H)))))).
Defined.

(** X11.  The scratch directory of [merge_pr]: an execution either
    touches no scratch directory and moves no artifact at all, or it
    creates one directory, opens, downloads, closes and uploads only
    while that directory exists, removes it, and touches nothing
    afterwards, however the execution ends. *)
Theorem merge_pr_scratch_window self env n cid w :
  let run := merge_pr self env n cid w in
  let d := tmpdir env in
  exists evs,
    trace (snd run) = trace w ++ evs /\
    (forallb (fun e => negb (uses_scratch e)) evs = true \/
     exists before inside after,
       evs = before ++ MkTempDir d :: inside ++ RmTempDir d :: after /\
       forallb (fun e => negb (uses_scratch e)) before = true /\
       forallb inside_event inside = true /\
       forallb (fun e => negb (uses_scratch e)) after = true).
Proof.
  cbv zeta.
  destruct (merge_pr_run self env n cid w)
    as [(_ & Ht)|[(_ & _ & Ht)|(Hv & Hf & inside & after & Ht & Hi & Hcase)]];
    cbv zeta in *.
  - exists []. rewrite app_nil_r. split; [exact Ht|]. left. reflexivity.
  - eexists. split; [exact Ht|]. left. reflexivity.
  - eexists. split; [exact Ht|]. right.
    eexists [_; _], inside, after. split; [reflexivity|].
    split; [reflexivity|]. split; [exact Hi|].
    destruct Hcase as [(-> & _)|(comment & -> & _)]; reflexivity.
Qed.

(** ** [merge_pr]: the files it opens *)

Section OpensOnly.
Variable env : MergeEnv.
Variable allowed : list string.
Local Abbreviation R := (bool * string)%type.
Local Abbreviation P := (opens_only allowed).

Lemma opens_for_range n (upload : M World R bool) :
  emits P upload -> emits P (for_range n upload).
Proof.
  intros Hu. induction n as [|n IH]; cbn [for_range].
  - apply emits_ret.
  - apply emits_bind; [exact Hu|]. intros [|]; [apply emits_ret|].
    apply emits_bind; [now apply emits_emit | intros _; exact IH].
Qed.

Lemma opens_upload_images d cid images :
  forall st, emits P (upload_images env d cid images st).
Proof.
  induction images as [|[fname dref] rest IH]; intros st; cbn [upload_images].
  - apply emits_ret.
  - apply emits_bind.
    + apply opens_for_range. intros w.
      exists [SkopeoUpload (os_path_join d fname) ("biocontainers/" +:+ dref)].
      split; reflexivity.
    + intros [|]; [|apply emits_return].
      apply emits_bind; [now apply emits_emit | intros _; apply IH].
Qed.

Lemma opens_upload_packages d cid packages :
  forall st, emits P (upload_packages env d cid packages st).
Proof.
  induction packages as [|fname rest IH]; intros st; cbn [upload_packages].
  - apply emits_ret.
  - apply emits_bind.
    + apply opens_for_range. intros w.
      exists [AnacondaUpload (os_path_join d fname)]. split; reflexivity.
    + intros [|];
        [|apply emits_bind; [now apply emits_emit|intros _; apply emits_return]].
      apply emits_bind; [now apply emits_emit | intros _; apply IH].
Qed.

Lemma opens_finish_merge pr n cid st : emits P (finish_merge env pr n cid st).
Proof.
  unfold finish_merge. destruct st as [uploaded comment].
  destruct (collect_authors _ _) as [[last co] lo].
  apply emits_bind; [now apply emits_emit|intros _].
  apply emits_bind; [now apply emits_emit|intros _; apply emits_return].
Qed.

End OpensOnly.

Lemma opened_listed env d files f :
  In f (opened env d files) ->
  In f (map (fun file => os_path_join d (snd file)) files).
Proof.
  induction files as [|[url path] rest IH]; cbn [opened map snd]; [easy|].
  destruct (open_raises env (os_path_join d path)); [easy|].
  intros [<-|H]; [now left|right; now apply IH].
Qed.

(** The only files an execution of [merge_pr] opens are those of its
    download list, under their paths in the scratch directory. *)
Lemma merge_pr_opens self env n cid :
  emits (opens_only (download_paths env n)) (merge_pr self env n cid).
Proof.
  unfold merge_pr, download_paths, merge_files, merge_artifacts.
  destruct (check_protections env n _) as [[[|]|] message].
  - destruct (collect _) as [[files images] packages]. cbn [fst snd].
    apply emits_bind; [now apply emits_emit|intros _].
    destruct files as [|f files]; [apply emits_return|].
    apply emits_bind; [now apply emits_emit|intros _].
    apply emits_bind; [|intros st; apply opens_finish_merge].
    unfold upload_block, with_TemporaryDirectory.
    apply emits_bind; [now apply emits_emit|intros _].
    apply emits_bind; [intros w; exists []; cbn; now rewrite app_nil_r|intros _].
    apply emits_try_finally.
    + apply emits_bind.
      * apply emits_download_in; try reflexivity.
        intros p Hp. apply existsb_exists. exists p.
        split; [now apply opened_listed in Hp|apply String.eqb_refl].
      * intros [|]; cbn [negb]; [|apply emits_return].
        apply emits_bind; [apply opens_upload_images|].
        intros st. apply opens_upload_packages.
    + apply emits_bind; [intros w; exists []; cbn; now rewrite app_nil_r|].
      intros _. now apply emits_emit.
  - apply emits_return.
  - destruct (retry self 20 15); first [apply emits_return|apply emits_raise].
Qed.

Lemma merge_files_inv artifacts url path :
  In (url, path) (collect artifacts).1.1 ->
  exists a, In a artifacts /\ file_of a = Some (url, path).
Proof.
  rewrite collect_eq. cbn [fst snd]. intros H.
  apply list_elem_of_In, list_elem_of_omap in H as (a & Ha & Hf).
  exists a. split; [now apply list_elem_of_In|exact Hf].
Qed.

(** X7.  Where [merge_pr] writes what it downloads.  Every file that an
    execution opens belongs to an entry of its download list and lies
    at [os.path.join(tmpdir, path)] for the path of that entry.  For a
    package, in a scratch directory [d] (not empty, no slash at its
    end), that is [d/<arch>/<fname>] when the file name that the pattern
    extracted does not begin with a slash; but a file name that begins
    with a slash is used as it is: the file is opened at that absolute
    path, outside [d]. *)
Theorem package_download_path self env n cid w evs f :
  let d := tmpdir env in
  trace (snd (merge_pr self env n cid w)) = trace w ++ evs ->
  In (OpenFd f) evs ->
  d <> "" -> ends_with_slash d = false ->
  exists url path,
    In (url, path) (merge_files env n) /\
    f = os_path_join d path /\
    forall repo_url arch fname,
      PACKAGE_RE_match url = Some (repo_url, arch, fname) ->
      path = os_path_join arch fname /\
      f = if starts_with_slash fname then fname
          else d +:+ "/" +:+ arch +:+ "/" +:+ fname.
Proof.
  cbv zeta. intros Ht Hin Hd Hslash.
  destruct (merge_pr_opens self env n cid w) as (evs' & Ht' & Hall).
  rewrite Ht in Ht'. apply app_inv_head in Ht'. subst evs'.
  rewrite forallb_forall in Hall. apply Hall in Hin. cbn [opens_only] in Hin.
  apply existsb_exists in Hin as (p & Hp & Heq).
  apply String.eqb_eq in Heq. subst p.
  unfold download_paths in Hp. apply in_map_iff in Hp as ([url path] & Hf & Hfile).
  cbn [snd] in Hf. exists url, path. split; [exact Hfile|]. split; [easy|].
  intros repo_url arch fname Hm.
  unfold merge_files in Hfile.
  apply merge_files_inv in Hfile as (a & _ & Ha).
  unfold file_of in Ha.
  destruct (PACKAGE_RE_match (artifact_url a)) as [[[r' a'] f']|] eqn:Hma.
  - inversion Ha; subst url path. rewrite Hm in Hma. inversion Hma; subst r' a' f'.
    split; [reflexivity|].
    rewrite <- Hf. exact (nested_path_join _ _ _ _ _ Hm Hd Hslash).
  - destruct (IMAGE_RE_match (artifact_url a)) as [[name tag]|]; [|discriminate Ha].
    inversion Ha; subst url. rewrite Hm in Hma. discriminate Hma.
Qed.

Lemma package_download_path_witness :
  let env := sample_env (Some true, "") [slash_package] None
               (fun _ => true) (fun _ => true) [] in
  let run := merge_pr (mkTask 0) env 42 7 world0 in
  trace (snd run) = trace world0 ++ trace (snd run) /\
  In (OpenFd "/etc/cron.d/x.tar.bz2") (trace (snd run)) /\
  tmpdir env <> "" /\ ends_with_slash (tmpdir env) = false /\
  exists url path,
    In (url, path) (merge_files env 42) /\
    "/etc/cron.d/x.tar.bz2" = os_path_join (tmpdir env) path.
Proof.
  intros env run.
  assert (H1 : trace (snd run) = trace world0 ++ trace (snd run)) by reflexivity.
  assert (H2 : In (OpenFd "/etc/cron.d/x.tar.bz2") (trace (snd run))).
  { vm_compute. repeat (first [left; reflexivity | right]). }
  assert (H3 : tmpdir env <> "") by discriminate.
  assert (H4 : ends_with_slash (tmpdir env) = false) by reflexivity.
  split; [exact H1|]. split; [exact H2|]. split; [exact H3|]. split; [exact H4|].
  destruct (package_download_path (mkTask 0) env 42 7 world0 _ _ H1 H2 H3 H4)
    as (url & path & Hin & Hf & _).
  exists url, path. split; [exact Hin|exact Hf].
Defined.

(** ** [merge_pr]: uploads that recover in time *)

Section BlockSucceeds.
Variable env : MergeEnv.
Local Abbreviation R := (bool * string)%type.

Lemma for_range_skopeo_recovers n fpath ndref :
  forall w,
    (forall k, (skopeo_calls w + n <= k)%nat ->
               skopeo_upload env k fpath ndref = true) ->
    exists w', for_range (S n) (call_skopeo_upload env fpath ndref) w
               = (Normal true, w').
Proof.
  induction n as [|n IH]; intros w H;
    rewrite for_range_S, call_skopeo_upload_run;
    destruct (skopeo_upload env (skopeo_calls w) fpath ndref) eqn:Hk; eauto.
  - rewrite H in Hk by lia. discriminate Hk.
  - apply IH. intros k Hle. apply H. cbn in Hle. lia.
Qed.

Lemma for_range_anaconda_recovers n fpath :
  forall w,
    (forall k, (anaconda_calls w + n <= k)%nat ->
               anaconda_upload env k fpath = true) ->
    exists w', for_range (S n) (call_anaconda_upload env fpath) w
               = (Normal true, w').
Proof.
  induction n as [|n IH]; intros w H;
    rewrite for_range_S, call_anaconda_upload_run;
    destruct (anaconda_upload env (anaconda_calls w) fpath) eqn:Hk; eauto.
  - rewrite H in Hk by lia. discriminate Hk.
  - apply IH. intros k Hle. apply H. cbn in Hle. lia.
Qed.

Lemma upload_images_recovers d cid images :
  forall st w,
    (forall k fpath ndref, (skopeo_calls w + 4 <= k)%nat ->
                           skopeo_upload env k fpath ndref = true) ->
    exists st' w', upload_images env d cid images st w = (Normal st', w').
Proof.
  induction images as [|[fname dref] rest IH]; intros st w H; cbn [upload_images].
  - unfold ret. eauto.
  - unfold bind at 1.
    pose proof (calls_for_range 5 1 0 _
                  (calls_call_skopeo env (os_path_join d fname)
                     ("biocontainers/" +:+ dref)) w) as Hc.
    destruct (for_range_skopeo_recovers 4 (os_path_join d fname)
                ("biocontainers/" +:+ dref) w) as (w1 & Hr);
      [intros k Hk; now apply H|].
    rewrite Hr in Hc |- *. cbn [snd] in Hc.
    unfold bind at 1, emit, update_state. cbn [fst snd].
    apply IH. intros k fpath ndref Hk. apply H. cbn in Hk. lia.
Qed.

Lemma upload_packages_recovers d cid packages :
  forall st w,
    (forall k fpath, (anaconda_calls w + 4 <= k)%nat ->
                     anaconda_upload env k fpath = true) ->
    exists st' w', upload_packages env d cid packages st w = (Normal st', w').
Proof.
  induction packages as [|fname rest IH]; intros st w H; cbn [upload_packages].
  - unfold ret. eauto.
  - unfold bind at 1.
    pose proof (calls_for_range 5 0 1 _
                  (calls_call_anaconda env (os_path_join d fname)) w) as Hc.
    destruct (for_range_anaconda_recovers 4 (os_path_join d fname) w)
      as (w1 & Hr); [intros k Hk; now apply H|].
    rewrite Hr in Hc |- *. cbn [snd] in Hc.
    unfold bind at 1, emit, update_state. cbn [fst snd].
    apply IH. intros k fpath Hk. apply H. cbn in Hk. lia.
Qed.

Lemma upload_block_recovers cid files images packages comment w :
  download_error env (tmpdir env) files = None ->
  (forall k fpath ndref, (skopeo_calls w + 4 <= k)%nat ->
                         skopeo_upload env k fpath ndref = true) ->
  (forall k fpath, (anaconda_calls w + 4 <= k)%nat ->
                   anaconda_upload env k fpath = true) ->
  exists st w',
    upload_block env cid files images packages comment w = (Normal st, w').
Proof.
  intros Hfetch Hsk Han.
  unfold upload_block, with_TemporaryDirectory.
  unfold bind at 1, emit at 1, update_state. cbn [fst snd].
  unfold bind at 1, update_state. cbn [fst snd].
  set (w2 := set_scratch _ _).
  assert (Hs : skopeo_calls w2 = skopeo_calls w) by reflexivity.
  assert (Ha : anaconda_calls w2 = anaconda_calls w) by reflexivity.
  clearbody w2. unfold try_finally.
  unfold bind at 1.
  pose proof (download_outcome env (tmpdir env) files w2) as Hd.
  pose proof (calls_download env (tmpdir env) files w2) as Hcd.
  destruct (download env (tmpdir env) files w2) as [od w3]. cbn [fst snd] in *.
  rewrite Hfetch in Hd. subst od. cbn [negb]. unfold bind at 1.
  destruct (upload_images_recovers (tmpdir env) cid images ([], comment) w3)
    as (st1 & w4 & Ei); [intros k fpath ndref Hk; apply Hsk; lia|].
  pose proof (calls_upload_images env (tmpdir env) cid images ([], comment) w3) as Hci.
  rewrite Ei in Hci |- *. cbn [snd] in Hci.
  destruct (upload_packages_recovers (tmpdir env) cid packages st1 w4)
    as (st2 & w5 & Ep); [intros k fpath Hk; apply Han; lia|].
  rewrite Ep. unfold bind, emit, update_state. cbn [fst snd]. eauto.
Qed.

End BlockSucceeds.

(** X12.  Uploads that recover in time do not stop the merge: when the
    checks passed, some artifact is there, the download goes through
    (every file can be opened and the fetch returns), and each upload
    service accepts every call from its fifth one of this execution on
    at the latest, [merge_pr] uploads everything, asks for the merge of
    the last commit, with the message that lists the uploads and the
    co-author lines in the order of this process, and returns what
    GitHub answers. *)
Theorem merge_pr_merges_when_uploads_recover self env n cid w message :
  let run := merge_pr self env n cid w in
  let commits := iter_pr_commits env n in
  let last := get_latest_pr_commit commits in
  let msg := Some (merge_message env (all_uploaded (merge_artifacts env n))
                     (coauthors_of (user_login (m_get_prs env n)) commits)) in
  merge_verdict env n = (Some true, message) ->
  merge_files env n <> [] ->
  download_error env (tmpdir env) (merge_files env n) = None ->
  (forall k fpath ndref, (skopeo_calls w + 4 <= k)%nat ->
                         skopeo_upload env k fpath ndref = true) ->
  (forall k fpath, (anaconda_calls w + 4 <= k)%nat ->
                   anaconda_upload env k fpath = true) ->
  fst run = Return (ghapi_merge_pr env n last msg) /\
  exists before, trace (snd run) = trace w ++ before ++ [MergePr n last msg].
Proof.
  cbv zeta. intros Hv Hf Hfetch Hsk Han.
  destruct (merge_pr_run self env n cid w)
    as [(Hv' & _)|[(_ & Hf' & _)|(_ & _ & inside & after & Ht & Hi & Hcase)]];
    cbv zeta in *.
  - rewrite Hv in Hv'. now destruct Hv'.
  - now destruct Hf.
  - destruct Hcase as [(_ & Hb)|(comment & -> & Hrun & _)].
    + exfalso. unfold merge_upload_block, merge_files in *.
      destruct (collect (merge_artifacts env n)) as [[files images] packages].
      cbn [fst snd] in *.
      match type of Hb with
      | context [upload_block env cid files images packages ?c ?w0] =>
          destruct (upload_block_recovers env cid files images packages c w0
                      Hfetch Hsk Han) as (st & w' & E); rewrite E in Hb
      end.
      exact Hb.
    + split; [exact Hrun|].
      eexists (_ :: _ :: _ :: inside ++ [_; _]). rewrite Ht.
      cbn [app]. rewrite <- app_assoc. reflexivity.
Qed.

Lemma merge_pr_merges_when_uploads_recover_witness :
  let run := merge_pr (mkTask 0) merging_env 42 7 world0 in
  merge_verdict merging_env 42 = (Some true, "") /\
  merge_files merging_env 42 <> [] /\
  download_error merging_env (tmpdir merging_env) (merge_files merging_env 42)
  = None /\
  (forall k fpath ndref, (skopeo_calls world0 + 4 <= k)%nat ->
                         skopeo_upload merging_env k fpath ndref = true) /\
  (forall k fpath, (anaconda_calls world0 + 4 <= k)%nat ->
                   anaconda_upload merging_env k fpath = true) /\
  fst run = Return (true, "Pull Request successfully merged").
Proof.
  intros run.
  assert (H1 : merge_verdict merging_env 42 = (Some true, "")) by reflexivity.
  assert (H2 : merge_files merging_env 42 <> []) by (vm_compute; discriminate).
  assert (H3 : download_error merging_env (tmpdir merging_env)
                 (merge_files merging_env 42) = None)
    by (vm_compute; reflexivity).
  assert (H4 : forall k fpath ndref, (skopeo_calls world0 + 4 <= k)%nat ->
                 skopeo_upload merging_env k fpath ndref = true).
  { intros k fpath ndref Hk. change (Nat.leb 2 k = true).
    cbn in Hk. apply Nat.leb_le. lia. }
  assert (H5 : forall k fpath, (anaconda_calls world0 + 4 <= k)%nat ->
                 anaconda_upload merging_env k fpath = true)
    by reflexivity.
  split; [exact H1|]. split; [exact H2|]. split; [exact H3|].
  split; [exact H4|]. split; [exact H5|].
  exact (proj1 (merge_pr_merges_when_uploads_recover (mkTask 0) merging_env 42 7
                  world0 "" H1 H2 H3 H4 H5)).
Defined.

(** ** [merge_pr]: the progress comment *)

Lemma extends_refl c : extends c c.
Proof. exists "". clear. induction c as [|a c IH]; [reflexivity|]. rewrite append_cons. now f_equal. Qed.

Lemma extends_append c s : extends c (c +:+ s).
Proof. now exists s. Qed.

Lemma extends_trans a b c : extends a b -> extends b c -> extends a c.
Proof.
  intros [s ->] [t ->]. exists (s +:+ t). now rewrite append_assoc.
Qed.

Lemma each_extends_weaken c c' bodies :
  extends c c' -> each_extends c' bodies -> each_extends c bodies.
Proof.
  destruct bodies as [|b rest]; [easy|]. intros H [H1 H2].
  split; [exact (extends_trans _ _ _ H H1)|exact H2].
Qed.

Lemma last_cons_default (l : list string) x d :
  List.last (x :: l) d = List.last l x.
Proof.
  revert x d. induction l as [|y l IH]; intros x d; [reflexivity|].
  change (List.last (x :: y :: l) d) with (List.last (y :: l) d).
  now rewrite !IH.
Qed.

Lemma each_extends_app c l1 l2 :
  each_extends c l1 -> each_extends (List.last l1 c) l2 ->
  each_extends c (l1 ++ l2).
Proof.
  revert c. induction l1 as [|b l1 IH]; intros c H1 H2; [exact H2|].
  destruct H1 as [Hb H1]. split; [exact Hb|]. apply IH; [exact H1|].
  now rewrite last_cons_default in H2.
Qed.

Lemma last_app_default (l1 l2 : list string) c :
  List.last (l1 ++ l2) c = List.last l2 (List.last l1 c).
Proof.
  revert c. induction l1 as [|b l1 IH]; intros c; [reflexivity|].
  change ((b :: l1) ++ l2) with (b :: (l1 ++ l2)).
  now rewrite !last_cons_default, IH.
Qed.

Lemma comment_updates_app l1 l2 :
  comment_updates (l1 ++ l2) = comment_updates l1 ++ comment_updates l2.
Proof. apply omap_app. Qed.

Lemma comment_updates_quiet evs :
  forallb (fun e => negb (is_UpdateComment e)) evs = true ->
  comment_updates evs = [].
Proof.
  induction evs as [|e evs IH]; [reflexivity|]. cbn [forallb].
  intros H. apply andb_prop in H. destruct H as [He H].
  destruct e; try discriminate He; cbn; now apply IH.
Qed.

Section CommentGrows.
Context {R : Type}.
Variable cid : Z.

Lemma grows_quiet {A} c (m : M World R A) :
  emits (fun e => negb (is_UpdateComment e)) m ->
  comment_grows cid c m (fun _ => c).
Proof.
  intros Hm w. destruct (Hm w) as (evs & Ht & Hq). exists evs.
  rewrite (comment_updates_quiet evs Hq). cbn. auto.
Qed.

Lemma grows_update c body :
  extends c body ->
  comment_grows cid c (@emit R (UpdateComment cid body)) (fun _ => body).
Proof.
  intros He w. exists [UpdateComment cid body]. cbn.
  split; [reflexivity|]. split; [repeat constructor|]. auto.
Qed.

Lemma grows_bind {A B} c (m : M World R A) (f : A -> M World R B) post post' :
  comment_grows cid c m post ->
  (forall a, comment_grows cid (post a) (f a) post') ->
  comment_grows cid c (bind m f) post'.
Proof.
  intros Hm Hf w. unfold bind.
  destruct (Hm w) as (evs & Ht & Hid & Hch & Hpost).
  destruct (m w) as [[a|r|e] w']; cbn [fst snd] in *.
  - destruct (Hf a w') as (evs' & Ht' & Hid' & Hch' & Hpost').
    exists (evs ++ evs'). rewrite comment_updates_app, map_app.
    split; [now rewrite Ht', Ht, app_assoc|].
    split; [apply Forall_app; auto|].
    rewrite (Hpost a eq_refl) in Hch', Hpost'.
    split; [now apply each_extends_app|].
    intros b Hb. rewrite last_app_default. now apply Hpost'.
  - exists evs. repeat split; auto. discriminate.
  - exists evs. repeat split; auto. discriminate.
Qed.

Lemma grows_try_finally {A} c (m : M World R A) (cleanup : M World R unit) post :
  comment_grows cid c m post ->
  emits (fun e => negb (is_UpdateComment e)) cleanup ->
  comment_grows cid c (try_finally m cleanup) post.
Proof.
  intros Hm Hc w. unfold try_finally.
  destruct (Hm w) as (evs & Ht & Hid & Hch & Hpost).
  destruct (m w) as [o w']. cbn [fst snd] in *.
  destruct (Hc w') as (evs' & Ht' & Hq).
  assert (Hu : comment_updates (evs ++ evs') = comment_updates evs)
    by (now rewrite comment_updates_app, (comment_updates_quiet evs' Hq), app_nil_r).
  exists (evs ++ evs'). rewrite Hu.
  destruct (cleanup w') as [[u|r|e] w'']; cbn [fst snd] in *;
    (split; [now rewrite Ht', Ht, app_assoc|]);
    (split; [exact Hid|]); (split; [exact Hch|]);
    first [exact Hpost | discriminate].
Qed.

Lemma grows_never {A} c (m : M World R A) post post' :
  comment_grows cid c m post ->
  (forall w a, fst (m w) <> Normal a) ->
  comment_grows cid c m post'.
Proof.
  intros Hm Hn w. destruct (Hm w) as (evs & Ht & Hid & Hch & _).
  exists evs. repeat split; auto. intros a Ha. now destruct (Hn w a).
Qed.

End CommentGrows.

Section MergeComment.
Variable env : MergeEnv.
Variable cid : Z.
Local Abbreviation R := (bool * string)%type.
Local Abbreviation quiet := (fun e : event => negb (is_UpdateComment e)).

Lemma quiet_moves_file {A} (m : M World R A) :
  emits moves_file m -> emits quiet m.
Proof. apply emits_weaken. now intros []. Qed.

Lemma grows_ret {A} c (a : A) (post : A -> string) :
  post a = c -> comment_grows cid c (@ret World R A a) post.
Proof.
  intros Hp w. exists []. cbn. rewrite app_nil_r.
  repeat split; auto. intros a' Ha. injection Ha as <-. exact Hp.
Qed.

Lemma grows_return {A} c (r : R) (post : A -> string) :
  comment_grows cid c (@return_ World R A r) post.
Proof.
  intros w. exists []. cbn. rewrite app_nil_r.
  repeat split; auto. discriminate.
Qed.

Lemma grows_upload_images d images :
  forall st, comment_grows cid (snd st) (upload_images env d cid images st) snd.
Proof.
  induction images as [|[fname dref] rest IH]; intros st; cbn [upload_images].
  - now apply grows_ret.
  - apply (grows_bind cid _ _ _ (fun _ => snd st)).
    + apply grows_quiet, quiet_moves_file, emits_for_range, emits_call_skopeo.
    + intros [|]; [|apply grows_return].
      eapply grows_bind; [apply grows_update, extends_append|].
      intros u. cbv beta. apply (IH (_, _)).
Qed.

Lemma grows_upload_packages d packages :
  forall st, comment_grows cid (snd st) (upload_packages env d cid packages st) snd.
Proof.
  induction packages as [|fname rest IH]; intros st; cbn [upload_packages].
  - now apply grows_ret.
  - apply (grows_bind cid _ _ _ (fun _ => snd st)).
    + apply grows_quiet, quiet_moves_file, emits_for_range, emits_call_anaconda.
    + intros [|];
        [|apply (grows_bind cid _ _ _ (fun _ => snd st));
            [apply grows_quiet, emits_emit; reflexivity
            |intros _; apply grows_return]].
      eapply grows_bind; [apply grows_update, extends_append|].
      intros u. cbv beta. apply (IH (_, _)).
Qed.

Lemma grows_upload_block files images packages comment :
  comment_grows cid comment
    (upload_block env cid files images packages comment) snd.
Proof.
  unfold upload_block, with_TemporaryDirectory.
  apply (grows_bind cid _ _ _ (fun _ => comment));
    [apply grows_quiet, emits_emit; reflexivity|intros _].
  apply (grows_bind cid _ _ _ (fun _ => comment)).
  { apply grows_quiet. intros w. exists []. cbn. now rewrite app_nil_r. }
  intros _. apply grows_try_finally.
  - apply (grows_bind cid _ _ _ (fun _ => comment));
      [apply grows_quiet, quiet_moves_file, emits_download|].
    intros [|]; cbn [negb]; [|apply grows_return].
    eapply grows_bind; [apply (grows_upload_images _ _ ([], comment))|].
    intros st. cbv beta. apply grows_upload_packages.
  - apply emits_bind; [|intros _; now apply emits_emit].
    intros w. exists []. cbn. now rewrite app_nil_r.
Qed.

Lemma extends_comment_merging comment co lo :
  extends comment (comment_merging env comment co lo).
Proof.
  unfold comment_merging. destruct (bool_decide _).
  - eapply extends_trans; [|apply extends_append].
    eapply extends_trans; [|apply extends_append]. apply extends_append.
  - eapply extends_trans; [|apply extends_append]. apply extends_append.
Qed.

Lemma grows_finish_merge pr n st post :
  comment_grows cid (snd st) (finish_merge env pr n cid st) post.
Proof.
  destruct st as [uploaded comment]. intros w.
  rewrite finish_merge_run. cbn [fst snd trace set_trace].
  eexists. split; [reflexivity|]. cbn.
  split; [repeat constructor|]. split; [|discriminate].
  split; [apply extends_comment_merging|exact I].
Qed.

Lemma grows_merge_pr self n :
  comment_grows cid comment_started (merge_pr self env n cid) (fun _ => "").
Proof.
  unfold merge_pr.
  destruct (check_protections env n _) as [[[|]|] message].
  - destruct (collect _) as [[files images] packages].
    eapply grows_bind; [apply grows_update, extends_refl|intros u; cbv beta].
    destruct files as [|f files]; [apply grows_return|].
    eapply grows_bind; [apply grows_update, extends_append|intros u'; cbv beta].
    eapply grows_bind; [apply grows_upload_block|intros st; cbv beta].
    apply grows_finish_merge.
  - apply grows_return.
  - destruct (retry self 20 15); try apply grows_return;
      (intros w; exists []; cbn; rewrite app_nil_r; repeat split; auto;
       discriminate).
Qed.

End MergeComment.

(** X13.  The progress comment only grows: every comment update of an
    execution of [merge_pr] writes to the comment it was given, the
    first body starts with the lines [comment_started], and every later
    body is the one before it with something appended, whatever the
    collaborators answer and however the execution ends. *)
Theorem progress_comment_only_grows self env n cid w :
  let run := merge_pr self env n cid w in
  exists evs,
    trace (snd run) = trace w ++ evs /\
    Forall (fun u => fst u = cid) (comment_updates evs) /\
    each_extends comment_started (map snd (comment_updates evs)).
Proof.
  cbv zeta.
  destruct (grows_merge_pr env cid self n w) as (evs & Ht & Hid & Hch & _).
  exists evs. auto.
Qed.

(** ** The delivery of [merge_pr] *)

Lemma open_error_inv env d files e :
  open_error env d files = Some e -> exists fpath, open_raises env fpath = Some e.
Proof.
  induction files as [|[url path] rest IH]; cbn [open_error]; [discriminate|].
  destruct (open_raises env (os_path_join d path)) as [e'|] eqn:E; [|exact IH].
  intros H. inversion H; subst e'. eauto.
Qed.

Lemma download_error_never_retries env d files e :
  fetch_never_retries env ->
  download_error env d files = Some e -> is_Retry e = false.
Proof.
  intros [Hfetch Hopen]. unfold download_error.
  destruct (open_error env d files) as [e'|] eqn:E.
  - intros H. inversion H; subst e'.
    apply open_error_inv in E as [fpath E]. exact (Hopen _ _ E).
  - apply Hfetch.
Qed.

(** An execution asks for a retry only without a verdict and with
    fewer than fifteen retries behind it, and then does nothing else. *)
Lemma merge_pr_Retry_inv self env n cid w e w' :
  fetch_never_retries env ->
  merge_pr self env n cid w = (Raise e, w') ->
  is_Retry e = true ->
  indeterminate env n /\ (request_retries self < 15)%nat /\ w' = w.
Proof.
  intros Hfetch Hrun He.
  destruct (merge_verdict env n) as [[[|]|] message] eqn:Hv.
  - exfalso.
    destruct (merge_files env n) as [|f fs] eqn:Hf.
    + unfold merge_verdict, merge_files, merge_artifacts in *.
      unfold merge_pr in Hrun. rewrite Hv in Hrun.
      destruct (collect _) as [[files images] packages]. cbn [fst snd] in Hf.
      subst files. discriminate Hrun.
    + assert (Hne : merge_files env n <> []) by (rewrite Hf; discriminate).
      rewrite (merge_pr_checked self env n cid w message Hv Hne) in Hrun.
      destruct (collect (merge_artifacts env n)) as [[files images] packages].
      cbn [fst snd] in Hrun. unfold bind in Hrun.
      match type of Hrun with
      | context [upload_block env cid files images packages ?c ?w0] =>
          pose proof (upload_block_outcome env cid files images packages c w0) as Ho;
          destruct (upload_block env cid files images packages c w0)
            as [[[uploaded comment]|r|e0] w1]
      end.
      * rewrite finish_merge_run in Hrun. discriminate Hrun.
      * discriminate Hrun.
      * inversion Hrun; subst e0 w1. cbn [fst] in Ho.
        destruct (download_error env (tmpdir env) files) as [e1|] eqn:Hf1;
          [|exact Ho].
        inversion Ho; subst e1.
        apply (download_error_never_retries env _ _ _ Hfetch) in Hf1. congruence.
  - rewrite (merge_pr_failed_checks self env n cid w message Hv) in Hrun.
    discriminate Hrun.
  - assert (Hi : indeterminate env n)
      by (unfold indeterminate; fold (merge_verdict env n); now rewrite Hv).
    rewrite (merge_pr_indeterminate self env n cid w Hi) in Hrun.
    destruct (Nat.ltb (request_retries self) 15) eqn:Hlt; [|discriminate Hrun].
    apply Nat.ltb_lt in Hlt. inversion Hrun. auto.
Qed.

Lemma deliver_ends (envs : nat -> MergeEnv) (n cid : Z) :
  (forall k, fetch_never_retries (envs k)) ->
  forall (j r : nat) (w : World),
    r + j = 16 -> (0 < j)%nat ->
    exists o w',
      deliver j r envs n cid w = Some (o, w') /\
      (forall e, o = Raise e -> is_Retry e = false) /\
      exists evs, trace w' = trace w ++ evs /\
                  (count_Reschedule evs < j)%nat.
Proof.
  intros Hfetch. induction j as [|j IH]; intros r w Hsum Hj; [lia|].
  cbn [deliver].
  destruct (merge_pr (mkTask r) (envs r) n cid w) as [o w1] eqn:Hrun.
  assert (Hev : exists evs, trace w1 = trace w ++ evs /\ count_Reschedule evs = 0).
  { destruct (grows_merge_pr (envs r) cid (mkTask r) n w) as (evs & Ht & _).
    rewrite Hrun in Ht. exists evs. split; [exact Ht|].
    destruct (merge_pr_run (mkTask r) (envs r) n cid w)
      as [(_ & Ht')|[(_ & _ & Ht')|(_ & _ & inside & after & Ht' & Hi & Hcase)]];
      cbv zeta in *; rewrite Hrun in *; cbn [snd] in *; rewrite Ht in Ht'.
    - assert (evs = [])
        by (apply (app_inv_head (trace w)); rewrite app_nil_r; congruence).
      now subst.
    - apply app_inv_head in Ht'. now subst.
    - apply app_inv_head in Ht'. subst evs. unfold count_Reschedule.
      cbn [app List.filter]. rewrite List.filter_app. cbn [List.filter].
      rewrite length_app.
      assert (Hin : List.filter
                (fun e => match e with Reschedule _ => true | _ => false end)
                inside = []).
      { clear -Hi. induction inside as [|e l IHl]; [reflexivity|].
        cbn [forallb] in Hi. apply andb_prop in Hi. destruct Hi as [He Hl].
        destruct e; try discriminate He; cbn; auto. }
      rewrite Hin.
      destruct Hcase as [(-> & _)|(comment & -> & _)]; reflexivity. }
  destruct Hev as (evs & Ht & Hc).
  assert (Hstop : (forall e, o = Raise e -> is_Retry e = false) ->
                  exists o' w',
                    Some (o, w1) = Some (o', w') /\
                    (forall e, o' = Raise e -> is_Retry e = false) /\
                    exists evs', trace w' = trace w ++ evs' /\
                                 (count_Reschedule evs' < S j)%nat).
  { intros Ho. exists o, w1. split; [reflexivity|]. split; [exact Ho|].
    exists evs. split; [exact Ht|]. lia. }
  destruct o as [u|res|e]; try (apply Hstop; discriminate).
  destruct e; try (apply Hstop; intros e' He'; now inversion He').
  destruct (merge_pr_Retry_inv _ _ _ _ _ _ _ (Hfetch r) Hrun eq_refl)
    as (_ & Hlt & ->).
  cbn [request_retries] in Hlt.
  destruct (IH (S r) (set_trace (trace w ++ [Reschedule countdown]) w))
    as (o' & w' & Hd & Ho' & evs' & Ht' & Hc'); [lia|lia|].
  exists o', w'. split; [exact Hd|]. split; [exact Ho'|].
  exists (Reschedule countdown :: evs'). split.
  - rewrite Ht'. cbn [trace set_trace]. now rewrite <- app_assoc.
  - unfold count_Reschedule in *. cbn [List.filter length]. lia.
Qed.

(** X14.  A delivery of [merge_pr] ends: when the download never raises
    Celery's [Retry], sixteen executions are always enough, whatever
    the collaborators answer in each of them; the delivery ends with a
    value or an exception that is no request for a retry, after at most
    fifteen reschedulings. *)
Theorem delivery_ends_within_16_executions (envs : nat -> MergeEnv)
    (n cid : Z) (w : World) :
  (forall k, fetch_never_retries (envs k)) ->
  exists o w',
    deliver 16 0 envs n cid w = Some (o, w') /\
    (forall e, o = Raise e -> is_Retry e = false) /\
    exists evs, trace w' = trace w ++ evs /\ (count_Reschedule evs <= 15)%nat.
Proof.
  intros Hfetch.
  destruct (deliver_ends envs n cid Hfetch 16 0 w) as (o & w' & Hd & Ho & evs & Ht & Hc);
    [lia|lia|].
  exists o, w'. split; [exact Hd|]. split; [exact Ho|].
  exists evs. split; [exact Ht|]. lia.
Qed.

Lemma delivery_ends_within_16_executions_witness :
  (forall k, fetch_never_retries (late_verdict k)) /\
  exists o w',
    deliver 16 0 late_verdict 42 7 world0 = Some (o, w') /\
    (forall e, o = Raise e -> is_Retry e = false).
Proof.
  assert (H : forall k, fetch_never_retries (late_verdict k))
    by (intros k; split; intros x e He; discriminate He).
  split; [exact H|].
  destruct (delivery_ends_within_16_executions late_verdict 42 7 world0 H)
    as (o & w' & Hd & Ho & _).
  exists o, w'. split; [exact Hd|exact Ho].
Defined.

(** ** [check_circle_artifacts]: the comment *)

Lemma first_line_prefix (msg : string) :
  String.prefix (first_line msg) msg = true.
Proof.
  induction msg as [|c rest IH]; [reflexivity|]. cbn [first_line].
  destruct (is_newline c); [reflexivity|]. cbn [String.prefix].
  destruct (ascii_dec c c) as [_|Hc]; [exact IH|now destruct Hc].
Qed.

Lemma post_comment_run {R} (comments : list (Z * string)) (n : Z)
    (msg : string) (w : World) :
  @post_comment R comments n msg w
  = (Normal tt,
     set_trace
       (trace w ++
        [match List.find (starts_with_head msg) comments with
         | Some c => UpdateComment (fst c) msg
         | None => CreateComment n msg
         end]) w).
Proof.
  induction comments as [|[id body] rest IH]; [reflexivity|].
  cbn [post_comment List.find]. unfold starts_with_head at 1. cbn [snd fst].
  destruct (String.prefix (first_line msg) body); [reflexivity|exact IH].
Qed.

Lemma check_circle_artifacts_run env n w :
  check_circle_artifacts env n w
  = post_comment (iter_comments env n) n (artifacts_message env n) w.
Proof.
  unfold check_circle_artifacts, artifacts_message.
  destruct (classify_artifacts _) as [[packages images] repos]. reflexivity.
Qed.

(** X15.  [check_circle_artifacts] writes exactly one comment and does
    nothing else: it replaces the first comment of the pull request
    whose body starts with the first line of the new message, and only
    when there is none it creates a comment. *)
Theorem artifacts_comment_posted_once env n w :
  let msg := artifacts_message env n in
  check_circle_artifacts env n w
  = (Normal tt,
     set_trace
       (trace w ++
        [match List.find (starts_with_head msg) (iter_comments env n) with
         | Some c => UpdateComment (fst c) msg
         | None => CreateComment n msg
         end]) w).
Proof.
  cbv zeta. rewrite check_circle_artifacts_run. apply post_comment_run.
Qed.

(** X16.  [check_circle_artifacts] does not post twice: when a comment
    of the pull request has a body with the same first line as the new
    message, as the comment of an earlier execution has, no comment is
    created; a comment is replaced by the new message. *)
Theorem artifacts_comment_not_duplicated env n w id body :
  let msg := artifacts_message env n in
  In (id, body) (iter_comments env n) ->
  first_line body = first_line msg ->
  exists id',
    trace (snd (check_circle_artifacts env n w))
    = trace w ++ [UpdateComment id' msg].
Proof.
  cbv zeta. intros Hin Hhead.
  rewrite check_circle_artifacts_run, post_comment_run. cbn [snd trace set_trace].
  destruct (List.find _ _) as [c|] eqn:Hfind; [eauto|].
  exfalso.
  pose proof (find_none _ _ Hfind (id, body) Hin) as Hno.
  unfold starts_with_head in Hno. cbn [snd] in Hno.
  now rewrite <- Hhead, first_line_prefix in Hno.
Qed.

Lemma artifacts_comment_not_duplicated_witness :
  let env := sample_artifacts_env
               [(11, "LGTM");
                (12, "Package(s) built on CircleCI are ready for inspection:"
                     +:+ nl +:+ "0 packages, 1 images")]%Z in
  In (12%Z, "Package(s) built on CircleCI are ready for inspection:"
            +:+ nl +:+ "0 packages, 1 images") (iter_comments env 42) /\
  first_line ("Package(s) built on CircleCI are ready for inspection:"
              +:+ nl +:+ "0 packages, 1 images")
  = first_line (artifacts_message env 42) /\
  exists id',
    trace (snd (check_circle_artifacts env 42 world0))
    = trace world0 ++ [UpdateComment id' (artifacts_message env 42)].
Proof.
  intros env.
  assert (H1 : In (12%Z, "Package(s) built on CircleCI are ready for inspection:"
                         +:+ nl +:+ "0 packages, 1 images")
                 (iter_comments env 42)) by (right; left; reflexivity).
  assert (H2 : first_line ("Package(s) built on CircleCI are ready for inspection:"
                           +:+ nl +:+ "0 packages, 1 images")
               = first_line (artifacts_message env 42))
    by (vm_compute; reflexivity).
  split; [exact H1|]. split; [exact H2|].
  exact (artifacts_comment_not_duplicated env 42 world0 12 _ H1 H2).
Defined.

(** ** [get_latest_pr_commit] and [create_check_run] *)

(** X17.  [get_latest_pr_commit] answers the sha of the last commit
    that the pull request lists, and [None] for a pull request without
    commits. *)
Theorem get_latest_pr_commit_is_last (commits : list Commit) :
  get_latest_pr_commit commits = sha <$> last commits.
Proof.
  unfold get_latest_pr_commit.
  induction commits as [|c l IH] using rev_ind; [reflexivity|].
  rewrite fold_left_app, last_snoc. reflexivity.
Qed.

Lemma for_check_runs_run (check_runs : list CheckRun) (s : CheckRuns) :
  for_check_runs check_runs s
  = (if existsb (fun r => bool_decide (check_run_name r = Some LINT_CHECK_NAME))
          check_runs
     then Return tt else Normal tt, s).
Proof.
  induction check_runs as [|r rest IH]; [reflexivity|].
  cbn [for_check_runs existsb]. destruct (bool_decide _); [reflexivity|exact IH].
Qed.

Lemma existsb_lint_runs (head_sha : string) (s : CheckRuns) :
  existsb (fun r => bool_decide (check_run_name r = Some LINT_CHECK_NAME))
    (map snd (List.filter (fun p => String.eqb (fst p) head_sha) s))
  = negb (match lint_runs head_sha s with [] => true | _ => false end).
Proof.
  unfold lint_runs.
  induction (map snd (List.filter (fun p => String.eqb (fst p) head_sha) s))
    as [|r l IH]; [reflexivity|].
  cbn [existsb List.filter]. destruct (bool_decide _); [reflexivity|exact IH].
Qed.

Lemma create_check_run_run (head_sha : string) (recreate : bool) (s : CheckRuns) :
  snd (create_check_run (Some head_sha) recreate s)
  = if recreate || match lint_runs head_sha s with [] => true | _ => false end
    then s ++ [(head_sha, mkCheckRun (Some LINT_CHECK_NAME))]
    else s.
Proof.
  unfold create_check_run. destruct recreate; cbn [negb orb]; [reflexivity|].
  cbv [bind ghapi_get_check_runs ghapi_create_check_run get_state ret
       update_state].
  rewrite for_check_runs_run, existsb_lint_runs.
  destruct (lint_runs head_sha s); reflexivity.
Qed.

Lemma lint_runs_app (head_sha : string) (s t : CheckRuns) :
  lint_runs head_sha (s ++ t) = lint_runs head_sha s ++ lint_runs head_sha t.
Proof.
  unfold lint_runs. now rewrite List.filter_app, map_app, List.filter_app.
Qed.

(** X18.  [create_check_run] with [recreate=False] is idempotent: for
    check runs kept as GitHub keeps them, after one execution the sha
    has a lint check run, one more than before only if it had none, and
    a second execution changes nothing; the runs that were there stay
    as they are.  Without a sha nothing is created. *)
Theorem create_check_run_idempotent (head_sha : string) (s : CheckRuns) :
  let s1 := snd (create_check_run (Some head_sha) false s) in
  lint_runs head_sha s1 <> [] /\
  (lint_runs head_sha s <> [] -> s1 = s) /\
  (exists added, s1 = s ++ added /\ (length added <= 1)%nat) /\
  snd (create_check_run (Some head_sha) false s1) = s1 /\
  (forall recreate, snd (create_check_run None recreate s) = s).
Proof.
  cbv zeta. rewrite !create_check_run_run. cbn [orb].
  assert (Hnew : lint_runs head_sha
                   (s ++ [(head_sha, mkCheckRun (Some LINT_CHECK_NAME))]) <> []).
  { rewrite lint_runs_app. unfold lint_runs at 2. cbn [List.filter fst].
    rewrite String.eqb_refl. cbn. intros H. now apply app_eq_nil in H. }
  destruct (lint_runs head_sha s) as [|r l] eqn:Hs.
  - split; [exact Hnew|]. split; [congruence|].
    split; [eexists; split; [reflexivity|cbn; lia]|].
    split; [|reflexivity].
    destruct (lint_runs head_sha (s ++ _)); [now destruct Hnew|reflexivity].
  - rewrite Hs. split; [discriminate|]. split; [reflexivity|].
    split; [exists []; rewrite app_nil_r; split; [reflexivity|cbn; lia]|].
    split; reflexivity.
Qed.

Lemma create_check_run_idempotent_witness :
  let s := [("0123abc", mkCheckRun (Some "build")); ("0123abc", mkCheckRun None)] in
  let s1 := snd (create_check_run (Some "0123abc") false s) in
  lint_runs "0123abc" s1 <> [] /\
  snd (create_check_run (Some "0123abc") false s1) = s1.
Proof.
  intros s s1.
  pose proof (create_check_run_idempotent "0123abc" s) as H.
  exact (conj (proj1 H) (proj1 (proj2 (proj2 (proj2 H))))).
Defined.

(** ** [lint_check] *)

Lemma aenter_events {R} (env : CheckoutEnv) (self : Checkout) (w : World) :
  exists evs,
    trace (snd (snd (@aenter R env (self, w)))) = trace w ++ evs /\
    forallb (fun e => negb (is_ModifyCheckRun e)) evs = true.
Proof.
  destruct self as [oc g0 rf inum].
  unfold_checkout.
  repeat (destruct_innermost; cbn);
    first [ exists []; split; [now rewrite app_nil_r | reflexivity]
          | eexists [_]; split; reflexivity ].
Qed.

Section LintRuns.
Variable lenv : LintEnv.
Variable cenv : CheckoutEnv.
Variable Report : Type.
Variable run_linter : list string -> M World unit Report.
Variable report : list string -> Report -> M World unit unit.

(** The scope of [lint_check] when its block does not reach the
    linter. *)
Lemma lint_check_scope_early (n : Z) (ref : string) (w : World) :
  (forall g, get_recipes_to_build lenv g = inr [] \/
             exists e, get_recipes_to_build lenv g = inl e) ->
  exists o w',
    async_with_Checkout cenv (Checkout_init (Some ref) None)
      (lint_check_body lenv Report run_linter n ref) w = (o, w') /\
    (forall a, o <> Normal a) /\
    forall Report' (run_linter' : list string -> M World unit Report'),
      exists o',
        async_with_Checkout cenv (Checkout_init (Some ref) None)
          (lint_check_body lenv Report' run_linter' n ref) w = (o', w') /\
        match o, o' with
        | Return r, Return r' => r = r'
        | Raise e, Raise e' => e = e'
        | _, _ => False
        end.
Proof.
  intros Hrec. unfold async_with_Checkout.
  destruct (@aenter_Normal unit cenv (Checkout_init (Some ref) None) w)
    as (v & [self w1] & Hent).
  rewrite Hent.
  assert (Hbody : exists o w2,
            lint_check_body lenv Report run_linter n ref v w1 = (o, w2) /\
            (forall a, o <> Normal a) /\
            forall Report' (run_linter' : list string -> M World unit Report'),
              exists o',
                lint_check_body lenv Report' run_linter' n ref v w1 = (o', w2) /\
                match o, o' with
                | Return r, Return r' => r = r'
                | Raise e, Raise e' => e = e'
                | _, _ => False
                end).
  { destruct v as [g|]; unfold lint_check_body.
    - destruct (Hrec g) as [Hg|[e Hg]]; rewrite Hg;
        cbv [lift_result bind ret raise emit update_state return_];
        eexists _, _; (split; [reflexivity|]); (split; [discriminate|]);
        intros Report' run_linter'; eexists; split; reflexivity.
    - cbv [bind emit update_state return_].
      eexists _, _; (split; [reflexivity|]); (split; [discriminate|]).
      intros Report' run_linter'. eexists. split; reflexivity. }
  destruct Hbody as (o & w2 & Hb & Hno & Hsame). rewrite Hb.
  destruct (aexit cenv (self, w2)) as [[u|r|e] [self3 w3]] eqn:Hex.
  - exists o, w3. split; [reflexivity|]. split; [exact Hno|].
    intros Report' run_linter'.
    destruct (Hsame Report' run_linter') as (o' & Hb' & Ho). rewrite Hb', Hex.
    exists o'. split; [reflexivity|exact Ho].
  - exists (Return r), w3. split; [reflexivity|]. split; [discriminate|].
    intros Report' run_linter'.
    destruct (Hsame Report' run_linter') as (o' & Hb' & Ho). rewrite Hb', Hex.
    exists (Return r). split; reflexivity.
  - exists (Raise e), w3. split; [reflexivity|]. split; [discriminate|].
    intros Report' run_linter'.
    destruct (Hsame Report' run_linter') as (o' & Hb' & Ho). rewrite Hb', Hex.
    exists (Raise e). split; reflexivity.
Qed.

End LintRuns.

(** X19.  [lint_check] without recipes to build: when the branch
    modifies no recipe, the linter and the report have no part in the
    execution (it is the same for every linter and every report), the
    check run is first set to in progress, and the last thing done to
    it completes it, as cancelled when the checkout failed and as
    neutral otherwise. *)
Theorem lint_check_without_recipes (lenv : LintEnv) (cenv : CheckoutEnv)
    (Report : Type) (run_linter : list string -> M World unit Report)
    (report : list string -> Report -> M World unit unit)
    (n : Z) (ref : string) (w : World) :
  (forall g, get_recipes_to_build lenv g = inr []) ->
  let run := lint_check lenv Report run_linter report cenv n ref w in
  (forall Report' run_linter' report',
     lint_check lenv Report' run_linter' report' cenv n ref w = run) /\
  exists evs conclusion title,
    trace (snd run)
    = trace w ++ ModifyCheckRun n in_progress None "" :: evs
      ++ [ModifyCheckRun n completed (Some conclusion) title] /\
    forallb (fun e => negb (is_ModifyCheckRun e)) evs = true /\
    conclusion
    = match fst (@aenter unit cenv
                   (Checkout_init (Some ref) None,
                    set_trace (trace w ++ [ModifyCheckRun n in_progress None ""]) w))
      with
      | Normal (Some _) => neutral
      | _ => cancelled
      end.
Proof.
  intros Hrec. cbv zeta. split.
  - intros Report' run_linter' report'. unfold lint_check.
    unfold bind, emit, update_state. cbn [fst snd].
    set (w0 := set_trace _ w).
    destruct (lint_check_scope_early lenv cenv Report run_linter n ref w0)
      as (o & w' & Hrun & Hno & Hsame); [intros g; left; apply Hrec|].
    destruct (Hsame Report' run_linter') as (o' & Hrun' & Ho).
    rewrite Hrun, Hrun'.
    destruct o as [a|r|e]; [now destruct (Hno a)| |];
      destruct o' as [a'|r'|e']; try contradiction; now subst.
  - unfold lint_check.
    unfold bind, emit, update_state. cbn [fst snd].
    set (w0 := set_trace _ w).
    assert (Ht0 : trace w0 = trace w ++ [ModifyCheckRun n in_progress None ""])
      by reflexivity.
    clearbody w0. unfold async_with_Checkout.
    destruct (@aenter_events unit cenv (Checkout_init (Some ref) None) w0)
      as (evs & Ht1 & Hq).
    destruct (@aenter_Normal unit cenv (Checkout_init (Some ref) None) w0)
      as (v & [self w1] & Hent).
    rewrite Hent in *. cbn [fst snd] in *.
    assert (Hbody : exists c title,
              lint_check_body lenv Report run_linter n ref v w1
              = (Return tt,
                 set_trace (trace w1 ++ [ModifyCheckRun n completed (Some c) title]) w1)
              /\ c = match v with Some _ => neutral | None => cancelled end).
    { destruct v as [g|]; unfold lint_check_body.
      - rewrite Hrec. eexists _, _. split; reflexivity.
      - eexists _, _. split; reflexivity. }
    destruct Hbody as (c & title & Hb & Hc). rewrite Hb.
    pose proof (@aexit_trace unit cenv self
                  (set_trace (trace w1 ++ [ModifyCheckRun n completed (Some c) title]) w1))
      as Ht3.
    exists evs, c, title.
    destruct (aexit cenv _) as [[u|r|e] [self3 w3]]; cbn [fst snd] in *;
      (split; [rewrite Ht3, Ht1, Ht0, <- !app_assoc; reflexivity|]);
      (split; [exact Hq|]); rewrite Hc; now destruct v.
Qed.

Lemma lint_check_without_recipes_witness :
  let run := lint_check (sample_lint_env (inr [])) bool quiet_linter
               (short_report 3) checkout_works 3
               "0123456789abcdef0123456789abcdef01234567" world0 in
  (forall g, get_recipes_to_build (sample_lint_env (inr [])) g = inr []) /\
  (forall Report' run_linter' report',
     lint_check (sample_lint_env (inr [])) Report' run_linter' report'
       checkout_works 3 "0123456789abcdef0123456789abcdef01234567" world0
     = run).
Proof.
  intros run.
  assert (H : forall g, get_recipes_to_build (sample_lint_env (inr [])) g = inr [])
    by reflexivity.
  split; [exact H|].
  exact (proj1 (lint_check_without_recipes (sample_lint_env (inr []))
                  checkout_works bool quiet_linter (short_report 3) 3
                  "0123456789abcdef0123456789abcdef01234567" world0 H)).
Defined.

Lemma aenter_Some_trace {R} (env : CheckoutEnv) (self : Checkout) (w : World) :
  match @aenter R env (self, w) with
  | (Normal (Some g), s) => trace (snd s) = trace w
  | _ => True
  end.
Proof.
  destruct self as [oc g0 rf inum].
  unfold_checkout.
  repeat (destruct_innermost; cbn); auto.
Qed.

(** X20.  [lint_check] when the recipes cannot be listed: after a
    checkout that worked, an exception of [get_recipes_to_build] leaves
    the handler as an exception, and the only thing done to the check
    run is that it was set to in progress: it is never completed. *)
Theorem lint_check_listing_failure (lenv : LintEnv) (cenv : CheckoutEnv)
    (Report : Type) (run_linter : list string -> M World unit Report)
    (report : list string -> Report -> M World unit unit)
    (n : Z) (ref : string) (w : World) (g : TempBiocondaRepo) (e : exn) :
  let w0 := set_trace (trace w ++ [ModifyCheckRun n in_progress None ""]) w in
  let run := lint_check lenv Report run_linter report cenv n ref w in
  fst (@aenter unit cenv (Checkout_init (Some ref) None, w0)) = Normal (Some g) ->
  get_recipes_to_build lenv g = inl e ->
  (exists e', fst run = Raise e') /\
  trace (snd run) = trace w ++ [ModifyCheckRun n in_progress None ""].
Proof.
  cbv zeta. intros Hent Hrec. unfold lint_check.
  unfold bind, emit, update_state. cbn [fst snd].
  set (w0 := set_trace _ w) in *.
  assert (Ht0 : trace w0 = trace w ++ [ModifyCheckRun n in_progress None ""])
    by reflexivity.
  clearbody w0. unfold async_with_Checkout.
  pose proof (@aenter_Some_trace unit cenv (Checkout_init (Some ref) None) w0) as Ht1.
  destruct (aenter cenv (Checkout_init (Some ref) None, w0)) as [o [self w1]].
  cbn [fst] in Hent. subst o. cbn [snd] in Ht1.
  unfold lint_check_body. rewrite Hrec.
  cbv [lift_result bind raise].
  pose proof (@aexit_trace unit cenv self w1) as Ht3.
  pose proof (@aexit_no_Return unit cenv self w1) as Hex.
  destruct (aexit cenv (self, w1)) as [[u|r|e'] [self3 w3]]; cbn [fst snd] in *.
  - split; [eauto|]. now rewrite Ht3, Ht1.
  - destruct Hex.
  - split; [eauto|]. now rewrite Ht3, Ht1.
Qed.

Lemma lint_check_listing_failure_witness :
  let lenv := sample_lint_env (inl (Exception "git diff failed")) in
  let ref := "0123456789abcdef0123456789abcdef01234567" in
  let run := lint_check lenv bool quiet_linter (short_report 3)
               checkout_works 3 ref world0 in
  fst (@aenter unit checkout_works
         (Checkout_init (Some ref) None,
          set_trace (trace world0 ++ [ModifyCheckRun 3 in_progress None ""]) world0))
  = Normal (Some sample_clone) /\
  get_recipes_to_build lenv sample_clone = inl (Exception "git diff failed") /\
  trace (snd run) = trace world0 ++ [ModifyCheckRun 3 in_progress None ""].
Proof.
  intros lenv ref run.
  assert (H1 : fst (@aenter unit checkout_works
                      (Checkout_init (Some ref) None,
                       set_trace (trace world0 ++ [ModifyCheckRun 3 in_progress None ""])
                         world0))
               = Normal (Some sample_clone)) by reflexivity.
  assert (H2 : get_recipes_to_build lenv sample_clone
               = inl (Exception "git diff failed")) by reflexivity.
  split; [exact H1|]. split; [exact H2|].
  exact (proj2 (lint_check_listing_failure lenv checkout_works bool quiet_linter
                  (short_report 3) 3 ref world0 sample_clone _ H1 H2)).
Defined.

(** ** [Checkout] *)

(** X21.  With an issue number, [Checkout] ignores [ref]: entering the
    scope for a pull request does the same and gives the same clone
    whatever [ref] was passed along. *)
Theorem checkout_issue_number_overrides_ref {R} (env : CheckoutEnv)
    (rf rf' : option string) (n : Z) (w : World) :
  n <> 0%Z ->
  let entered := @aenter R env (Checkout_init rf (Some n), w) in
  let entered' := @aenter R env (Checkout_init rf' (Some n), w) in
  fst entered = fst entered' /\
  snd (snd entered) = snd (snd entered') /\
  git (fst (snd entered)) = git (fst (snd entered')) /\
  orig_cwd (fst (snd entered)) = orig_cwd (fst (snd entered')).
Proof.
  intros Hn. cbv zeta.
  unfold_checkout. cbv [truthy_int default id].
  destruct (n =? 0)%Z eqn:E; [apply Z.eqb_eq in E; contradiction|].
  cbn [negb].
  repeat (destruct_innermost; cbn); auto.
Qed.

Lemma checkout_issue_number_overrides_ref_witness :
  (42 <> 0)%Z /\
  fst (@aenter unit checkout_works (Checkout_init (Some "deadbeef") (Some 42%Z), world0))
  = fst (@aenter unit checkout_works (Checkout_init None (Some 42%Z), world0)).
Proof.
  assert (H : (42 <> 0)%Z) by lia.
  split; [exact H|].
  exact (proj1 (@checkout_issue_number_overrides_ref unit checkout_works
                  (Some "deadbeef") None 42 world0 H)).
Defined.

(** X22.  What a clone handed to the block stands for: when
    [__aenter__] gives a clone, it is the clone created for the target
    (the fork and branch of the pull request, or [unknown] at [ref]),
    the bot's user was set in it, its branch was found and checked out,
    the process is in the clone's directory with the old directory
    recorded, the clone is open, and nothing was logged. *)
Theorem checkout_gives_checked_out_clone {R} (env : CheckoutEnv)
    (self self' : Checkout) (w w' : World) (g : TempBiocondaRepo) :
  @aenter R env (self, w) = (Normal (Some g), (self', w')) ->
  (exists fork_user fork_repo branch_name rf b,
     checkout_target env self = inr (fork_user, fork_repo, branch_name, rf) /\
     new_TempBiocondaRepo env fork_user fork_repo = inr g /\
     set_user env g = inr tt /\
     create_local_branch env g branch_name rf = inr (Some b) /\
     branch_checkout env b = inr tt) /\
  git self' = Some g /\
  orig_cwd self' = Some (cwd w) /\
  cwd w' = tempdir g /\
  In (tempdir g) (clones w') /\
  trace w' = trace w.
Proof.
  destruct self as [oc g0 rf inum].
  unfold checkout_target. unfold_checkout. cbv [id].
  repeat (destruct_innermost; cbn); intros H; inversion H; subst; clear H;
    repeat match goal with u : unit |- _ => destruct u end;
    (split; [eexists _, _, _, _, _; repeat split; eauto|]);
    cbn; repeat split; auto.
Qed.

Lemma checkout_gives_checked_out_clone_witness :
  let entered := @aenter unit checkout_works (Checkout_init None (Some 42%Z), world0) in
  entered = (Normal (Some sample_clone), (fst (snd entered), snd (snd entered))) /\
  cwd (snd (snd entered)) = tempdir sample_clone /\
  orig_cwd (fst (snd entered)) = Some (cwd world0).
Proof.
  intros entered.
  assert (H : entered
              = (Normal (Some sample_clone), (fst (snd entered), snd (snd entered))))
    by reflexivity.
  split; [exact H|].
  pose proof (@checkout_gives_checked_out_clone unit checkout_works _ _ _ _ _ H)
    as (_ & _ & Horig & Hcwd & _).
  exact (conj Hcwd Horig).
Defined.

Lemma take_prefix (n : nat) : forall s, String.prefix (take n s) s = true.
Proof.
  induction n as [|n IH]; intros [|c s]; try reflexivity.
  cbn [take String.prefix].
  destruct (ascii_dec c c) as [_|Hc]; [apply IH|now destruct Hc].
Qed.

Lemma take_length (n : nat) : forall s, (String.length (take n s) <= n)%nat.
Proof.
  induction n as [|n IH]; intros [|c s]; cbn; try lia.
  specialize (IH s). lia.
Qed.

Lemma prefix_refl (s : string) : String.prefix s s = true.
Proof.
  induction s as [|c s IH]; [reflexivity|]. cbn [String.prefix].
  destruct (ascii_dec c c) as [_|Hc]; [exact IH|now destruct Hc].
Qed.

(** X23.  The label that [lint_check] logs and puts in the title of a
    cancelled check run is always a beginning of [ref] and shorter than
    40 characters: a full sha is cut to its first eight characters,
    anything shorter is kept whole. *)
Theorem ref_label_short_prefix (ref : string) :
  String.prefix (ref_label ref) ref = true /\
  (String.length (ref_label ref) < 40)%nat /\
  ((String.length ref < 40)%nat -> ref_label ref = ref) /\
  ((40 <= String.length ref)%nat -> String.length (ref_label ref) = 8).
Proof.
  unfold ref_label. destruct (Nat.leb 40 (String.length ref)) eqn:E.
  - apply Nat.leb_le in E. split; [apply take_prefix|].
    pose proof (take_length 8 ref). split; [lia|]. split; [lia|]. intros _.
    do 8 (destruct ref as [|? ref]; [cbn in E; lia|]). reflexivity.
  - apply Nat.leb_gt in E. split; [apply prefix_refl|]. split; [exact E|].
    split; [reflexivity|lia].
Qed.

Lemma ref_label_short_prefix_witness :
  (40 <= String.length "0123456789abcdef0123456789abcdef01234567")%nat /\
  String.length (ref_label "0123456789abcdef0123456789abcdef01234567") = 8.
Proof.
  assert (H : (40 <= String.length "0123456789abcdef0123456789abcdef01234567")%nat)
    by (vm_compute; lia).
  split; [exact H|].
  exact (proj2 (proj2 (proj2 (ref_label_short_prefix
                                "0123456789abcdef0123456789abcdef01234567"))) H).
Defined.

(** X24.  [merge_pr] reports success only after GitHub merged: when an
    execution returns a pair whose first part is true, its last event
    is the merge request for the last commit, with the message that
    lists the uploads and then the co-author lines in the order in
    which this process iterates over their set, and the pair is
    GitHub's answer to that request.  Every other way out of the
    handler gives false or an exception. *)
Theorem merge_pr_success_only_after_merge self env n cid w msg :
  let run := merge_pr self env n cid w in
  let commits := iter_pr_commits env n in
  let last := get_latest_pr_commit commits in
  let message := Some (merge_message env (all_uploaded (merge_artifacts env n))
                         (coauthors_of (user_login (m_get_prs env n)) commits)) in
  fst run = Return (true, msg) ->
  ghapi_merge_pr env n last message = (true, msg) /\
  exists before,
    trace (snd run) = trace w ++ before ++ [MergePr n last message].
Proof.
  cbv zeta. intros Hrun.
  destruct (merge_verdict env n) as [[[|]|] m] eqn:Hv.
  - destruct (merge_pr_run self env n cid w)
      as [(Hv' & _)|[(_ & Hf & Ht)|(_ & Hf & inside & after & Ht & Hi & Hcase)]];
      cbv zeta in *.
    + rewrite Hv in Hv'. now destruct Hv'.
    + exfalso. unfold merge_verdict, merge_files, merge_artifacts in *.
      unfold merge_pr in Hrun. rewrite Hv in Hrun.
      destruct (collect _) as [[files images] packages]. cbn [fst snd] in Hf.
      subst files. discriminate Hrun.
    + destruct Hcase as [(_ & Hb)|(comment & -> & Hres & _)].
      * exfalso. unfold merge_upload_block in Hb.
        destruct (collect (merge_artifacts env n)) as [[files images] packages].
        match type of Hb with
        | context [upload_block env cid files images packages ?c ?w0] =>
            pose proof (upload_block_outcome env cid files images packages c w0) as Ho;
            destruct (fst (upload_block env cid files images packages c w0))
              as [st|r|e]
        end.
        -- exact Hb.
        -- rewrite Hb in Hrun. inversion Hrun; subst r.
           destruct (download_error env (tmpdir env) files); [discriminate Ho|].
           destruct Ho as [Ho|Ho]; discriminate Ho.
        -- rewrite Hb in Hrun. discriminate Hrun.
      * rewrite Hres in Hrun. inversion Hrun as [Hg]. split; [reflexivity|].
        eexists (_ :: _ :: _ :: inside ++ [_; _]). rewrite Ht.
        cbn [app]. rewrite <- app_assoc. reflexivity.
  - rewrite (merge_pr_failed_checks self env n cid w m Hv) in Hrun.
    discriminate Hrun.
  - assert (Hi : indeterminate env n)
      by (unfold indeterminate; fold (merge_verdict env n); now rewrite Hv).
    rewrite (merge_pr_indeterminate self env n cid w Hi) in Hrun.
    destruct (Nat.ltb (request_retries self) 15); discriminate Hrun.
Qed.

Lemma merge_pr_success_only_after_merge_witness :
  let run := merge_pr (mkTask 0) reversed_env 42 7 world0 in
  fst run = Return (true, "Pull Request successfully merged") /\
  exists before,
    trace (snd run)
    = trace world0 ++ before
      ++ [MergePr 42 (get_latest_pr_commit (iter_pr_commits reversed_env 42))
            (Some (merge_message reversed_env
                     (all_uploaded (merge_artifacts reversed_env 42))
                     (coauthors_of (user_login (m_get_prs reversed_env 42))
                        (iter_pr_commits reversed_env 42))))].
Proof.
  intros run.
  assert (H : fst run = Return (true, "Pull Request successfully merged"))
    by (vm_compute; reflexivity).
  split; [exact H|].
  exact (proj2 (merge_pr_success_only_after_merge (mkTask 0) reversed_env 42 7
                  world0 _ H)).
Defined.
